(** * Webhook payment verification: the ingestion pipeline

    A shallow embedding of the TypeScript sources
    (utils/signatureValidator.ts, validators/transactionValidator.ts,
    services/webhookService.ts, routes/webhook.routes.ts, app.ts,
    entities/Transaction.entity.ts and test-signature-generator.js) and the
    properties of the ingestion pipeline proved over it.

    Conventions of the embedding.
    - A JavaScript value is a [JS.value]; a JavaScript number is an IEEE-754
      binary64 [float]; a JavaScript string is a [string] of ASCII
      characters (code points below 128: the payload fields the validator
      looks into are ASCII by their regular expressions and allow-lists).
    - A function that can throw returns [result]; a function that awaits the
      database runs in the monad [M] over the [World].
    - Unix times (Date.now, the timestamp header) are integers, held in [Z];
      JavaScript holds them exactly up to 2^53.
    - What a request does not decide (the clock, the database's generated
      values and failures, the rows other requests commit meanwhile) is an
      [Env]; the properties hold for every [Env].
    - HMAC-SHA256 is Node's, not the repository's: a variable of the
      sections that use it. *)

From Stdlib Require Import ZArith List String Ascii Bool Lia Floats.
From Stdlib Require Import DecimalString DecimalN DecimalFacts.
Import ListNotations.

Set Warnings "-inexact-float,-register-all".

Local Open Scope string_scope.
Local Open Scope Z_scope.

(** ** The JavaScript runtime the sources rely on *)

Module JS.

(** Values as JSON.parse and the language produce them. An object is its
    list of own properties, in insertion order, without repeated keys. *)
Inductive value : Type :=
| Undefined
| Null
| Bool (b : bool)
| Num (x : float)
| Str (s : string)
| Obj (props : list (string * value))
| Arr (items : list value).

(** [typeof v] *)
Definition typeof (v : value) : string :=
  match v with
  | Undefined => "undefined"
  | Null => "object"
  | Bool _ => "boolean"
  | Num _ => "number"
  | Str _ => "string"
  | Obj _ => "object"
  | Arr _ => "object"
  end.

Definition isNaN (x : float) : bool := PrimFloat.is_nan x.

(** ToBoolean: what [!v] and [if (v)] look at. *)
Definition truthy (v : value) : bool :=
  match v with
  | Undefined => false
  | Null => false
  | Bool b => b
  | Num x => negb (PrimFloat.eqb x 0%float || isNaN x)
  | Str s => negb (String.eqb s "")
  | Obj _ => true
  | Arr _ => true
  end.

Fixpoint lookup (k : string) (props : list (string * value)) : option value :=
  match props with
  | [] => None
  | (k', v) :: rest => if String.eqb k k' then Some v else lookup k rest
  end.

(** [o?.k] *)
Definition get_opt (o : value) (k : string) : value :=
  match o with
  | Obj props =>
      match lookup k props with
      | Some v => v
      | None => Undefined
      end
  | _ => Undefined
  end.

(** Strings *)

Definition is_upper (c : ascii) : bool :=
  let n := N_of_ascii c in (65 <=? n)%N && (n <=? 90)%N.

Definition is_lower (c : ascii) : bool :=
  let n := N_of_ascii c in (97 <=? n)%N && (n <=? 122)%N.

Definition is_digit (c : ascii) : bool :=
  let n := N_of_ascii c in (48 <=? n)%N && (n <=? 57)%N.

(** WhiteSpace and LineTerminator among the ASCII characters: what [\s]
    matches and what parseInt and parseFloat skip. The white space beyond
    ASCII (U+00A0, U+2028 and the like) is outside the strings of this
    embedding. *)
Definition is_space (c : ascii) : bool :=
  let n := N_of_ascii c in
  ((9 <=? n)%N && (n <=? 13)%N) || (n =? 32)%N.

Definition upper_char (c : ascii) : ascii :=
  if is_lower c then ascii_of_N (N_of_ascii c - 32) else c.

(** [s.toUpperCase()] on a string of ASCII characters: a new string, the
    receiver is left as it is. Beyond ASCII the method can change the length
    and the script of a string, which this function does not follow; a
    statement that depends on it says that its strings are ASCII. *)
Fixpoint toUpperCase (s : string) : string :=
  match s with
  | EmptyString => EmptyString
  | String c rest => String (upper_char c) (toUpperCase rest)
  end.

(** [xs.includes(s)] on an array of strings *)
Fixpoint includes (xs : list string) (s : string) : bool :=
  match xs with
  | [] => false
  | x :: rest => String.eqb x s || includes rest s
  end.

(** Regular expressions, matched by derivatives. Every pattern of the
    sources is anchored at both ends, so [test] asks for a full match. *)
Inductive regex : Type :=
| Void
| Eps
| Class (p : ascii -> bool)
| Cat (r1 r2 : regex)
| Alt (r1 r2 : regex)
| Star (r : regex).

Fixpoint nullable (r : regex) : bool :=
  match r with
  | Void => false
  | Eps => true
  | Class _ => false
  | Cat r1 r2 => nullable r1 && nullable r2
  | Alt r1 r2 => nullable r1 || nullable r2
  | Star _ => true
  end.

Fixpoint deriv (c : ascii) (r : regex) : regex :=
  match r with
  | Void => Void
  | Eps => Void
  | Class p => if p c then Eps else Void
  | Cat r1 r2 =>
      if nullable r1
      then Alt (Cat (deriv c r1) r2) (deriv c r2)
      else Cat (deriv c r1) r2
  | Alt r1 r2 => Alt (deriv c r1) (deriv c r2)
  | Star r1 => Cat (deriv c r1) (Star r1)
  end.

Fixpoint test (r : regex) (s : string) : bool :=
  match s with
  | EmptyString => nullable r
  | String c rest => test (deriv c r) rest
  end.

Definition Plus (r : regex) : regex := Cat r (Star r).
Definition Chr (c : ascii) : regex := Class (Ascii.eqb c).

(** *** Numbers

    A finite non-zero double is [m * 2^e] with [m] its integral significand
    ([Prim2SF]); the functions below work on that exact value. *)

Definition decimal (n : Z) : string :=
  NilZero.string_of_uint (N.to_uint (Z.to_N n)).

Definition digits_value (ds : string) : Z :=
  match NilEmpty.uint_of_string ds with
  | Some d => Z.of_N (N.of_uint d)
  | None => 0
  end.

Fixpoint span_digits (s : string) : string * string :=
  match s with
  | EmptyString => ("", "")
  | String c rest =>
      if is_digit c
      then let (ds, tl) := span_digits rest in (String c ds, tl)
      else ("", s)
  end.

Fixpoint zeros (n : nat) : string :=
  match n with
  | O => ""
  | S n' => String "0" (zeros n')
  end.

(** The first [n] characters of a string, and the rest. *)
Fixpoint take (n : nat) (s : string) : string :=
  match n, s with
  | S n', String c rest => String c (take n' rest)
  | _, _ => ""
  end.

Fixpoint drop (n : nat) (s : string) : string :=
  match n, s with
  | S n', String _ rest => drop n' rest
  | _, _ => s
  end.

Definition slen (s : string) : Z := Z.of_nat (String.length s).

(** [c * 10^p] compared with [l * 2^q], both sides cleared of negative
    powers. *)
Definition cmp_scaled (c p l q : Z) : comparison :=
  (c * 10 ^ Z.max p 0 * 2 ^ Z.max (- q) 0)
    ?= (l * 2 ^ Z.max q 0 * 10 ^ Z.max (- p) 0).

(** [floor (m * 2^e / 10^p)] *)
Definition floor_scaled (m e p : Z) : Z :=
  (m * 2 ^ Z.max e 0 * 10 ^ Z.max (- p) 0)
    / (2 ^ Z.max (- e) 0 * 10 ^ Z.max p 0).

(** The least [n] from [n0] on with [m * 2^e < 10^n]. *)
Fixpoint first_power_above (fuel : nat) (n m e : Z) : Z :=
  match fuel with
  | O => n
  | S fuel' =>
      match cmp_scaled 1 n m e with
      | Gt => n
      | _ => first_power_above fuel' (n + 1) m e
      end
  end.

(** The [n] with [10^(n-1) <= m * 2^e < 10^n], searched upwards from an
    under-estimate of the base-10 logarithm. *)
Definition decimal_exponent (m e : Z) : Z :=
  let bits := Z.log2 m + e in
  first_power_above 6 (bits * 30103 / 100000 - 1) m e.

(** Does [c * 10^p] read back as the double [m * 2^e]?  The doubles next to
    it are [(m+1) * 2^e] and [(m-1) * 2^e] (half as far when [m] is the least
    significand of its binade); a midpoint reads back to the even one. *)
Definition reads_back (m e c p : Z) : bool :=
  let lo := 4 * m - (if (m =? 2 ^ 52) && (-1074 <? e) then 1 else 2) in
  let hi := 4 * m + 2 in
  match cmp_scaled c p lo (e - 2), cmp_scaled c p hi (e - 2) with
  | Gt, Lt => true
  | Eq, Lt => Z.even m
  | Gt, Eq => Z.even m
  | _, _ => false
  end.

(** Number::toString, the digit generation: the [k]-digit candidates next to
    the value, for [k = 1, 2, ...]; the first [k] with a candidate that reads
    back wins, the closer candidate first, the even one on a tie. *)
Fixpoint shortest_digits (fuel : nat) (k : Z) (m e n : Z) : Z * Z :=
  let p := n - k in
  let c1 := floor_scaled m e p in
  let c2 := c1 + 1 in
  match fuel with
  | O => (c1, p)
  | S fuel' =>
      match reads_back m e c1 p, reads_back m e c2 p with
      | true, true =>
          match cmp_scaled (c1 + c2) p (2 * m) e with
          | Lt => (c2, p)
          | Gt => (c1, p)
          | Eq => if Z.even c1 then (c1, p) else (c2, p)
          end
      | true, false => (c1, p)
      | false, true => (c2, p)
      | false, false => shortest_digits fuel' (k + 1) m e n
      end
  end.

Fixpoint strip_zeros (fuel : nat) (c p : Z) : Z * Z :=
  match fuel with
  | O => (c, p)
  | S fuel' =>
      if (c mod 10 =? 0) && (0 <? c) then strip_zeros fuel' (c / 10) (p + 1)
      else (c, p)
  end.

(** The decimal view of a positive finite double: its digits [s] (no
    trailing zero) and the exponent [n], the value being
    [0.s * 10^n = s * 10^(n - k)] for [k] digits. *)
Record decimal_view : Type := { digits : string; point : Z }.

Definition view_of (m e : Z) : decimal_view :=
  let (c, p) := shortest_digits 17 1 m e (decimal_exponent m e) in
  let (c', p') := strip_zeros 20 c p in
  let ds := decimal c' in
  {| digits := ds; point := p' + slen ds |}.

(** Number::toString, the layout of the digits. *)
Definition render (d : decimal_view) : string :=
  let ds := digits d in
  let k := slen ds in
  let n := point d in
  if (k <=? n) && (n <=? 21) then
    ds ++ zeros (Z.to_nat (n - k))
  else if (0 <? n) && (n <=? 21) then
    take (Z.to_nat n) ds ++ "." ++ drop (Z.to_nat n) ds
  else if (-6 <? n) && (n <=? 0) then
    "0." ++ zeros (Z.to_nat (- n)) ++ ds
  else
    let ex := n - 1 in
    let sign := if ex <? 0 then "-" else "+" in
    if k =? 1 then
      ds ++ "e" ++ sign ++ decimal (Z.abs ex)
    else
      take 1 ds ++ "." ++ drop 1 ds ++ "e" ++ sign ++ decimal (Z.abs ex).

(** [x.toString()] *)
Definition Number_toString (x : float) : string :=
  match Prim2SF x with
  | S754_nan => "NaN"
  | S754_zero _ => "0"
  | S754_infinity s => if s then "-Infinity" else "Infinity"
  | S754_finite s m e =>
      (if s then "-" else "") ++ render (view_of (Zpos m) e)
  end.

(** The double nearest to [num / den] (both positive), ties to the even
    significand: what reading a decimal literal yields. *)
Definition round_to_double (neg : bool) (num den : Z) : float :=
  let signed (x : float) := if neg then PrimFloat.opp x else x in
  if num =? 0 then signed 0%float else
  let b := Z.log2 num - Z.log2 den in
  let lg := if den * 2 ^ Z.max b 0 <=? num * 2 ^ Z.max (- b) 0 then b else b - 1 in
  let e := Z.max (lg - 52) (-1074) in
  let n' := num * 2 ^ Z.max (- e) 0 in
  let d' := den * 2 ^ Z.max e 0 in
  let q := n' / d' in
  let r := n' mod d' in
  let q' :=
    match 2 * r ?= d' with
    | Lt => q
    | Gt => q + 1
    | Eq => if Z.even q then q else q + 1
    end in
  if q' =? 0 then signed 0%float
  else if 971 <? e then signed infinity
  else SF2Prim (S754_finite neg (Z.to_pos q') e).

(** The double nearest to [c * 10^p]. *)
Definition decimal_to_double (neg : bool) (c p : Z) : float :=
  round_to_double neg (c * 10 ^ Z.max p 0) (10 ^ Z.max (- p) 0).

Fixpoint trim_start (s : string) : string :=
  match s with
  | String c rest => if is_space c then trim_start rest else s
  | EmptyString => EmptyString
  end.

Definition strip_sign (s : string) : bool * string :=
  match s with
  | String "-" rest => (true, rest)
  | String "+" rest => (false, rest)
  | _ => (false, s)
  end.

(** The ExponentPart of a decimal literal, 0 when there is none. *)
Definition exponent_part (s : string) : Z :=
  match s with
  | String c rest =>
      if Ascii.eqb c "e" || Ascii.eqb c "E" then
        let (neg, rest') := strip_sign rest in
        let (ds, _) := span_digits rest' in
        if String.eqb ds "" then 0
        else if neg then - digits_value ds else digits_value ds
      else 0
  | EmptyString => 0
  end.

(** [parseFloat(s)]: the longest prefix that is a StrDecimalLiteral. *)
Definition parseFloat (s : string) : float :=
  let (neg, body) := strip_sign (trim_start s) in
  if String.prefix "Infinity" body then
    (if neg then neg_infinity else infinity)
  else
    let (ip, r1) := span_digits body in
    let (fp, r2) :=
      match r1 with
      | String "." rest => span_digits rest
      | _ => ("", r1)
      end in
    if String.eqb (ip ++ fp) "" then nan
    else decimal_to_double neg (digits_value (ip ++ fp))
                           (exponent_part r2 - slen fp).

(** [x.toFixed(f)]: the integer [n] nearest to [|x| * 10^f], the larger one
    on a tie, written with [f] digits after the point and the sign of [x]
    before. *)
Definition fixed_point (n : Z) (f : nat) : string :=
  let m := decimal n in
  let m := zeros (S f - String.length m) ++ m in
  let k := String.length m in
  match f with
  | O => m
  | _ => take (k - f) m ++ "." ++ drop (k - f) m
  end.

(** [|x| * 10^f] for the double [m * 2^e], rounded to the nearest integer,
    the larger one on a tie. *)
Definition scaled_half_up (m e : Z) (f : nat) : Z :=
  let num := m * 2 ^ Z.max e 0 * 10 ^ Z.of_nat f in
  let den := 2 ^ Z.max (- e) 0 in
  (2 * num + den) / (2 * den).

(** [|x| < 10^21], for a finite [x]: where [toFixed] writes fixed-point
    digits instead of falling back on [toString]. *)
Definition below_1e21 (x : float) : bool :=
  match Prim2SF x with
  | S754_finite _ m e =>
      match cmp_scaled 1 21 (Zpos m) e with
      | Gt => true
      | _ => false
      end
  | S754_zero _ => true
  | _ => false
  end.

Definition toFixed (x : float) (f : nat) : string :=
  match Prim2SF x with
  | S754_nan => Number_toString x
  | S754_infinity _ => Number_toString x
  | S754_zero _ => fixed_point 0 f
  | S754_finite s m e =>
      let sign := if s then "-" else "" in
      if below_1e21 x
      then sign ++ fixed_point (scaled_half_up (Zpos m) e f) f
      else sign ++ render (view_of (Zpos m) e)
  end.

(** [parseInt(s)], radix left out: the integer the longest prefix of digits
    denotes, [None] standing for NaN. A leading [0x] selects radix 16. *)
Definition hex_digit (c : ascii) : option Z :=
  let n := Z.of_N (N_of_ascii c) in
  if is_digit c then Some (n - 48)
  else if (97 <=? n) && (n <=? 102) then Some (n - 87)
  else if (65 <=? n) && (n <=? 70) then Some (n - 55)
  else None.

Fixpoint hex_prefix_value (s : string) (acc : option Z) : option Z :=
  match s with
  | String c rest =>
      match hex_digit c with
      | Some d =>
          hex_prefix_value rest
            (Some (16 * match acc with Some a => a | None => 0 end + d))
      | None => acc
      end
  | EmptyString => acc
  end.

Definition parseInt (s : string) : option Z :=
  let (neg, body) := strip_sign (trim_start s) in
  let signed (n : Z) := if neg then - n else n in
  let decimal_prefix :=
    let (ds, _) := span_digits body in
    if String.eqb ds "" then None else Some (signed (digits_value ds)) in
  match body with
  | String "0" (String x rest) =>
      if Ascii.eqb x "x" || Ascii.eqb x "X"
      then option_map signed (hex_prefix_value rest None)
      else decimal_prefix
  | _ => decimal_prefix
  end.

(** [s.split(".")] *)
Fixpoint split_dot (s : string) : list string :=
  match s with
  | EmptyString => [""]
  | String c rest =>
      if Ascii.eqb c "."
      then "" :: split_dot rest
      else
        match split_dot rest with
        | piece :: more => String c piece :: more
        | [] => [String c ""]
        end
  end.

End JS.

(** ** entities/Transaction.entity.ts *)

Module Entities.

(** [enum TransactionStatus] and [Object.values(TransactionStatus)] *)
Inductive TransactionStatus : Type := PENDING | COMPLETED | FAILED.

Definition status_value (s : TransactionStatus) : string :=
  match s with
  | PENDING => "pending"
  | COMPLETED => "completed"
  | FAILED => "failed"
  end.

Definition TransactionStatus_values : list string :=
  map status_value [PENDING; COMPLETED; FAILED].

(** A row of [transactions]. The columns the service copies from the payload
    hold the payload's values as they are; the nullable columns are options,
    [None] being a property never set and so NULL in the table. Dates are
    milliseconds since the epoch. *)
Record Transaction : Type := {
  id : option string;
  event_id : JS.value;
  transaction_id : JS.value;
  amount : JS.value;
  currency : string;
  sender_id : JS.value;
  sender_name : JS.value;
  sender_country : string;
  receiver_id : JS.value;
  receiver_name : JS.value;
  receiver_country : string;
  status : JS.value;
  payment_method : JS.value;
  processing_fee : option float;
  net_amount : option float;
  exchange_rate : option float;
  metadata : JS.value;
  processed_at : option Z;
  created_at : option Z;
  updated_at : option Z
}.

(** A row of [audit_logs]. *)
Record AuditLog : Type := {
  log_id : option string;
  log_event_id : JS.value;
  log_event_type : JS.value;
  log_payload : JS.value;
  log_status : string;
  log_error_message : option string;
  log_created_at : option Z
}.

End Entities.

(** ** Exceptions and the state the service runs in *)

Inductive db_failure : Type :=
| UniqueViolation (column : string)
| OtherFailure (detail : string).

(** What a [throw] carries: a plain Error, the two Error classes the sources
    declare and test with [instanceof], and the errors of the runtime and of
    the driver. *)
Inductive error : Type :=
| Error (message : string)
| ValidationError (field message : string)
| DuplicateTransactionError (existingTransaction : Entities.Transaction)
| TypeError (message : string)
| RangeError (message : string)
| QueryFailedError (why : db_failure).

(** [error.message] *)
Definition message_of (e : error) : string :=
  match e with
  | Error m => m
  | ValidationError _ m => m
  | DuplicateTransactionError _ => "Transaction already processed"
  | TypeError m => m
  | RangeError m => m
  | QueryFailedError (UniqueViolation c) =>
      "duplicate key value violates unique constraint on " ++ c
  | QueryFailedError (OtherFailure d) => d
  end.

Definition result (A : Type) : Type := (error + A)%type.

Definition ok {A} (a : A) : result A := inr a.
Definition throw {A} (e : error) : result A := inl e.

Definition rbind {A B} (r : result A) (k : A -> result B) : result B :=
  match r with
  | inr a => k a
  | inl e => inl e
  end.

(** [o.k]: reading a property of [undefined] or [null] throws; a property
    an object does not have reads as [undefined]. A primitive or an array has
    none of the payload's field names. *)
Definition get (o : JS.value) (k : string) : result JS.value :=
  match o with
  | JS.Undefined =>
      throw (TypeError ("Cannot read properties of undefined (reading '" ++ k ++ "')"))
  | JS.Null =>
      throw (TypeError ("Cannot read properties of null (reading '" ++ k ++ "')"))
  | _ => ok (JS.get_opt o k)
  end.

(** [v.toUpperCase()] on a value: only a string has the method. *)
Definition call_toUpperCase (v : JS.value) : result string :=
  match v with
  | JS.Str s => ok (JS.toUpperCase s)
  | JS.Undefined =>
      throw (TypeError "Cannot read properties of undefined (reading 'toUpperCase')")
  | JS.Null =>
      throw (TypeError "Cannot read properties of null (reading 'toUpperCase')")
  | _ => throw (TypeError "toUpperCase is not a function")
  end.

(** The state a request runs in: the two tables, the console, and the
    request's body object. The [payload] parameter of the sources is a
    reference to that one object; a function that is handed the reference
    reads (and could write) [body]. *)
Record World : Type := {
  transactions : list Entities.Transaction;
  audit_logs : list Entities.AuditLog;
  audit_writes : nat;
  console : list string;
  body : JS.value
}.

(** What the request does not decide: the clock, the identifiers the
    database generates, its failures, and the rows other requests commit
    while this one is between its idempotency lookups and its insert. *)
Record Env : Type := {
  now : Z;
  new_Date : Z;
  db_timestamp : Z;
  uuid : nat -> string;
  audit_fails : nat -> bool;
  lookup_fails : bool;
  insert_fails : bool;
  concurrent : list Entities.Transaction
}.

Definition M (A : Type) : Type := World -> result A * World.

Definition ret {A} (a : A) : M A := fun w => (ok a, w).

Definition bind {A B} (m : M A) (k : A -> M B) : M B :=
  fun w =>
    match m w with
    | (inr a, w') => k a w'
    | (inl e, w') => (inl e, w')
    end.

Definition raise {A} (e : error) : M A := fun w => (throw e, w).

Definition lift {A} (r : result A) : M A := fun w => (r, w).

(** [try { m } catch (error) { handler error }] *)
Definition try_catch {A} (m : M A) (handler : error -> M A) : M A :=
  fun w =>
    match m w with
    | (inr a, w') => (inr a, w')
    | (inl e, w') => handler e w'
    end.

Definition read_body : M JS.value := fun w => (ok (body w), w).

Definition console_error (line : string) : M unit :=
  fun w =>
    (ok tt,
     {| transactions := transactions w; audit_logs := audit_logs w;
        audit_writes := audit_writes w; console := console w ++ [line];
        body := body w |}).

Declare Scope monad_scope.
Delimit Scope monad_scope with monad.
Notation "x <- m ;; k" := (bind m (fun x => k))
  (at level 61, m at next level, right associativity) : monad_scope.
Notation "m ;; k" := (bind m (fun _ => k))
  (at level 61, right associativity) : monad_scope.
Local Open Scope monad_scope.

(** ** utils/signatureValidator.ts *)

Module SignatureValidator.

(** [crypto.timingSafeEqual(Buffer.from(a), Buffer.from(b))]: throws when the
    two buffers differ in length; otherwise folds the XOR of every pair of
    bytes into one accumulator, whatever the bytes are, and compares the
    accumulator with zero at the end. *)
Fixpoint xor_fold (a b : string) (acc : N) : N :=
  match a, b with
  | String x a', String y b' =>
      xor_fold a' b' (N.lor acc (N.lxor (N_of_ascii x) (N_of_ascii y)))
  | _, _ => acc
  end.

Definition timingSafeEqual (a b : string) : result bool :=
  if Nat.eqb (String.length a) (String.length b)
  then ok (N.eqb (xor_fold a b 0%N) 0%N)
  else throw (RangeError "Input buffers must have the same byte length").

(** The instance: its one field. The constructor reads WEBHOOK_SECRET and
    throws when it is missing or empty. *)
Record t : Type := { secret : string }.

Definition construct (WEBHOOK_SECRET : option string) : result t :=
  match WEBHOOK_SECRET with
  | None => throw (Error "WEBHOOK_SECRET is not configured")
  | Some s =>
      if String.eqb s "" then throw (Error "WEBHOOK_SECRET is not configured")
      else ok {| secret := s |}
  end.

Definition DEFAULT_TOLERANCE : Z := 300.

Section WithCrypto.

(** [crypto.createHmac("sha256", key).update(data).digest("hex")] *)
Variable hmac_sha256_hex : string -> string -> string.

(** [verify(payload, receivedSignature)]: the try block, and the catch that
    turns whatever it throws into [false]. *)
Definition verify (this : t) (payload receivedSignature : string) : bool :=
  let expectedSignature := hmac_sha256_hex (secret this) payload in
  match timingSafeEqual receivedSignature expectedSignature with
  | inr equal => equal
  | inl _ => false
  end.

(** [verifyWithTimestamp(payload, receivedSignature, timestamp,
    toleranceSeconds)], [Date.now()] being [now_ms]. *)
Definition verifyWithTimestamp (this : t) (now_ms : Z)
    (payload receivedSignature timestamp : string) (toleranceSeconds : Z) : bool :=
  let currentTime := now_ms / 1000 in
  match JS.parseInt timestamp with
  | None => false
  | Some payloadTime =>
      if toleranceSeconds <? Z.abs (currentTime - payloadTime) then false
      else
        let signedPayload := timestamp ++ "." ++ payload in
        verify this signedPayload receivedSignature
  end.

End WithCrypto.

End SignatureValidator.

(** ** validators/transactionValidator.ts *)

Module TransactionValidator.

Definition VALID_CURRENCIES : list string := ["USD"; "EUR"; "GBP"; "INR"; "JPY"].

Definition VALID_STATUSES : list string := Entities.TransactionStatus_values.

(** [value === undefined || value === null || value === ""] *)
Definition is_missing (v : JS.value) : bool :=
  match v with
  | JS.Undefined => true
  | JS.Null => true
  | JS.Str s => String.eqb s ""
  | _ => false
  end.

(** The object literal [requiredFields]: its entries in the order written.
    The first two read [payload] itself, the others go through [?.]. *)
Definition requiredFields (payload : JS.value) : result (list (string * JS.value)) :=
  match get payload "event_id", get payload "event_type", get payload "data" with
  | inr event_id, inr event_type, inr data =>
      let sender := JS.get_opt data "sender" in
      let receiver := JS.get_opt data "receiver" in
      ok [ ("event_id", event_id);
           ("event_type", event_type);
           ("data.transaction_id", JS.get_opt data "transaction_id");
           ("data.amount", JS.get_opt data "amount");
           ("data.currency", JS.get_opt data "currency");
           ("data.sender.id", JS.get_opt sender "id");
           ("data.sender.name", JS.get_opt sender "name");
           ("data.sender.email", JS.get_opt sender "email");
           ("data.sender.country", JS.get_opt sender "country");
           ("data.receiver.id", JS.get_opt receiver "id");
           ("data.receiver.name", JS.get_opt receiver "name");
           ("data.receiver.email", JS.get_opt receiver "email");
           ("data.receiver.country", JS.get_opt receiver "country");
           ("data.status", JS.get_opt data "status");
           ("data.payment_method", JS.get_opt data "payment_method") ]
  | inl e, _, _ => inl e
  | _, inl e, _ => inl e
  | _, _, inl e => inl e
  end.

(** The loop over [Object.entries(requiredFields)] *)
Fixpoint first_missing (entries : list (string * JS.value)) : result unit :=
  match entries with
  | [] => ok tt
  | (field, value) :: rest =>
      if is_missing value
      then throw (ValidationError field (field ++ " is required"))
      else first_missing rest
  end.

Definition validateRequired : M unit :=
  payload <- read_body ;;
  entries <- lift (requiredFields payload) ;;
  lift (first_missing entries).

(** [amount.toString().split(".")[1]?.length > 2], the comparison being
    false when there is no second piece. *)
Definition too_many_decimals (x : float) : bool :=
  match nth_error (JS.split_dot (JS.Number_toString x)) 1 with
  | Some piece => (2 <? String.length piece)%nat
  | None => false
  end.

Definition validateAmount (amount : JS.value) : result unit :=
  match amount with
  | JS.Num x =>
      if JS.isNaN x then
        throw (ValidationError "amount" "Amount must be a valid number")
      else if PrimFloat.leb x 0%float then
        throw (ValidationError "amount" "Amount must be a positive number")
      else if too_many_decimals x then
        throw (ValidationError "amount" "Amount cannot have more than 2 decimal places")
      else ok tt
  | _ => throw (ValidationError "amount" "Amount must be a valid number")
  end.

Definition validateCurrency (currency : JS.value) : result unit :=
  match currency with
  | JS.Str s =>
      if negb (JS.truthy currency) then
        throw (ValidationError "currency" "Currency is required")
      else
        let upperCurrency := JS.toUpperCase s in
        if negb (JS.includes VALID_CURRENCIES upperCurrency) then
          throw (ValidationError "currency"
                   ("Currency must be a valid ISO code. Supported: "
                      ++ String.concat ", " VALID_CURRENCIES))
        else ok tt
  | _ => throw (ValidationError "currency" "Currency is required")
  end.

Definition validateStatus (status : JS.value) : result unit :=
  match status with
  | JS.Str s =>
      if negb (JS.truthy status) then
        throw (ValidationError "status" "Status is required")
      else if negb (JS.includes VALID_STATUSES s) then
        throw (ValidationError "status"
                 ("Status must be one of: " ++ String.concat ", " VALID_STATUSES))
      else ok tt
  | _ => throw (ValidationError "status" "Status is required")
  end.

(** [/^[A-Z]{2}$/] *)
Definition iso2Regex : JS.regex :=
  JS.Cat (JS.Class JS.is_upper) (JS.Class JS.is_upper).

(** The callback of [countries.forEach], [index] counting from 0. *)
Definition validateCountry (country : JS.value) (index : Z) : result unit :=
  let field := "country_" ++ JS.decimal index in
  match country with
  | JS.Str s =>
      if negb (JS.truthy country) then
        throw (ValidationError field "Country code is required")
      else
        let upperCountry := JS.toUpperCase s in
        if negb (JS.test iso2Regex upperCountry) then
          throw (ValidationError field
                   ("Country code must be 2-letter ISO code (e.g., US, IN, GB). Received: "
                      ++ s))
        else ok tt
  | _ => throw (ValidationError field "Country code is required")
  end.

Fixpoint forEach_country (countries : list JS.value) (index : Z) : result unit :=
  match countries with
  | [] => ok tt
  | country :: rest =>
      match validateCountry country index with
      | inr _ => forEach_country rest (index + 1)
      | inl e => inl e
      end
  end.

Definition validateCountryCodes (countries : list JS.value) : result unit :=
  forEach_country countries 0.

(** [/^[^\s@]+@[^\s@]+\.[^\s@]+$/] *)
Definition not_space_or_at (c : ascii) : bool :=
  negb (JS.is_space c || Ascii.eqb c "@").

Definition emailRegex : JS.regex :=
  JS.Cat (JS.Plus (JS.Class not_space_or_at))
    (JS.Cat (JS.Chr "@")
       (JS.Cat (JS.Plus (JS.Class not_space_or_at))
          (JS.Cat (JS.Chr ".") (JS.Plus (JS.Class not_space_or_at))))).

Definition validateEmail (email : JS.value) (fieldName : string) : result unit :=
  match email with
  | JS.Str s =>
      if negb (JS.truthy email) then
        throw (ValidationError fieldName (fieldName ++ " is required"))
      else if negb (JS.test emailRegex s) then
        throw (ValidationError fieldName (fieldName ++ " must be a valid email address"))
      else ok tt
  | _ => throw (ValidationError fieldName (fieldName ++ " is required"))
  end.

(** [payload.a.b]: two property reads, either of which can throw. *)
Definition get2 (o : JS.value) (a b : string) : result JS.value :=
  match get o a with
  | inr x => get x b
  | inl e => inl e
  end.

Definition get3 (o : JS.value) (a b c : string) : result JS.value :=
  match get2 o a b with
  | inr x => get x c
  | inl e => inl e
  end.

(** [validate(payload)]: the seven calls in the order written, each reading
    its argument off the payload when its turn comes. *)
Definition validate : M unit :=
  validateRequired ;;
  payload <- read_body ;;
  amount <- lift (get2 payload "data" "amount") ;;
  lift (validateAmount amount) ;;
  currency <- lift (get2 payload "data" "currency") ;;
  lift (validateCurrency currency) ;;
  status <- lift (get2 payload "data" "status") ;;
  lift (validateStatus status) ;;
  sender_country <- lift (get3 payload "data" "sender" "country") ;;
  receiver_country <- lift (get3 payload "data" "receiver" "country") ;;
  lift (validateCountryCodes [sender_country; receiver_country]) ;;
  sender_email <- lift (get3 payload "data" "sender" "email") ;;
  lift (validateEmail sender_email "sender.email") ;;
  receiver_email <- lift (get3 payload "data" "receiver" "email") ;;
  lift (validateEmail receiver_email "receiver.email").

End TransactionValidator.

(** [class TransactionCalculator] *)

Module TransactionCalculator.

Definition PROCESSING_FEE_RATE : float := 0.02%float.

Record DerivedFields : Type := {
  processing_fee : float;
  net_amount : float
}.

Definition calculateDerivedFields (amount : float) : DerivedFields :=
  let processingFee :=
    JS.parseFloat (JS.toFixed (PrimFloat.mul amount PROCESSING_FEE_RATE) 2) in
  let netAmount :=
    JS.parseFloat (JS.toFixed (PrimFloat.sub amount processingFee) 2) in
  {| processing_fee := processingFee; net_amount := netAmount |}.

(** The placeholder: [null] whatever it is given. *)
Definition calculateExchangeRate (fromCurrency toCurrency : string)
    (amount : float) : option float := None.

End TransactionCalculator.

(** ** The two TypeORM repositories, as far as the service uses them *)

Module Repository.

Import Entities.

(** Equality of column values. *)
Fixpoint value_eqb (a b : JS.value) : bool :=
  match a, b with
  | JS.Undefined, JS.Undefined => true
  | JS.Null, JS.Null => true
  | JS.Bool x, JS.Bool y => Bool.eqb x y
  | JS.Num x, JS.Num y => PrimFloat.eqb x y
  | JS.Str x, JS.Str y => String.eqb x y
  | JS.Obj ps, JS.Obj qs =>
      (fix props_eqb (ps qs : list (string * JS.value)) : bool :=
         match ps, qs with
         | [], [] => true
         | (k, v) :: ps', (k', v') :: qs' =>
             String.eqb k k' && value_eqb v v' && props_eqb ps' qs'
         | _, _ => false
         end) ps qs
  | JS.Arr xs, JS.Arr ys =>
      (fix items_eqb (xs ys : list JS.value) : bool :=
         match xs, ys with
         | [], [] => true
         | x :: xs', y :: ys' => value_eqb x y && items_eqb xs' ys'
         | _, _ => false
         end) xs ys
  | _, _ => false
  end.

Definition set_transactions (w : World) (rows : list Transaction) : World :=
  {| transactions := rows; audit_logs := audit_logs w;
     audit_writes := audit_writes w; console := console w; body := body w |}.

Definition set_audit_logs (w : World) (rows : list AuditLog) (writes : nat) : World :=
  {| transactions := transactions w; audit_logs := rows;
     audit_writes := writes; console := console w; body := body w |}.

Definition has_event_id (eventId : JS.value) (row : Transaction) : bool :=
  value_eqb (event_id row) eventId.

Definition has_transaction_id (transactionId : JS.value) (row : Transaction) : bool :=
  value_eqb (transaction_id row) transactionId.

(** [transactionRepo.findOne({ where: { event_id: eventId } })]: the first
    row of the table with that key. What the driver makes of a row's columns
    on the way back (a decimal read as a string) is not followed: of the
    row found, the properties use the key it was found by and no more. *)
Definition findOne_by_event_id (env : Env) (eventId : JS.value)
  : M (option Transaction) :=
  fun w =>
    if lookup_fails env
    then (throw (QueryFailedError (OtherFailure "select failed")), w)
    else (ok (find (has_event_id eventId) (transactions w)), w).

(** [transactionRepo.findOne({ where: { transaction_id: transactionId } })],
    in the same way. *)
Definition findOne_by_transaction_id (env : Env) (transactionId : JS.value)
  : M (option Transaction) :=
  fun w =>
    if lookup_fails env
    then (throw (QueryFailedError (OtherFailure "select failed")), w)
    else (ok (find (has_transaction_id transactionId) (transactions w)), w).

(** A nullable column that the record leaves out is stored as [null], and
    [save] hands the record back with [null] there. *)
Definition null_if_undefined (v : JS.value) : JS.value :=
  match v with
  | JS.Undefined => JS.Null
  | _ => v
  end.

(** The INSERT behind [transactionRepo.save]: the two UNIQUE columns are
    checked against the table as it is now; the row gets its generated id
    and timestamps, and [null] for the metadata it does not have. Every
    other refusal of the table (a value its column cannot hold) is among
    the failures [insert_fails] stands for. *)
Definition insert (env : Env) (t : Transaction) (rows : list Transaction)
  : result Transaction :=
  if existsb (has_event_id (event_id t)) rows then
    throw (QueryFailedError (UniqueViolation "event_id"))
  else if existsb (has_transaction_id (transaction_id t)) rows then
    throw (QueryFailedError (UniqueViolation "transaction_id"))
  else if insert_fails env then
    throw (QueryFailedError (OtherFailure "insert failed"))
  else
    ok {| id := Some (uuid env (List.length rows));
          event_id := event_id t;
          transaction_id := transaction_id t;
          amount := amount t;
          currency := currency t;
          sender_id := sender_id t;
          sender_name := sender_name t;
          sender_country := sender_country t;
          receiver_id := receiver_id t;
          receiver_name := receiver_name t;
          receiver_country := receiver_country t;
          status := status t;
          payment_method := payment_method t;
          processing_fee := processing_fee t;
          net_amount := net_amount t;
          exchange_rate := exchange_rate t;
          metadata := null_if_undefined (metadata t);
          processed_at := processed_at t;
          created_at := Some (db_timestamp env);
          updated_at := Some (db_timestamp env) |}.

(** [transactionRepo.save(transaction)] *)
Definition save_transaction (env : Env) (t : Transaction) : M Transaction :=
  fun w =>
    match insert env t (transactions w) with
    | inr row => (ok row, set_transactions w (transactions w ++ [row]))
    | inl e => (inl e, w)
    end.

(** The rows other requests commit while this one is between its lookups and
    its insert; a row the constraints refuse is not committed. *)
Fixpoint commit_all (env : Env) (others rows : list Transaction) : list Transaction :=
  match others with
  | [] => rows
  | t :: rest =>
      match insert env t rows with
      | inr row => commit_all env rest (rows ++ [row])
      | inl _ => commit_all env rest rows
      end
  end.

Definition concurrent_commits (env : Env) : M unit :=
  fun w => (ok tt, set_transactions w (commit_all env (concurrent env) (transactions w))).

(** [auditLogRepo.save(auditLog)]: the insert fails when the environment
    says so, and appends the row otherwise. The refusals of the table
    itself (a row without [event_id] or [event_type], both NOT NULL) are
    among the failures [audit_fails] stands for. *)
Definition save_audit (env : Env) (a : AuditLog) : M AuditLog :=
  fun w =>
    let n := audit_writes w in
    if audit_fails env n then
      (throw (QueryFailedError (OtherFailure "insert into audit_logs failed")),
       set_audit_logs w (audit_logs w) (S n))
    else
      let row :=
        {| log_id := Some (uuid env n);
           log_event_id := log_event_id a;
           log_event_type := log_event_type a;
           log_payload := log_payload a;
           log_status := log_status a;
           log_error_message := log_error_message a;
           log_created_at := Some (db_timestamp env) |} in
      (ok row, set_audit_logs w (audit_logs w ++ [row]) (S n)).

End Repository.

(** ** services/webhookService.ts *)

Module WebhookService.

Import Entities.

(** The number [calculateDerivedFields] is handed. [validate] has let only a
    number through by then. *)
Definition number_of (amount : JS.value) : float :=
  match amount with
  | JS.Num x => x
  | _ => nan
  end.

(** [logWebhookEvent(payload, status, error?)] *)
Definition logWebhookEvent (env : Env) (status : string) (error : option error)
  : M unit :=
  try_catch
    (payload <- read_body ;;
     event_id <- lift (get payload "event_id") ;;
     event_type <- lift (get payload "event_type") ;;
     let auditLog :=
       {| log_id := None;
          log_event_id := event_id;
          log_event_type := event_type;
          log_payload := payload;
          log_status := status;
          log_error_message := option_map message_of error;
          log_created_at := None |} in
     Repository.save_audit env auditLog ;;
     ret tt)
    (fun auditError =>
       console_error ("Failed to log audit event: " ++ message_of auditError)).

(** [checkDuplicate(eventId, transactionId)] *)
Definition checkDuplicate (env : Env) (eventId transactionId : JS.value) : M unit :=
  existingByEvent <- Repository.findOne_by_event_id env eventId ;;
  match existingByEvent with
  | Some existing => raise (DuplicateTransactionError existing)
  | None =>
      existingByTxn <- Repository.findOne_by_transaction_id env transactionId ;;
      match existingByTxn with
      | Some existing => raise (DuplicateTransactionError existing)
      | None => ret tt
      end
  end.

(** The argument of [transactionRepo.create]: the properties in the order
    written. [exchange_rate], [id] and the two managed dates are not among
    them. *)
Definition new_transaction (env : Env) (payload : JS.value)
    (derivedFields : TransactionCalculator.DerivedFields) : result Transaction :=
  let data k := TransactionValidator.get2 payload "data" k in
  let party p k := TransactionValidator.get3 payload "data" p k in
  rbind (get payload "event_id") (fun v_event_id =>
  rbind (data "transaction_id") (fun v_transaction_id =>
  rbind (data "amount") (fun v_amount =>
  rbind (rbind (data "currency") call_toUpperCase) (fun v_currency =>
  rbind (party "sender" "id") (fun v_sender_id =>
  rbind (party "sender" "name") (fun v_sender_name =>
  rbind (rbind (party "sender" "country") call_toUpperCase) (fun v_sender_country =>
  rbind (party "receiver" "id") (fun v_receiver_id =>
  rbind (party "receiver" "name") (fun v_receiver_name =>
  rbind (rbind (party "receiver" "country") call_toUpperCase) (fun v_receiver_country =>
  rbind (data "status") (fun v_status =>
  rbind (data "payment_method") (fun v_payment_method =>
  rbind (data "metadata") (fun v_metadata =>
  ok {| id := None;
        event_id := v_event_id;
        transaction_id := v_transaction_id;
        amount := v_amount;
        currency := v_currency;
        sender_id := v_sender_id;
        sender_name := v_sender_name;
        sender_country := v_sender_country;
        receiver_id := v_receiver_id;
        receiver_name := v_receiver_name;
        receiver_country := v_receiver_country;
        status := v_status;
        payment_method := v_payment_method;
        processing_fee := Some (TransactionCalculator.processing_fee derivedFields);
        net_amount := Some (TransactionCalculator.net_amount derivedFields);
        exchange_rate := None;
        metadata := v_metadata;
        processed_at := Some (new_Date env);
        created_at := None;
        updated_at := None |}))))))))))))).

(** [processWebhook(payload)] *)
Definition processWebhook (env : Env) : M Transaction :=
  logWebhookEvent env "received" None ;;
  try_catch
    (TransactionValidator.validate ;;
     payload <- read_body ;;
     eventId <- lift (get payload "event_id") ;;
     transactionId <- lift (TransactionValidator.get2 payload "data" "transaction_id") ;;
     checkDuplicate env eventId transactionId ;;
     amount <- lift (TransactionValidator.get2 payload "data" "amount") ;;
     let derivedFields :=
       TransactionCalculator.calculateDerivedFields (number_of amount) in
     transaction <- lift (new_transaction env payload derivedFields) ;;
     Repository.concurrent_commits env ;;
     savedTransaction <- Repository.save_transaction env transaction ;;
     logWebhookEvent env "processed" None ;;
     ret savedTransaction)
    (fun error =>
       logWebhookEvent env "failed" (Some error) ;;
       raise error).

End WebhookService.

(** ** routes/webhook.routes.ts and the body middleware of app.ts *)

Module WebhookRoutes.

Import Entities.

(** What the route reads of a request: the two headers ([None] when the
    header is absent), the raw body, and what [JSON.parse] makes of it
    ([None] when it throws). *)
Record Request : Type := {
  x_webhook_signature : option string;
  x_webhook_timestamp : option string;
  rawBody : string;
  parsed : option JS.value
}.

Record Response : Type := {
  status_code : Z;
  json : JS.value
}.

Definition number_of_Z (z : Z) : float :=
  JS.decimal_to_double (z <? 0) (Z.abs z) 0.

Definition opt_string (o : option string) : JS.value :=
  match o with
  | Some s => JS.Str s
  | None => JS.Undefined
  end.

Definition opt_number (o : option float) : JS.value :=
  match o with
  | Some x => JS.Num x
  | None => JS.Undefined
  end.

(** A Date in a response body, shown by its milliseconds. *)
Definition opt_date (o : option Z) : JS.value :=
  match o with
  | Some ms => JS.Num (number_of_Z ms)
  | None => JS.Undefined
  end.

Definition unauthorized (message : string) : Response :=
  {| status_code := 401;
     json := JS.Obj [("error", JS.Str "Unauthorized"); ("message", JS.Str message)] |}.

Definition success (transaction : Transaction) : Response :=
  {| status_code := 200;
     json :=
       JS.Obj
         [ ("success", JS.Bool true);
           ("message", JS.Str "Webhook processed successfully");
           ("data",
            JS.Obj
              [ ("id", opt_string (id transaction));
                ("transaction_id", transaction_id transaction);
                ("status", status transaction);
                ("amount", amount transaction);
                ("currency", JS.Str (currency transaction));
                ("processing_fee", opt_number (processing_fee transaction));
                ("net_amount", opt_number (net_amount transaction)) ]) ] |}.

Definition conflict (existingTransaction : Transaction) : Response :=
  {| status_code := 409;
     json :=
       JS.Obj
         [ ("error", JS.Str "Conflict");
           ("message", JS.Str "Transaction already processed");
           ("data",
            JS.Obj
              [ ("id", opt_string (id existingTransaction));
                ("transaction_id", transaction_id existingTransaction);
                ("status", status existingTransaction);
                ("processed_at", opt_date (processed_at existingTransaction)) ]) ] |}.

Definition bad_request (message field : string) : Response :=
  {| status_code := 400;
     json :=
       JS.Obj
         [ ("error", JS.Str "Validation Error");
           ("message", JS.Str message);
           ("field", JS.Str field) ] |}.

Definition internal_error : Response :=
  {| status_code := 500;
     json :=
       JS.Obj
         [ ("error", JS.Str "Internal Server Error");
           ("message", JS.Str "Failed to process webhook") ] |}.

Definition invalid_json : Response :=
  {| status_code := 400;
     json := JS.Obj [("error", JS.Str "Invalid JSON payload")] |}.

(** What a middleware does with a request: answer it, or call [next()]. *)
Inductive outcome : Type :=
| Respond (res : Response)
| Next.

(** The catch block of the route handler: the response by the class of the
    error. *)
Definition error_response (e : error) : M Response :=
  match e with
  | DuplicateTransactionError existingTransaction =>
      ret (conflict existingTransaction)
  | ValidationError field message => ret (bad_request message field)
  | _ =>
      console_error ("Webhook processing error: " ++ message_of e) ;;
      ret internal_error
  end.

(** The handler of [router.post("/payment", verifySignature, ...)] *)
Definition payment_handler (env : Env) : M Response :=
  try_catch
    (transaction <- WebhookService.processWebhook env ;;
     ret (success transaction))
    error_response.

Definition set_body (w : World) (v : JS.value) : World :=
  {| transactions := transactions w; audit_logs := audit_logs w;
     audit_writes := audit_writes w; console := console w; body := v |}.

Section WithCrypto.

Variable hmac_sha256_hex : string -> string -> string.

(** The singleton [signatureValidator] *)
Variable signatureValidator : SignatureValidator.t.

(** The [verifySignature] middleware. Neither verifier throws, so the catch
    block around them has nothing to catch. *)
Definition verifySignature (env : Env) (req : Request) : outcome :=
  match x_webhook_signature req with
  | None => Respond (unauthorized "Missing webhook signature")
  | Some signature =>
      if String.eqb signature "" then
        Respond (unauthorized "Missing webhook signature")
      else
        let isValid :=
          match x_webhook_timestamp req with
          | Some timestamp =>
              if String.eqb timestamp "" then
                SignatureValidator.verify hmac_sha256_hex signatureValidator
                  (rawBody req) signature
              else
                SignatureValidator.verifyWithTimestamp hmac_sha256_hex
                  signatureValidator (now env) (rawBody req) signature timestamp
                  SignatureValidator.DEFAULT_TOLERANCE
          | None =>
              SignatureValidator.verify hmac_sha256_hex signatureValidator
                (rawBody req) signature
          end in
        if negb isValid then Respond (unauthorized "Invalid webhook signature")
        else Next
  end.

(** POST /webhooks/payment, from the body middleware of app.ts to the
    response: the world the request leaves behind and what the caller gets.
    The handler catches every error of the service, so its own [inl] branch
    is never taken ([payment_handler_run]). *)
Definition post_payment (env : Env) (req : Request) (w : World) : Response * World :=
  match parsed req with
  | None => (invalid_json, w)
  | Some payload =>
      let w := set_body w payload in
      match verifySignature env req with
      | Respond res => (res, w)
      | Next =>
          match payment_handler env w with
          | (inr res, w') => (res, w')
          | (inl _, w') => (internal_error, w')
          end
      end
  end.

End WithCrypto.

End WebhookRoutes.

(** ** test-signature-generator.js *)

Module TestSignatureGenerator.

Section WithCrypto.

Variable hmac_sha256_hex : string -> string -> string.

(** [Math.floor(Date.now() / 1000).toString()], [Date.now()] being
    [now_ms], a time after the epoch. *)
Definition timestamp (now_ms : Z) : string := JS.decimal (now_ms / 1000).

(** The signature without timestamp: over the payload string alone. *)
Definition signature (WEBHOOK_SECRET payloadString : string) : string :=
  hmac_sha256_hex WEBHOOK_SECRET payloadString.

(** The signature with timestamp: over [`${timestamp}.${payloadString}`]. *)
Definition signatureWithTimestamp (WEBHOOK_SECRET : string) (now_ms : Z)
    (payloadString : string) : string :=
  let signedPayload := timestamp now_ms ++ "." ++ payloadString in
  hmac_sha256_hex WEBHOOK_SECRET signedPayload.

End WithCrypto.

End TestSignatureGenerator.

(** * The vocabulary of the properties

    What the statements below are written with: the pure functions a run of
    the service decomposes into, the rules of the validator as a list, the
    rows of the audit log, rounding to 2 decimal places, and sample
    requests. *)

Section Vocabulary.

Import Entities WebhookService TransactionValidator.

(** The steps of the try block of [processWebhook] up to the insert. *)
Definition attempt (env : Env) : M Transaction :=
  TransactionValidator.validate ;;
  payload <- read_body ;;
  eventId <- lift (get payload "event_id") ;;
  transactionId <- lift (TransactionValidator.get2 payload "data" "transaction_id") ;;
  checkDuplicate env eventId transactionId ;;
  amount <- lift (TransactionValidator.get2 payload "data" "amount") ;;
  let derivedFields :=
    TransactionCalculator.calculateDerivedFields (number_of amount) in
  transaction <- lift (new_transaction env payload derivedFields) ;;
  Repository.concurrent_commits env ;;
  Repository.save_transaction env transaction.

Definition nullish (v : JS.value) : bool :=
  match v with
  | JS.Undefined => true
  | JS.Null => true
  | _ => false
  end.

(** The row [logWebhookEvent] hands to the audit repository, as stored. *)
Definition audit_row (env : Env) (w : World) (status : string)
    (error : option error) : AuditLog :=
  {| log_id := Some (uuid env (audit_writes w));
     log_event_id := JS.get_opt (body w) "event_id";
     log_event_type := JS.get_opt (body w) "event_type";
     log_payload := body w;
     log_status := status;
     log_error_message := option_map message_of error;
     log_created_at := Some (db_timestamp env) |}.

(** The world after one call of [logWebhookEvent]. *)
Definition logged (env : Env) (status : string) (error : option error)
    (w : World) : World :=
  if nullish (body w) then
    snd (console_error
           ("Failed to log audit event: "
              ++ (if match body w with JS.Null => true | _ => false end
                  then "Cannot read properties of null (reading 'event_id')"
                  else "Cannot read properties of undefined (reading 'event_id')"))
           w)
  else if audit_fails env (audit_writes w) then
    snd (console_error
           "Failed to log audit event: insert into audit_logs failed"
           (Repository.set_audit_logs w (audit_logs w) (S (audit_writes w))))
  else
    Repository.set_audit_logs w
      (audit_logs w ++ [audit_row env w status error]) (S (audit_writes w)).

(** Two computations that do the same in every world. *)
Definition same {A} (m1 m2 : M A) : Prop := forall w, m1 w = m2 w.

(** What [validate] computes, as a function of the payload alone. *)
Definition checks (payload : JS.value) : result unit :=
  rbind (TransactionValidator.requiredFields payload) (fun entries =>
  rbind (TransactionValidator.first_missing entries) (fun _ =>
  rbind (TransactionValidator.get2 payload "data" "amount") (fun amount =>
  rbind (TransactionValidator.validateAmount amount) (fun _ =>
  rbind (TransactionValidator.get2 payload "data" "currency") (fun currency =>
  rbind (TransactionValidator.validateCurrency currency) (fun _ =>
  rbind (TransactionValidator.get2 payload "data" "status") (fun status =>
  rbind (TransactionValidator.validateStatus status) (fun _ =>
  rbind (TransactionValidator.get3 payload "data" "sender" "country") (fun sender_country =>
  rbind (TransactionValidator.get3 payload "data" "receiver" "country") (fun receiver_country =>
  rbind (TransactionValidator.validateCountryCodes [sender_country; receiver_country]) (fun _ =>
  rbind (TransactionValidator.get3 payload "data" "sender" "email") (fun sender_email =>
  rbind (TransactionValidator.validateEmail sender_email "sender.email") (fun _ =>
  rbind (TransactionValidator.get3 payload "data" "receiver" "email") (fun receiver_email =>
  TransactionValidator.validateEmail receiver_email "receiver.email")))))))))))))).

(** What [checkDuplicate] computes, as a function of the table. *)
Definition precheck (env : Env) (eventId transactionId : JS.value)
    (rows : list Transaction) : result unit :=
  if lookup_fails env then throw (QueryFailedError (OtherFailure "select failed"))
  else
    match find (Repository.has_event_id eventId) rows with
    | Some existing => throw (DuplicateTransactionError existing)
    | None =>
        match find (Repository.has_transaction_id transactionId) rows with
        | Some existing => throw (DuplicateTransactionError existing)
        | None => ok tt
        end
    end.

(** The record the try block is about to insert, or the error that stops it
    before the insert. *)
Definition planned (env : Env) (payload : JS.value) (rows : list Transaction)
  : result Transaction :=
  rbind (checks payload) (fun _ =>
  rbind (get payload "event_id") (fun eventId =>
  rbind (TransactionValidator.get2 payload "data" "transaction_id") (fun transactionId =>
  rbind (precheck env eventId transactionId rows) (fun _ =>
  rbind (TransactionValidator.get2 payload "data" "amount") (fun amount =>
  new_transaction env payload
    (TransactionCalculator.calculateDerivedFields (number_of amount))))))).

(** The table when the insert runs. *)
Definition table_at_insert (env : Env) (w : World) : list Transaction :=
  Repository.commit_all env (concurrent env) (transactions w).

(** The environment with another schedule of audit failures. *)
Definition with_audit_fails (env : Env) (fails : nat -> bool) : Env :=
  {| now := now env; new_Date := new_Date env; db_timestamp := db_timestamp env;
     uuid := uuid env; audit_fails := fails; lookup_fails := lookup_fails env;
     insert_fails := insert_fails env; concurrent := concurrent env |}.

(** The response the route handler's catch block picks for an error. *)
Definition response_for (e : error) : WebhookRoutes.Response :=
  match e with
  | DuplicateTransactionError existingTransaction =>
      WebhookRoutes.conflict existingTransaction
  | ValidationError field message => WebhookRoutes.bad_request message field
  | _ => WebhookRoutes.internal_error
  end.

Definition response_of (r : result Transaction) : WebhookRoutes.Response :=
  match r with
  | inr t => WebhookRoutes.success t
  | inl e => response_for e
  end.

(** The value at a dotted path of the payload, read with [?.] all along. *)
Definition at_path (payload : JS.value) (path : list string) : JS.value :=
  fold_left JS.get_opt path payload.

(** The required fields, each as the list of the names its dotted path is
    made of, in the order [validateRequired] checks them. *)
Definition required_paths : list (list string) :=
  [ ["event_id"];
    ["event_type"];
    ["data"; "transaction_id"];
    ["data"; "amount"];
    ["data"; "currency"];
    ["data"; "sender"; "id"];
    ["data"; "sender"; "name"];
    ["data"; "sender"; "email"];
    ["data"; "sender"; "country"];
    ["data"; "receiver"; "id"];
    ["data"; "receiver"; "name"];
    ["data"; "receiver"; "email"];
    ["data"; "receiver"; "country"];
    ["data"; "status"];
    ["data"; "payment_method"] ].

Definition required_entries (payload : JS.value) : list (string * JS.value) :=
  map (fun path => (String.concat "." path, at_path payload path)) required_paths.

(** The rules in the order [validate] applies them, each with the fields'
    values read off the payload: required fields, amount, currency, status,
    sender country, receiver country, sender email, receiver email. *)
Definition rule_results (payload : JS.value) : list (result unit) :=
  [ first_missing (required_entries payload);
    validateAmount (at_path payload ["data"; "amount"]);
    validateCurrency (at_path payload ["data"; "currency"]);
    validateStatus (at_path payload ["data"; "status"]);
    validateCountry (at_path payload ["data"; "sender"; "country"]) 0;
    validateCountry (at_path payload ["data"; "receiver"; "country"]) 1;
    validateEmail (at_path payload ["data"; "sender"; "email"]) "sender.email";
    validateEmail (at_path payload ["data"; "receiver"; "email"]) "receiver.email" ].

(** The field names the rules report under, rule by rule. *)
Definition rule_fields : list (list string) :=
  [ map (String.concat ".") required_paths;
    ["amount"];
    ["currency"];
    ["status"];
    ["country_0"];
    ["country_1"];
    ["sender.email"];
    ["receiver.email"] ].

(** The first failure of a list of results. *)
Fixpoint first_failure (results : list (result unit)) : result unit :=
  match results with
  | [] => ok tt
  | inl e :: _ => inl e
  | inr _ :: rest => first_failure rest
  end.

(** The audit rows a run writes when the store accepts them: the first on
    receipt, the second on the outcome. *)
Definition received_row (env : Env) (w : World) : AuditLog :=
  audit_row env w "received" None.

Definition terminal_row (env : Env) (w : World) (r : result Transaction)
  : AuditLog :=
  {| log_id := Some (uuid env (S (audit_writes w)));
     log_event_id := JS.get_opt (body w) "event_id";
     log_event_type := JS.get_opt (body w) "event_type";
     log_payload := body w;
     log_status := match r with inr _ => "processed" | inl _ => "failed" end;
     log_error_message :=
       match r with inr _ => None | inl e => Some (message_of e) end;
     log_created_at := Some (db_timestamp env) |}.

Definition accepted {A} (fails : bool) (row : A) : list A :=
  if fails then [] else [row].

(** Errors thrown before the insert is reached: anything but a uniqueness
    violation. *)
Definition thrown_before_insert (e : error) : Prop :=
  match e with
  | QueryFailedError (UniqueViolation _) => False
  | _ => True
  end.

(** Every character of [s] satisfies [p]. *)
Fixpoint every (p : ascii -> bool) (s : string) : bool :=
  match s with
  | EmptyString => true
  | String c rest => p c && every p rest
  end.

Definition not_dot (c : ascii) : bool := negb (Ascii.eqb c ".").

(** The number of digits after the decimal point of the value a decimal view
    stands for, [0.d1...dk * 10^n]. *)
Definition fraction_digits (d : JS.decimal_view) : Z :=
  Z.max 0 (JS.slen (JS.digits d) - JS.point d).

(** Rounding to 2 decimal places, stated on its own and not through
    [toFixed]. [c] is the integer nearest to [m * 2^e * 100], the larger one
    on a tie: [c - 1/2 <= m * 2^e * 100 < c + 1/2], cleared of fractions. *)
Definition is_nearest_hundredth (m e c : Z) : Prop :=
  let num := m * 2 ^ Z.max e 0 * 100 in
  let den := 2 ^ Z.max (- e) 0 in
  (2 * c - 1) * den <= 2 * num < (2 * c + 1) * den.

(** [y] is [x] rounded to 2 decimal places: the double nearest to [c / 100]
    for the [c] hundredths nearest to [|x|], with the sign of [x]; a zero
    rounds to 0 and what is not finite to itself. *)
Definition rounds_to_2dp (x y : float) : Prop :=
  match Prim2SF x with
  | S754_finite s m e =>
      exists c, is_nearest_hundredth (Zpos m) e c
                /\ y = JS.decimal_to_double s c (-2)
  | S754_zero _ => y = 0%float
  | _ => y = x
  end.

(** The strings a regular expression denotes. *)
Inductive matches : JS.regex -> string -> Prop :=
| matches_eps : matches JS.Eps ""
| matches_class (p : ascii -> bool) (c : ascii) :
    p c = true -> matches (JS.Class p) (String c "")
| matches_cat (r1 r2 : JS.regex) (s1 s2 : string) :
    matches r1 s1 -> matches r2 s2 -> matches (JS.Cat r1 r2) (s1 ++ s2)
| matches_alt_l (r1 r2 : JS.regex) (s : string) :
    matches r1 s -> matches (JS.Alt r1 r2) s
| matches_alt_r (r1 r2 : JS.regex) (s : string) :
    matches r2 s -> matches (JS.Alt r1 r2) s
| matches_star_nil (r : JS.regex) : matches (JS.Star r) ""
| matches_star_cons (r : JS.regex) (s1 s2 : string) :
    matches r s1 -> matches (JS.Star r) s2 -> matches (JS.Star r) (s1 ++ s2).

Definition is_letter (c : ascii) : bool := JS.is_upper c || JS.is_lower c.

(** A non-empty run of characters that are neither white space nor [@]:
    what [[^\s@]+] matches. *)
Definition is_word (s : string) : Prop :=
  s <> "" /\ every not_space_or_at s = true.

(** The shape [local@domain.tld] of an email address. *)
Definition is_email (s : string) : Prop :=
  exists local domain tld,
    s = local ++ "@" ++ domain ++ "." ++ tld
    /\ is_word local /\ is_word domain /\ is_word tld.

(** The strings the embedding stands for: code points below 128. *)
Definition is_ascii (c : ascii) : bool := (N_of_ascii c <? 128)%N.

(** A country code as the validator lets it through: a string of two
    letters, capital or small. *)
Definition is_country_code (v : JS.value) : Prop :=
  exists a b,
    v = JS.Str (String a (String b ""))
    /\ is_letter a = true /\ is_letter b = true.

(** The two UNIQUE columns, as the table keeps them: no row repeats the
    [event_id] or the [transaction_id] of a row before it. *)
Definition keys_unique (rows : list Transaction) : Prop :=
  forall before row after,
    rows = (before ++ row :: after)%list ->
    existsb (Repository.has_event_id (event_id row)) before = false
    /\ existsb (Repository.has_transaction_id (transaction_id row)) before = false.

End Vocabulary.

(** ** Sample requests *)

Module Sample.

Import Entities.

Definition party (id name email country : string) : JS.value :=
  JS.Obj [ ("id", JS.Str id); ("name", JS.Str name);
           ("email", JS.Str email); ("country", JS.Str country) ].

(** The payload of the repository's test script, with the amount, the
    currency and the sender's country left open. *)
Definition payload (amount : JS.value) (currency sender_country : string)
  : JS.value :=
  JS.Obj
    [ ("event_id", JS.Str "evt_8f7d6e5c4b3a2");
      ("event_type", JS.Str "transaction.completed");
      ("timestamp", JS.Str "2025-10-28T14:30:00Z");
      ("data",
       JS.Obj
         [ ("transaction_id", JS.Str "txn_1a2b3c4d5e6f");
           ("amount", amount);
           ("currency", JS.Str currency);
           ("sender",
            party "usr_sender_12345" "Alice Johnson" "alice.j@example.com"
              sender_country);
           ("receiver",
            party "usr_receiver_67890" "Raj Patel" "raj.p@example.in" "IN");
           ("status", JS.Str "completed");
           ("payment_method", JS.Str "bank_transfer") ]) ].

Definition good_payload : JS.value := payload (JS.Num 2500.75%float) "usd" "us".

Definition empty_world : World :=
  {| transactions := []; audit_logs := []; audit_writes := 0;
     console := []; body := JS.Undefined |}.

Definition world_of (payload : JS.value) : World :=
  WebhookRoutes.set_body empty_world payload.

Definition env : Env :=
  {| now := 1761661800000;
     new_Date := 1761661800120;
     db_timestamp := 1761661800125;
     uuid := fun n => "row-" ++ JS.decimal (Z.of_nat n);
     audit_fails := fun _ => false;
     lookup_fails := false;
     insert_fails := false;
     concurrent := [] |}.

(** A row another delivery of the same event commits first. *)
Definition other_delivery : Transaction :=
  {| id := None;
     event_id := JS.Str "evt_8f7d6e5c4b3a2";
     transaction_id := JS.Str "txn_1a2b3c4d5e6f";
     amount := JS.Num 2500.75%float;
     currency := "USD";
     sender_id := JS.Str "usr_sender_12345";
     sender_name := JS.Str "Alice Johnson";
     sender_country := "US";
     receiver_id := JS.Str "usr_receiver_67890";
     receiver_name := JS.Str "Raj Patel";
     receiver_country := "IN";
     status := JS.Str "completed";
     payment_method := JS.Str "bank_transfer";
     processing_fee := Some 50.02%float;
     net_amount := Some 2450.73%float;
     exchange_rate := None;
     metadata := JS.Undefined;
     processed_at := Some 1761661800110;
     created_at := None;
     updated_at := None |}.

(** The same environment, the other delivery committing between this
    request's lookups and its insert. *)
Definition racing_env : Env :=
  {| now := now env; new_Date := new_Date env; db_timestamp := db_timestamp env;
     uuid := uuid env; audit_fails := audit_fails env;
     lookup_fails := false; insert_fails := false;
     concurrent := [other_delivery] |}.

(** A stand-in for HMAC-SHA256 in the examples; the theorems hold for any
    function in its place. *)
Definition keyed_digest (key data : string) : string := key ++ "/" ++ data.

Definition validator : SignatureValidator.t :=
  {| SignatureValidator.secret := "abcd12345" |}.

Definition raw : string := "{...}".

Definition request (signature timestamp : option string) (payload : JS.value)
  : WebhookRoutes.Request :=
  {| WebhookRoutes.x_webhook_signature := signature;
     WebhookRoutes.x_webhook_timestamp := timestamp;
     WebhookRoutes.rawBody := raw;
     WebhookRoutes.parsed := Some payload |}.

Definition signed_request (payload : JS.value) : WebhookRoutes.Request :=
  request (Some (keyed_digest "abcd12345" ("1761661800." ++ raw)))
    (Some "1761661800") payload.

(** The first delivery of the sample payload, run: what it returns and the
    world it leaves. *)
Definition stored_by_first_delivery : Transaction * World :=
  match WebhookService.processWebhook env (world_of good_payload) with
  | (inr t, w) => (t, w)
  | (inl _, w) => (other_delivery, w)
  end.

End Sample.

(** * Properties *)

(** ** Signature verification *)

Section SignatureFacts.

Import SignatureValidator.

Variable hmac_sha256_hex : string -> string -> string.

Lemma xor_fold_acc (a b : string) (acc : N) :
  xor_fold a b acc = 0%N -> acc = 0%N.
Proof.
  revert b acc; induction a as [|x a IH]; intros [|y b] acc; simpl; auto.
  intros H. apply IH in H. apply N.lor_eq_0_iff in H. tauto.
Qed.

Lemma xor_fold_zero (a b : string) :
  String.length a = String.length b ->
  xor_fold a b 0%N = 0%N <-> a = b.
Proof.
  revert b; induction a as [|x a IH]; intros [|y b]; simpl; try discriminate.
  - tauto.
  - intros Hlen. injection Hlen as Hlen. split.
    + intros H. pose proof (xor_fold_acc _ _ _ H) as Hxy.
      rewrite Hxy in H. apply (IH b Hlen) in H. subst b.
      apply N.lxor_eq in Hxy.
      f_equal. rewrite <- (ascii_N_embedding x), <- (ascii_N_embedding y).
      now rewrite Hxy.
    + intros [= -> ->]. rewrite N.lxor_nilpotent. simpl. now apply IH.
Qed.

Lemma timingSafeEqual_same (a : string) : timingSafeEqual a a = ok true.
Proof.
  unfold timingSafeEqual. rewrite Nat.eqb_refl.
  now rewrite (proj2 (xor_fold_zero a a eq_refl) eq_refl).
Qed.

Lemma timingSafeEqual_true (a b : string) :
  timingSafeEqual a b = ok true <-> a = b.
Proof.
  split; [|intros ->; apply timingSafeEqual_same].
  unfold timingSafeEqual.
  destruct (Nat.eqb (String.length a) (String.length b)) eqn:Hlen; [|discriminate].
  apply Nat.eqb_eq in Hlen. intros [= H].
  apply N.eqb_eq in H. now apply xor_fold_zero.
Qed.

Lemma timingSafeEqual_throws (a b : string) :
  String.length a <> String.length b ->
  timingSafeEqual a b
  = throw (RangeError "Input buffers must have the same byte length").
Proof.
  intros H. unfold timingSafeEqual.
  now rewrite (proj2 (Nat.eqb_neq _ _) H).
Qed.

Lemma verify_true_iff (this : t) (payload receivedSignature : string) :
  verify hmac_sha256_hex this payload receivedSignature = true
  <-> receivedSignature = hmac_sha256_hex (secret this) payload.
Proof.
  unfold verify. rewrite <- timingSafeEqual_true.
  destruct (timingSafeEqual _ _) as [e|[|]]; unfold ok;
    split; congruence.
Qed.

Lemma verify_is_eqb (this : t) (payload receivedSignature : string) :
  verify hmac_sha256_hex this payload receivedSignature
  = String.eqb receivedSignature (hmac_sha256_hex (secret this) payload).
Proof.
  destruct (String.eqb receivedSignature _) eqn:E.
  - apply String.eqb_eq in E. now apply verify_true_iff.
  - apply String.eqb_neq in E.
    destruct (verify _ _ _ receivedSignature) eqn:V; [|reflexivity].
    apply verify_true_iff in V. contradiction.
Qed.

(** C6. [verify] accepts the HMAC-SHA256 hex digest of the body under the
    secret and nothing else: it returns [true] on that signature, [false] on
    every other one (one that differs in a byte, one of another length, the
    digest of another body unless the two digests coincide), and where the
    constant-time comparison throws, on a length mismatch, the catch block
    answers [false]: [verify] has no way to raise. *)
Theorem verify_accepts_exactly_the_hmac (this : t) (payload : string) :
  verify hmac_sha256_hex this payload (hmac_sha256_hex (secret this) payload) = true
  /\ (forall receivedSignature,
        verify hmac_sha256_hex this payload receivedSignature
        = String.eqb receivedSignature (hmac_sha256_hex (secret this) payload))
  /\ (forall otherPayload,
        verify hmac_sha256_hex this otherPayload
          (hmac_sha256_hex (secret this) payload) = true
        <-> hmac_sha256_hex (secret this) payload
            = hmac_sha256_hex (secret this) otherPayload)
  /\ (forall receivedSignature e,
        timingSafeEqual receivedSignature
          (hmac_sha256_hex (secret this) payload) = inl e ->
        String.length receivedSignature
          <> String.length (hmac_sha256_hex (secret this) payload)
        /\ verify hmac_sha256_hex this payload receivedSignature = false).
Proof.
  split; [|split; [|split]].
  - now apply verify_true_iff.
  - intros sig. apply verify_is_eqb.
  - intros other. now rewrite verify_true_iff.
  - intros sig e H. unfold verify. rewrite H. split; [|reflexivity].
    unfold timingSafeEqual in H.
    destruct (Nat.eqb _ _) eqn:Hlen; [discriminate|].
    now apply Nat.eqb_neq.
Qed.

(** C5. [verifyWithTimestamp] fails closed on a timestamp [parseInt] makes
    nothing of, and on one further than the tolerance from the current time
    in either direction, whatever the signature, the correct one included;
    within the tolerance its answer is that of [verify] on
    "<timestamp>.<payload>". The tolerance the route leaves out is 300. *)
Theorem verifyWithTimestamp_window (this : t) (now_ms : Z)
    (payload receivedSignature timestamp : string) (toleranceSeconds : Z) :
  (JS.parseInt timestamp = None ->
   verifyWithTimestamp hmac_sha256_hex this now_ms payload receivedSignature
     timestamp toleranceSeconds = false)
  /\ (forall payloadTime,
        JS.parseInt timestamp = Some payloadTime ->
        toleranceSeconds < Z.abs (now_ms / 1000 - payloadTime) ->
        verifyWithTimestamp hmac_sha256_hex this now_ms payload
          (hmac_sha256_hex (secret this) (timestamp ++ "." ++ payload))
          timestamp toleranceSeconds = false
        /\ verifyWithTimestamp hmac_sha256_hex this now_ms payload
             receivedSignature timestamp toleranceSeconds = false)
  /\ (forall payloadTime,
        JS.parseInt timestamp = Some payloadTime ->
        Z.abs (now_ms / 1000 - payloadTime) <= toleranceSeconds ->
        verifyWithTimestamp hmac_sha256_hex this now_ms payload
          receivedSignature timestamp toleranceSeconds
        = String.eqb receivedSignature
            (hmac_sha256_hex (secret this) (timestamp ++ "." ++ payload)))
  /\ DEFAULT_TOLERANCE = 300.
Proof.
  unfold verifyWithTimestamp.
  split; [|split; [|split]].
  - now intros ->.
  - intros t -> Hfar.
    apply Z.ltb_lt in Hfar. now rewrite Hfar.
  - intros t -> Hnear.
    apply Z.ltb_ge in Hnear. rewrite Hnear.
    apply verify_is_eqb.
  - reflexivity.
Qed.

End SignatureFacts.

(** ** The service: how a run decomposes *)

Section PipelineFacts.

Import Entities WebhookService.

Lemma get_not_nullish (v : JS.value) (k : string) :
  nullish v = false -> get v k = ok (JS.get_opt v k).
Proof. now destruct v. Qed.

Lemma logWebhookEvent_run (env : Env) (status : string)
    (error : option error) (w : World) :
  logWebhookEvent env status error w = (inr tt, logged env status error w).
Proof.
  unfold logWebhookEvent, logged, try_catch, bind, read_body, lift.
  destruct (nullish (body w)) eqn:Hn.
  - destruct (body w); try discriminate; reflexivity.
  - cbv beta iota. unfold ok at 1. cbv beta iota.
    rewrite !(get_not_nullish _ _ Hn). unfold ok at 1 2. cbv beta iota.
    unfold Repository.save_audit, audit_row, ret, ok.
    destruct (audit_fails env (audit_writes w)); reflexivity.
Qed.

Lemma logged_frame (env : Env) (status : string) (error : option error)
    (w : World) :
  transactions (logged env status error w) = transactions w
  /\ body (logged env status error w) = body w.
Proof.
  unfold logged.
  destruct (nullish (body w)); [now cbn|].
  destruct (audit_fails env (audit_writes w)); now cbn.
Qed.

Lemma bind_run {A B} (m : M A) (k : A -> M B) (w : World) :
  bind m k w
  = match m w with
    | (inr a, w') => k a w'
    | (inl e, w') => (inl e, w')
    end.
Proof. reflexivity. Qed.

Lemma same_refl {A} (m : M A) : same m m.
Proof. now intros w. Qed.

Lemma same_trans {A} (m1 m2 m3 : M A) : same m1 m2 -> same m2 m3 -> same m1 m3.
Proof. intros H1 H2 w. now rewrite H1. Qed.

Lemma bind_assoc {A B C} (m : M A) (f : A -> M B) (g : B -> M C) :
  same (bind (bind m f) g) (bind m (fun a => bind (f a) g)).
Proof. intros w. unfold bind. now destruct (m w) as [[e|a] w']. Qed.

Lemma bind_same {A B} (m : M A) (k1 k2 : A -> M B) :
  (forall a, same (k1 a) (k2 a)) -> same (bind m k1) (bind m k2).
Proof.
  intros H w. unfold bind. destruct (m w) as [[e|a] w']; [reflexivity|apply H].
Qed.

Lemma try_catch_same {A} (m1 m2 : M A) (h : error -> M A) :
  same m1 m2 -> same (try_catch m1 h) (try_catch m2 h).
Proof. intros H w. unfold try_catch. now rewrite H. Qed.

(** The try block is [attempt] followed by the audit write of the success. *)
Lemma try_block_is_attempt_then_log (env : Env) :
  same
    (saved <- attempt env ;; logWebhookEvent env "processed" None ;; ret saved)
    (TransactionValidator.validate ;;
     payload <- read_body ;;
     eventId <- lift (get payload "event_id") ;;
     transactionId <- lift (TransactionValidator.get2 payload "data" "transaction_id") ;;
     checkDuplicate env eventId transactionId ;;
     amount <- lift (TransactionValidator.get2 payload "data" "amount") ;;
     let derivedFields :=
       TransactionCalculator.calculateDerivedFields (number_of amount) in
     transaction <- lift (new_transaction env payload derivedFields) ;;
     Repository.concurrent_commits env ;;
     savedTransaction <- Repository.save_transaction env transaction ;;
     logWebhookEvent env "processed" None ;;
     ret savedTransaction).
Proof.
  unfold attempt.
  repeat (eapply same_trans; [apply bind_assoc|]; apply bind_same; intros ?).
  apply same_refl.
Qed.

Lemma failed_handler {A} (env : Env) (e : error) (w : World) :
  (logWebhookEvent env "failed" (Some e) ;; @raise A e) w
  = (inl e, logged env "failed" (Some e) w).
Proof. rewrite bind_run, logWebhookEvent_run. reflexivity. Qed.

Lemma processWebhook_run (env : Env) (w : World) :
  processWebhook env w
  = match attempt env (logged env "received" None w) with
    | (inr t, w2) => (inr t, logged env "processed" None w2)
    | (inl e, w2) => (inl e, logged env "failed" (Some e) w2)
    end.
Proof.
  unfold processWebhook.
  rewrite bind_run, logWebhookEvent_run.
  rewrite <- (try_catch_same _ _ _ (try_block_is_attempt_then_log env)).
  unfold try_catch. rewrite bind_run.
  destruct (attempt env _) as [[e|t] w2]; [apply failed_handler|].
  rewrite bind_run, logWebhookEvent_run. reflexivity.
Qed.

Lemma lift_run {A} (r : result A) (w : World) : lift r w = (r, w).
Proof. reflexivity. Qed.

Lemma validate_run (w : World) :
  TransactionValidator.validate w = (checks (body w), w).
Proof.
  unfold TransactionValidator.validate, TransactionValidator.validateRequired, checks.
  repeat
    (rewrite ?bind_run, ?lift_run; cbn [read_body ok rbind];
     match goal with
     | |- context [rbind ?r _] => destruct r as [?e|?a]; cbn [rbind]
     end;
     [reflexivity|]).
  reflexivity.
Qed.

Lemma checkDuplicate_run (env : Env) (eventId transactionId : JS.value)
    (w : World) :
  checkDuplicate env eventId transactionId w
  = (precheck env eventId transactionId (transactions w), w).
Proof.
  unfold checkDuplicate, precheck, bind, Repository.findOne_by_event_id,
    Repository.findOne_by_transaction_id.
  destruct (lookup_fails env); [reflexivity|].
  cbn [ok]. destruct (find _ _); [reflexivity|].
  now destruct (find _ _).
Qed.

Lemma attempt_run (env : Env) (w : World) :
  attempt env w
  = match planned env (body w) (transactions w) with
    | inl e => (inl e, w)
    | inr transaction =>
        match Repository.insert env transaction (table_at_insert env w) with
        | inl e =>
            (inl e, Repository.set_transactions w (table_at_insert env w))
        | inr row =>
            (inr row,
             Repository.set_transactions w (table_at_insert env w ++ [row]))
        end
    end.
Proof.
  unfold attempt, planned.
  rewrite bind_run, validate_run.
  destruct (checks (body w)) as [e|[]]; cbn [rbind]; [reflexivity|].
  rewrite bind_run. cbn [read_body ok].
  rewrite bind_run, lift_run.
  destruct (get (body w) "event_id") as [e|eventId]; cbn [rbind]; [reflexivity|].
  rewrite bind_run, lift_run.
  destruct (TransactionValidator.get2 _ _ "transaction_id") as [e|transactionId];
    cbn [rbind]; [reflexivity|].
  rewrite bind_run, checkDuplicate_run.
  destruct (precheck _ _ _ _) as [e|[]]; cbn [rbind]; [reflexivity|].
  rewrite bind_run, lift_run.
  destruct (TransactionValidator.get2 _ _ "amount") as [e|amount];
    cbn [rbind]; [reflexivity|].
  rewrite bind_run, lift_run.
  destruct (new_transaction _ _ _) as [e|transaction]; [reflexivity|].
  rewrite bind_run. unfold Repository.concurrent_commits, ok.
  unfold Repository.save_transaction, table_at_insert.
  cbn [transactions Repository.set_transactions].
  now destruct (Repository.insert _ _ _).
Qed.

Lemma attempt_frame (env : Env) (w : World) :
  audit_logs (snd (attempt env w)) = audit_logs w
  /\ audit_writes (snd (attempt env w)) = audit_writes w
  /\ console (snd (attempt env w)) = console w
  /\ body (snd (attempt env w)) = body w.
Proof.
  rewrite attempt_run.
  destruct (planned _ _ _) as [e|transaction]; [now cbn|].
  destruct (Repository.insert _ _ _); now cbn.
Qed.

Lemma commit_all_audit_fails (env : Env) (fails : nat -> bool)
    (others rows : list Transaction) :
  Repository.commit_all (with_audit_fails env fails) others rows
  = Repository.commit_all env others rows.
Proof.
  revert rows; induction others as [|t rest IH]; intros rows; [reflexivity|].
  cbn [Repository.commit_all].
  change (Repository.insert (with_audit_fails env fails) t rows)
    with (Repository.insert env t rows).
  destruct (Repository.insert env t rows); apply IH.
Qed.

(** The result of the try block and the table it leaves depend on the body
    and on the table only, and not on the schedule of audit failures. *)
Lemma attempt_audit_fails (env : Env) (fails : nat -> bool) (w1 w2 : World) :
  body w1 = body w2 ->
  transactions w1 = transactions w2 ->
  fst (attempt (with_audit_fails env fails) w1) = fst (attempt env w2)
  /\ transactions (snd (attempt (with_audit_fails env fails) w1))
     = transactions (snd (attempt env w2)).
Proof.
  intros Hb Ht. rewrite !attempt_run.
  unfold table_at_insert. rewrite Hb, Ht.
  change (concurrent (with_audit_fails env fails)) with (concurrent env).
  rewrite commit_all_audit_fails.
  change (planned (with_audit_fails env fails)) with (planned env).
  destruct (planned env _ _) as [e|transaction]; [now cbn|].
  change (Repository.insert (with_audit_fails env fails))
    with (Repository.insert env).
  destruct (Repository.insert env _ _); now cbn.
Qed.

Lemma processWebhook_audit_fails (env : Env) (fails : nat -> bool) (w : World) :
  fst (processWebhook (with_audit_fails env fails) w) = fst (processWebhook env w)
  /\ transactions (snd (processWebhook (with_audit_fails env fails) w))
     = transactions (snd (processWebhook env w)).
Proof.
  rewrite !processWebhook_run.
  set (w1 := logged (with_audit_fails env fails) "received" None w).
  set (w2 := logged env "received" None w).
  destruct (attempt_audit_fails env fails w1 w2) as [Hr Ht].
  - unfold w1, w2.
    now rewrite (proj2 (logged_frame _ _ _ _)), (proj2 (logged_frame _ _ _ _)).
  - unfold w1, w2.
    now rewrite (proj1 (logged_frame _ _ _ _)), (proj1 (logged_frame _ _ _ _)).
  - destruct (attempt (with_audit_fails env fails) w1) as [[e|t] w3];
      destruct (attempt env w2) as [[e'|t'] w4];
      cbn [fst snd] in *; try discriminate;
      rewrite !(proj1 (logged_frame _ _ _ _)); auto.
Qed.

Lemma error_response_run (e : error) (w : World) :
  fst (WebhookRoutes.error_response e w) = inr (response_for e)
  /\ transactions (snd (WebhookRoutes.error_response e w)) = transactions w
  /\ audit_logs (snd (WebhookRoutes.error_response e w)) = audit_logs w
  /\ audit_writes (snd (WebhookRoutes.error_response e w)) = audit_writes w
  /\ body (snd (WebhookRoutes.error_response e w)) = body w.
Proof. destruct e; cbn; auto. Qed.

Lemma payment_handler_run (env : Env) (w : World) :
  fst (WebhookRoutes.payment_handler env w)
  = inr (response_of (fst (processWebhook env w)))
  /\ transactions (snd (WebhookRoutes.payment_handler env w))
     = transactions (snd (processWebhook env w))
  /\ audit_logs (snd (WebhookRoutes.payment_handler env w))
     = audit_logs (snd (processWebhook env w))
  /\ audit_writes (snd (WebhookRoutes.payment_handler env w))
     = audit_writes (snd (processWebhook env w))
  /\ body (snd (WebhookRoutes.payment_handler env w))
     = body (snd (processWebhook env w)).
Proof.
  unfold WebhookRoutes.payment_handler, try_catch. rewrite bind_run.
  destruct (processWebhook env w) as [[e|t] w']; cbn [fst snd response_of].
  - apply error_response_run.
  - cbn. auto.
Qed.

(** What the caller gets from a request that reached the handler. *)
Lemma post_payment_response
    (hmac : string -> string -> string) (validator : SignatureValidator.t)
    (env : Env) (req : WebhookRoutes.Request) (w : World) :
  fst (WebhookRoutes.post_payment hmac validator env req w)
  = match WebhookRoutes.parsed req with
    | None => WebhookRoutes.invalid_json
    | Some payload =>
        match WebhookRoutes.verifySignature hmac validator env req with
        | WebhookRoutes.Respond res => res
        | WebhookRoutes.Next =>
            response_of
              (fst (processWebhook env (WebhookRoutes.set_body w payload)))
        end
    end.
Proof.
  unfold WebhookRoutes.post_payment.
  destruct (WebhookRoutes.parsed req) as [payload|]; [|reflexivity].
  destruct (WebhookRoutes.verifySignature _ _ _ _); [reflexivity|].
  pose proof (payment_handler_run env (WebhookRoutes.set_body w payload)) as [H _].
  destruct (WebhookRoutes.payment_handler _ _) as [[e|res] w'];
    cbn [fst] in *; congruence.
Qed.

(** C9. Writing an audit entry never raises: whatever goes wrong inside
    [logWebhookEvent] is caught and written to the console, and neither table
    row nor body is touched by the failure. So the schedule of audit-write
    failures changes neither what [processWebhook] returns or throws, nor the
    transactions table, nor the response the caller gets. *)
Theorem audit_failure_is_swallowed (env : Env) (fails : nat -> bool) (w : World) :
  (forall status error,
      fst (logWebhookEvent env status error w) = inr tt
      /\ transactions (snd (logWebhookEvent env status error w)) = transactions w
      /\ (nullish (body w) = false ->
          audit_fails env (audit_writes w) = true ->
          audit_logs (snd (logWebhookEvent env status error w)) = audit_logs w
          /\ console (snd (logWebhookEvent env status error w))
             = (console w
                  ++ ["Failed to log audit event: insert into audit_logs failed"])%list))
  /\ fst (processWebhook (with_audit_fails env fails) w) = fst (processWebhook env w)
  /\ transactions (snd (processWebhook (with_audit_fails env fails) w))
     = transactions (snd (processWebhook env w))
  /\ (forall hmac validator req,
        fst (WebhookRoutes.post_payment hmac validator
               (with_audit_fails env fails) req w)
        = fst (WebhookRoutes.post_payment hmac validator env req w)).
Proof.
  split; [|split; [|split]].
  - intros status error. rewrite logWebhookEvent_run. cbn [fst snd].
    split; [reflexivity|]. split; [apply logged_frame|].
    intros Hn Hf. unfold logged. rewrite Hn, Hf. now cbn.
  - apply processWebhook_audit_fails.
  - apply processWebhook_audit_fails.
  - intros hmac validator req. rewrite !post_payment_response.
    destruct (WebhookRoutes.parsed req) as [payload|]; [|reflexivity].
    change (WebhookRoutes.verifySignature hmac validator
              (with_audit_fails env fails) req)
      with (WebhookRoutes.verifySignature hmac validator env req).
    destruct (WebhookRoutes.verifySignature _ _ _ _); [reflexivity|].
    now rewrite (proj1 (processWebhook_audit_fails env fails _)).
Qed.

Lemma rbind_ok {A B} (r : result A) (k : A -> result B) (b : B) :
  rbind r k = ok b -> exists a, r = ok a /\ k a = ok b.
Proof. destruct r as [e|a]; [discriminate|]. intros H. now exists a. Qed.

Lemma call_toUpperCase_ok (v : JS.value) (u : string) :
  call_toUpperCase v = ok u -> exists s, v = JS.Str s /\ u = JS.toUpperCase s.
Proof. destruct v; try discriminate. intros [= <-]. now exists s. Qed.

(** What [new_transaction] puts in the record. *)
Lemma new_transaction_fields (env : Env) (payload : JS.value)
    (derived : TransactionCalculator.DerivedFields) (t : Transaction) :
  new_transaction env payload derived = ok t ->
  exists cur sc rc,
    TransactionValidator.get2 payload "data" "currency" = ok (JS.Str cur)
    /\ TransactionValidator.get3 payload "data" "sender" "country" = ok (JS.Str sc)
    /\ TransactionValidator.get3 payload "data" "receiver" "country" = ok (JS.Str rc)
    /\ currency t = JS.toUpperCase cur
    /\ sender_country t = JS.toUpperCase sc
    /\ receiver_country t = JS.toUpperCase rc
    /\ get payload "event_id" = ok (event_id t)
    /\ TransactionValidator.get2 payload "data" "transaction_id" = ok (transaction_id t)
    /\ processing_fee t = Some (TransactionCalculator.processing_fee derived)
    /\ net_amount t = Some (TransactionCalculator.net_amount derived)
    /\ processed_at t = Some (new_Date env)
    /\ exchange_rate t = None.
Proof.
  unfold new_transaction. intros H.
  repeat
    match type of H with
    | rbind (rbind _ call_toUpperCase) _ = ok _ =>
        let u := fresh "u" in let Hu := fresh "Hu" in
        let v := fresh "v" in let Hv := fresh "Hv" in
        let x := fresh "s" in
        apply rbind_ok in H; destruct H as [u [Hu H]];
        apply rbind_ok in Hu; destruct Hu as [v [Hv Hu]];
        apply call_toUpperCase_ok in Hu; destruct Hu as [x [-> ->]]
    | rbind _ _ = ok _ =>
        let a := fresh "a" in let Ha := fresh "Ha" in
        apply rbind_ok in H; destruct H as [a [Ha H]]
    end.
  injection H as <-. cbn.
  eexists; eexists; eexists. repeat split; eassumption.
Qed.

(** The INSERT stores the record as it is handed over. *)
Lemma insert_fields (env : Env) (t row : Transaction) (rows : list Transaction) :
  Repository.insert env t rows = ok row ->
  currency row = currency t
  /\ sender_country row = sender_country t
  /\ receiver_country row = receiver_country t
  /\ event_id row = event_id t
  /\ transaction_id row = transaction_id t
  /\ processing_fee row = processing_fee t
  /\ net_amount row = net_amount t
  /\ processed_at row = processed_at t
  /\ exchange_rate row = exchange_rate t
  /\ existsb (Repository.has_event_id (event_id t)) rows = false
  /\ existsb (Repository.has_transaction_id (transaction_id t)) rows = false.
Proof.
  unfold Repository.insert.
  destruct (existsb (Repository.has_event_id _) rows); [discriminate|].
  destruct (existsb (Repository.has_transaction_id _) rows); [discriminate|].
  destruct (insert_fails env); [discriminate|].
  intros [= <-]. cbn. repeat split.
Qed.

Lemma toUpperCase_idempotent (s : string) :
  JS.toUpperCase (JS.toUpperCase s) = JS.toUpperCase s.
Proof.
  induction s as [|c s IH]; [reflexivity|].
  cbn [JS.toUpperCase]. rewrite IH. f_equal.
  unfold JS.upper_char.
  destruct (JS.is_lower c) eqn:Hc; [|now rewrite Hc].
  destruct c as [[|] [|] [|] [|] [|] [|] [|] [|]]; try discriminate Hc; reflexivity.
Qed.

(** A validated payload, taken apart. *)
Lemma checks_ok (payload : JS.value) :
  checks payload = ok tt ->
  exists entries amount currency status sc rc se re,
    TransactionValidator.requiredFields payload = ok entries
    /\ TransactionValidator.first_missing entries = ok tt
    /\ TransactionValidator.get2 payload "data" "amount" = ok amount
    /\ TransactionValidator.validateAmount amount = ok tt
    /\ TransactionValidator.get2 payload "data" "currency" = ok currency
    /\ TransactionValidator.validateCurrency currency = ok tt
    /\ TransactionValidator.get2 payload "data" "status" = ok status
    /\ TransactionValidator.validateStatus status = ok tt
    /\ TransactionValidator.get3 payload "data" "sender" "country" = ok sc
    /\ TransactionValidator.get3 payload "data" "receiver" "country" = ok rc
    /\ TransactionValidator.validateCountryCodes [sc; rc] = ok tt
    /\ TransactionValidator.get3 payload "data" "sender" "email" = ok se
    /\ TransactionValidator.validateEmail se "sender.email" = ok tt
    /\ TransactionValidator.get3 payload "data" "receiver" "email" = ok re
    /\ TransactionValidator.validateEmail re "receiver.email" = ok tt.
Proof.
  unfold checks. intros H.
  repeat
    match type of H with
    | rbind _ _ = ok _ =>
        let a := fresh "a" in let Ha := fresh "Ha" in
        apply rbind_ok in H; destruct H as [a [Ha H]]
    end.
  repeat match goal with u : unit |- _ => destruct u end.
  do 8 eexists. repeat split; eassumption.
Qed.

Lemma validateCurrency_ok (v : JS.value) :
  TransactionValidator.validateCurrency v = ok tt ->
  exists s, v = JS.Str s
    /\ JS.includes TransactionValidator.VALID_CURRENCIES (JS.toUpperCase s) = true.
Proof.
  destruct v; try discriminate. unfold TransactionValidator.validateCurrency.
  destruct (negb (JS.truthy _)); [discriminate|].
  destruct (JS.includes _ _) eqn:H; [|discriminate].
  intros _. now exists s.
Qed.

Lemma validateCountry_ok (v : JS.value) (index : Z) :
  TransactionValidator.validateCountry v index = ok tt ->
  exists s, v = JS.Str s
    /\ JS.test TransactionValidator.iso2Regex (JS.toUpperCase s) = true.
Proof.
  destruct v; try discriminate. unfold TransactionValidator.validateCountry.
  destruct (negb (JS.truthy _)); [discriminate|].
  destruct (JS.test _ _) eqn:H; [|discriminate].
  intros _. now exists s.
Qed.

Lemma validateCountryCodes_ok (sc rc : JS.value) :
  TransactionValidator.validateCountryCodes [sc; rc] = ok tt ->
  TransactionValidator.validateCountry sc 0 = ok tt
  /\ TransactionValidator.validateCountry rc 1 = ok tt.
Proof.
  unfold TransactionValidator.validateCountryCodes.
  cbn [TransactionValidator.forEach_country].
  destruct (TransactionValidator.validateCountry sc 0) as [e|[]]; [discriminate|].
  change (0 + 1) with 1.
  destruct (TransactionValidator.validateCountry rc 1) as [e|[]]; [discriminate|].
  auto.
Qed.

Lemma table_at_insert_logged (env : Env) (status : string)
    (error : option error) (w : World) :
  table_at_insert env (logged env status error w) = table_at_insert env w.
Proof.
  unfold table_at_insert. now rewrite (proj1 (logged_frame _ _ _ _)).
Qed.

(** A run that returns a record: the record was planned from the body, the
    insert accepted it, and it is the one row the run added. *)
Lemma processWebhook_success (env : Env) (w w' : World) (t : Transaction) :
  processWebhook env w = (inr t, w') ->
  exists transaction,
    planned env (body w) (transactions w) = ok transaction
    /\ Repository.insert env transaction (table_at_insert env w) = ok t
    /\ transactions w' = (table_at_insert env w ++ [t])%list
    /\ body w' = body w.
Proof.
  rewrite processWebhook_run, attempt_run, table_at_insert_logged.
  destruct (logged_frame env "received" None w) as [-> ->].
  destruct (planned _ _ _) as [e|transaction]; [discriminate|].
  destruct (Repository.insert _ _ _) as [e|row] eqn:Hins; [discriminate|].
  intros [= -> <-]. exists transaction.
  destruct (logged_frame env "processed" None
              (Repository.set_transactions (logged env "received" None w)
                 (table_at_insert env w ++ [t]))) as [-> ->].
  cbn [Repository.set_transactions transactions body].
  repeat split; [assumption|apply logged_frame].
Qed.

(** A run that throws: either before the insert, the table untouched, or at
    the insert, the table holding what the other requests committed. *)
Lemma processWebhook_failure (env : Env) (w w' : World) (e : error) :
  processWebhook env w = (inl e, w') ->
  (planned env (body w) (transactions w) = inl e
   /\ transactions w' = transactions w)
  \/ (exists transaction,
         planned env (body w) (transactions w) = ok transaction
         /\ Repository.insert env transaction (table_at_insert env w) = inl e
         /\ transactions w' = table_at_insert env w).
Proof.
  rewrite processWebhook_run, attempt_run, table_at_insert_logged.
  destruct (logged_frame env "received" None w) as [Ht ->]. rewrite Ht.
  destruct (planned _ _ _) as [e'|transaction].
  - intros [= -> <-]. left. split; [reflexivity|].
    now rewrite (proj1 (logged_frame _ _ _ _)).
  - destruct (Repository.insert _ _ _) as [e'|row] eqn:Hins; [|discriminate].
    intros [= -> <-]. right. exists transaction.
    rewrite (proj1 (logged_frame _ _ _ _)). now cbn.
Qed.

Lemma planned_ok (env : Env) (payload : JS.value) (rows : list Transaction)
    (t : Transaction) :
  planned env payload rows = ok t ->
  checks payload = ok tt
  /\ exists amount,
       TransactionValidator.get2 payload "data" "amount" = ok amount
       /\ new_transaction env payload
            (TransactionCalculator.calculateDerivedFields (number_of amount))
          = ok t.
Proof.
  unfold planned. intros H.
  repeat
    match type of H with
    | rbind _ _ = ok _ =>
        let a := fresh "a" in let Ha := fresh "Ha" in
        apply rbind_ok in H; destruct H as [a [Ha H]]
    end.
  repeat match goal with u : unit |- _ => destruct u end.
  split; [assumption|]. eauto.
Qed.

(** C8. The record a run persists carries the payload's currency and two
    country codes upper-cased (the codes of the allow-list and two capital
    letters, after validation), [processed_at] set to the time the record was
    built for the insert, and no [exchange_rate]; it is the one row the run
    adds to the table. *)
Theorem persisted_transaction_is_normalised (env : Env) (w w' : World)
    (t : Transaction) :
  processWebhook env w = (inr t, w') ->
  transactions w' = (table_at_insert env w ++ [t])%list
  /\ (exists cur sc rc,
        TransactionValidator.get2 (body w) "data" "currency" = ok (JS.Str cur)
        /\ TransactionValidator.get3 (body w) "data" "sender" "country" = ok (JS.Str sc)
        /\ TransactionValidator.get3 (body w) "data" "receiver" "country" = ok (JS.Str rc)
        /\ currency t = JS.toUpperCase cur
        /\ sender_country t = JS.toUpperCase sc
        /\ receiver_country t = JS.toUpperCase rc)
  /\ JS.toUpperCase (currency t) = currency t
  /\ JS.toUpperCase (sender_country t) = sender_country t
  /\ JS.toUpperCase (receiver_country t) = receiver_country t
  /\ JS.includes TransactionValidator.VALID_CURRENCIES (currency t) = true
  /\ JS.test TransactionValidator.iso2Regex (sender_country t) = true
  /\ JS.test TransactionValidator.iso2Regex (receiver_country t) = true
  /\ processed_at t = Some (new_Date env)
  /\ exchange_rate t = None.
Proof.
  intros H. apply processWebhook_success in H.
  destruct H as [transaction [Hplan [Hins [Htable _]]]].
  apply planned_ok in Hplan. destruct Hplan as [Hchecks [amount [_ Hnew]]].
  apply new_transaction_fields in Hnew.
  destruct Hnew as [cur [sc [rc [Hcur [Hsc [Hrc [Ec [Es [Er [_ [_ [_ [_ [Ep Ex]]]]]]]]]]]]]].
  apply insert_fields in Hins.
  destruct Hins as [Ic [Is [Ir [_ [_ [_ [_ [Ip [Ix _]]]]]]]]].
  apply checks_ok in Hchecks.
  destruct Hchecks as [entries [a [c [st [sc' [rc' [se [re Hc]]]]]]]].
  destruct Hc as [_ [_ [_ [_ [Hc1 [Hc2 [_ [_ [Hs1 [Hr1 [Hcc _]]]]]]]]]]].
  rewrite Hcur in Hc1. injection Hc1 as <-.
  rewrite Hsc in Hs1. injection Hs1 as <-.
  rewrite Hrc in Hr1. injection Hr1 as <-.
  apply validateCurrency_ok in Hc2. destruct Hc2 as [s1 [[= <-] Hin]].
  apply validateCountryCodes_ok in Hcc. destruct Hcc as [Hcs Hcr].
  apply validateCountry_ok in Hcs. destruct Hcs as [s2 [[= <-] Hts]].
  apply validateCountry_ok in Hcr. destruct Hcr as [s3 [[= <-] Htr]].
  rewrite Ic, Is, Ir, Ip, Ix, Ec, Es, Er, !toUpperCase_idempotent.
  split; [assumption|]. split; [now exists cur, sc, rc|].
  repeat split; assumption.
Qed.

(** C10. [validate] reads the payload and writes nothing: the world after it
    is the world before it, whether it accepts or throws, and the body is the
    same object after a whole run of [processWebhook]. The upper-casing is
    done on copies: in the record that is stored ([new_transaction]), while
    the body, as the audit entries keep logging it, still spells the codes as
    they were received. *)
Theorem validate_leaves_payload_unchanged (env : Env) (w : World) :
  snd (TransactionValidator.validate w) = w
  /\ body (snd (processWebhook env w)) = body w
  /\ (forall t w',
        processWebhook env w = (inr t, w') ->
        exists cur sc rc,
          TransactionValidator.get2 (body w') "data" "currency" = ok (JS.Str cur)
          /\ TransactionValidator.get3 (body w') "data" "sender" "country"
             = ok (JS.Str sc)
          /\ TransactionValidator.get3 (body w') "data" "receiver" "country"
             = ok (JS.Str rc)
          /\ currency t = JS.toUpperCase cur
          /\ sender_country t = JS.toUpperCase sc
          /\ receiver_country t = JS.toUpperCase rc).
Proof.
  split; [|split].
  - now rewrite validate_run.
  - rewrite processWebhook_run.
    pose proof (attempt_frame env (logged env "received" None w)) as [_ [_ [_ Hb]]].
    destruct (attempt env _) as [[e|t] w2]; cbn [snd] in *;
      rewrite (proj2 (logged_frame _ _ _ _)), Hb; apply logged_frame.
  - intros t w' H. apply processWebhook_success in H.
    destruct H as [transaction [Hplan [Hins [_ Hbody]]]].
    apply planned_ok in Hplan. destruct Hplan as [_ [amount [_ Hnew]]].
    apply new_transaction_fields in Hnew.
    destruct Hnew as [cur [sc [rc [Hcur [Hsc [Hrc [Ec [Es [Er _]]]]]]]]].
    apply insert_fields in Hins. destruct Hins as [Ic [Is [Ir _]]].
    exists cur, sc, rc. rewrite Hbody, Ic, Is, Ir.
    repeat split; assumption.
Qed.

End PipelineFacts.

(** ** The validator: which rule reports, and under which field *)

Section ValidatorFacts.

Import TransactionValidator.

Lemma requiredFields_entries (payload : JS.value) :
  nullish payload = false ->
  requiredFields payload = ok (required_entries payload).
Proof.
  intros H. unfold requiredFields. rewrite !(get_not_nullish _ _ H).
  reflexivity.
Qed.

Lemma get_opt_present (o : JS.value) (k : string) :
  is_missing (JS.get_opt o k) = false -> nullish o = false.
Proof. destruct o; cbn; congruence. Qed.

Lemma required_present (payload : JS.value) :
  first_missing (required_entries payload) = ok tt ->
  nullish (at_path payload ["data"]) = false
  /\ nullish (at_path payload ["data"; "sender"]) = false
  /\ nullish (at_path payload ["data"; "receiver"]) = false.
Proof.
  unfold required_entries, required_paths.
  cbn [map first_missing String.concat at_path fold_left].
  intros H.
  repeat
    match type of H with
    | (if is_missing ?v then _ else _) = _ =>
        let E := fresh "E" in destruct (is_missing v) eqn:E; [discriminate|]
    end.
  repeat split; eapply get_opt_present; eassumption.
Qed.

Lemma first_missing_error (entries : list (string * JS.value)) (e : error) :
  first_missing entries = inl e ->
  exists before field value after,
    entries = (before ++ (field, value) :: after)%list
    /\ Forall (fun entry => is_missing (snd entry) = false) before
    /\ is_missing value = true
    /\ e = ValidationError field (field ++ " is required").
Proof.
  induction entries as [|[f v] rest IH]; [discriminate|].
  cbn [first_missing]. destruct (is_missing v) eqn:Hv.
  - intros [= <-]. exists [], f, v, rest. repeat split; auto.
  - intros H. destruct (IH H) as [before [f' [v' [after [-> [Hb [Hm ->]]]]]]].
    exists ((f, v) :: before), f', v', after. repeat split; auto.
Qed.

Lemma validateAmount_error (v : JS.value) (e : error) :
  validateAmount v = inl e -> exists m, e = ValidationError "amount" m.
Proof.
  destruct v; cbn [validateAmount]; try (intros [= <-]; eexists; reflexivity).
  destruct (JS.isNaN x); [intros [= <-]; eexists; reflexivity|].
  destruct (PrimFloat.leb x 0); [intros [= <-]; eexists; reflexivity|].
  destruct (too_many_decimals x); [intros [= <-]; eexists; reflexivity|].
  discriminate.
Qed.

Lemma validateCurrency_error (v : JS.value) (e : error) :
  validateCurrency v = inl e -> exists m, e = ValidationError "currency" m.
Proof.
  destruct v; cbn [validateCurrency]; try (intros [= <-]; eexists; reflexivity).
  destruct (negb (JS.truthy _)); [intros [= <-]; eexists; reflexivity|].
  destruct (negb (JS.includes _ _)); [intros [= <-]; eexists; reflexivity|].
  discriminate.
Qed.

Lemma validateStatus_error (v : JS.value) (e : error) :
  validateStatus v = inl e -> exists m, e = ValidationError "status" m.
Proof.
  destruct v; cbn [validateStatus]; try (intros [= <-]; eexists; reflexivity).
  destruct (negb (JS.truthy _)); [intros [= <-]; eexists; reflexivity|].
  destruct (negb (JS.includes _ _)); [intros [= <-]; eexists; reflexivity|].
  discriminate.
Qed.

Lemma validateCountry_error (v : JS.value) (index : Z) (e : error) :
  validateCountry v index = inl e ->
  exists m, e = ValidationError ("country_" ++ JS.decimal index) m.
Proof.
  destruct v; cbn [validateCountry]; try (intros [= <-]; eexists; reflexivity).
  destruct (negb (JS.truthy _)); [intros [= <-]; eexists; reflexivity|].
  destruct (negb (JS.test _ _)); [intros [= <-]; eexists; reflexivity|].
  discriminate.
Qed.

Lemma validateEmail_error (v : JS.value) (fieldName : string) (e : error) :
  validateEmail v fieldName = inl e -> exists m, e = ValidationError fieldName m.
Proof.
  destruct v; cbn [validateEmail]; try (intros [= <-]; eexists; reflexivity).
  destruct (negb (JS.truthy _)); [intros [= <-]; eexists; reflexivity|].
  destruct (negb (JS.test _ _)); [intros [= <-]; eexists; reflexivity|].
  discriminate.
Qed.

(** [validate] on a payload that is not [null]: the first failure of the
    rules in their order. *)
Lemma checks_first_failure (payload : JS.value) :
  nullish payload = false ->
  checks payload = first_failure (rule_results payload).
Proof.
  intros Hp. unfold checks, rule_results.
  rewrite (requiredFields_entries _ Hp). cbn [rbind ok first_failure].
  destruct (first_missing (required_entries payload)) as [e|[]] eqn:Hreq;
    [reflexivity|].
  apply required_present in Hreq. destruct Hreq as [Hd [Hs Hr]].
  cbn [at_path fold_left] in *.
  unfold get3, get2.
  rewrite !(get_not_nullish _ _ Hp). cbn [ok].
  rewrite !(get_not_nullish _ _ Hd). cbn [ok rbind].
  rewrite !(get_not_nullish _ _ Hs), !(get_not_nullish _ _ Hr). cbn [ok rbind].
  destruct (validateAmount _) as [e|[]]; [reflexivity|]. cbn [rbind].
  destruct (validateCurrency _) as [e|[]]; [reflexivity|]. cbn [rbind].
  destruct (validateStatus _) as [e|[]]; [reflexivity|]. cbn [rbind].
  unfold validateCountryCodes. cbn [forEach_country].
  destruct (validateCountry _ 0) as [e|[]]; [reflexivity|].
  change (0 + 1) with 1.
  destruct (validateCountry _ 1) as [e|[]]; [reflexivity|]. cbn [rbind].
  destruct (validateEmail _ "sender.email") as [e|[]]; [reflexivity|].
  cbn [rbind].
  now destruct (validateEmail _ "receiver.email") as [e|[]].
Qed.

(** C3, as the code has it. On a payload that is an object, [validate]
    throws the error of the first rule that fails, the rules taken in the
    order required fields, amount, currency, status, sender country, receiver
    country, sender email, receiver email, and nothing when none fails. Every
    such error is a ValidationError; a missing required field is reported
    under its dotted path, the first missing one in the order of the list,
    and the other rules report under [amount], [currency], [status],
    [country_0], [country_1], [sender.email] and [receiver.email]. *)
Theorem validate_reports_first_violated_rule (w : World) :
  nullish (body w) = false ->
  fst (validate w) = first_failure (rule_results (body w))
  /\ Forall2
       (fun rule fields =>
          forall e, rule = inl e ->
            exists field message,
              e = ValidationError field message /\ In field fields)
       (rule_results (body w)) rule_fields
  /\ (forall e,
        first_missing (required_entries (body w)) = inl e ->
        exists before path after,
          required_paths = (before ++ path :: after)%list
          /\ Forall (fun q => is_missing (at_path (body w) q) = false) before
          /\ is_missing (at_path (body w) path) = true
          /\ e = ValidationError (String.concat "." path)
                   (String.concat "." path ++ " is required")).
Proof.
  intros Hp. split; [|split].
  - rewrite validate_run. cbn [fst]. now apply checks_first_failure.
  - unfold rule_results, rule_fields.
    repeat apply Forall2_cons; try apply Forall2_nil; intros e He.
    + apply first_missing_error in He.
      destruct He as [before [f [v [after [Hsplit [_ [_ ->]]]]]]].
      exists f, (f ++ " is required"). split; [reflexivity|].
      assert (Hin : In (f, v) (required_entries (body w)))
        by (rewrite Hsplit; apply in_elt).
      unfold required_entries in Hin. apply in_map_iff in Hin.
      destruct Hin as [path [[= <- _] Hpath]].
      now apply in_map.
    + apply validateAmount_error in He. destruct He as [m ->].
      exists "amount", m. cbn. auto.
    + apply validateCurrency_error in He. destruct He as [m ->].
      exists "currency", m. cbn. auto.
    + apply validateStatus_error in He. destruct He as [m ->].
      exists "status", m. cbn. auto.
    + apply validateCountry_error in He. destruct He as [m ->].
      exists "country_0", m. cbn. auto.
    + apply validateCountry_error in He. destruct He as [m ->].
      exists "country_1", m. cbn. auto.
    + apply validateEmail_error in He. destruct He as [m ->].
      exists "sender.email", m. cbn. auto.
    + apply validateEmail_error in He. destruct He as [m ->].
      exists "receiver.email", m. cbn. auto.
  - intros e He. apply first_missing_error in He.
    destruct He as [before [f [v [after [Hsplit [Hbefore [Hv ->]]]]]]].
    unfold required_entries in Hsplit.
    apply map_eq_app in Hsplit.
    destruct Hsplit as [before' [rest [Hpaths [Hb Hrest]]]].
    destruct rest as [|path after']; [discriminate|].
    cbn [map] in Hrest. injection Hrest as Hf Hval Hafter.
    exists before', path, after'. subst f v.
    repeat split; auto.
    subst before. rewrite Forall_map in Hbefore. exact Hbefore.
Qed.

End ValidatorFacts.

(** ** The pipeline: what a run leaves in the audit log and what a clash at
    the insert becomes *)

Section PipelineTheorems.

Import Entities WebhookService.

Lemma rbind_error {A B} (r : result A) (k : A -> result B) (e : error) :
  rbind r k = inl e -> r = inl e \/ exists a, r = ok a /\ k a = inl e.
Proof. destruct r as [e'|a]; cbn; [intros [= ->]; now left|]. right. now exists a. Qed.

Lemma get_error (o : JS.value) (k : string) (e : error) :
  get o k = inl e -> exists m, e = TypeError m.
Proof. destruct o; cbn; try discriminate; intros [= <-]; eauto. Qed.

Lemma get2_error (o : JS.value) (a b : string) (e : error) :
  TransactionValidator.get2 o a b = inl e -> exists m, e = TypeError m.
Proof.
  unfold TransactionValidator.get2.
  destruct (get o a) as [e'|x] eqn:H; [intros [= <-]|]; eapply get_error; eauto.
Qed.

Lemma get3_error (o : JS.value) (a b c : string) (e : error) :
  TransactionValidator.get3 o a b c = inl e -> exists m, e = TypeError m.
Proof.
  unfold TransactionValidator.get3.
  destruct (TransactionValidator.get2 o a b) as [e'|x] eqn:H;
    [intros [= <-]; eapply get2_error|eapply get_error]; eauto.
Qed.

Lemma call_toUpperCase_error (v : JS.value) (e : error) :
  call_toUpperCase v = inl e -> exists m, e = TypeError m.
Proof. destruct v; cbn; try discriminate; intros [= <-]; eauto. Qed.

Lemma requiredFields_error (payload : JS.value) (e : error) :
  TransactionValidator.requiredFields payload = inl e -> exists m, e = TypeError m.
Proof.
  unfold TransactionValidator.requiredFields.
  destruct (get payload "event_id") eqn:H1;
    [intros [= <-]; eapply get_error; eauto|].
  destruct (get payload "event_type") eqn:H2;
    [intros [= <-]; eapply get_error; eauto|].
  destruct (get payload "data") eqn:H3;
    [intros [= <-]; eapply get_error; eauto|].
  discriminate.
Qed.

Lemma precheck_error (env : Env) (eventId transactionId : JS.value)
    (rows : list Transaction) (e : error) :
  precheck env eventId transactionId rows = inl e -> thrown_before_insert e.
Proof.
  unfold precheck. destruct (lookup_fails env); [intros [= <-]; exact I|].
  destruct (find _ rows); [intros [= <-]; exact I|].
  destruct (find _ rows); [intros [= <-]; exact I|discriminate].
Qed.

Ltac split_rbind H :=
  repeat
    match type of H with
    | rbind _ _ = inl _ =>
        apply rbind_error in H;
        destruct H as [H | [? [_ H]]]; [|split_rbind H]
    end.

Ltac type_error H lemma :=
  apply lemma in H; destruct H as [? ->]; exact I.

Ltac leaf_error H :=
  first
    [ type_error H get_error
    | type_error H get2_error
    | type_error H get3_error
    | type_error H call_toUpperCase_error
    | type_error H requiredFields_error
    | type_error H validateAmount_error
    | type_error H validateCurrency_error
    | type_error H validateStatus_error
    | type_error H validateEmail_error
    | apply precheck_error in H; exact H ].

Lemma checks_error (payload : JS.value) (e : error) :
  checks payload = inl e -> thrown_before_insert e.
Proof.
  unfold checks. intros H. split_rbind H; try leaf_error H.
  - apply first_missing_error in H.
    destruct H as [? [? [? [? [_ [_ [_ ->]]]]]]]. exact I.
  - unfold TransactionValidator.validateCountryCodes in H.
    cbn [TransactionValidator.forEach_country] in H.
    destruct (TransactionValidator.validateCountry _ 0) as [e'|[]] eqn:H0.
    + injection H as <-. apply validateCountry_error in H0.
      destruct H0 as [? ->]. exact I.
    + destruct (TransactionValidator.validateCountry _ (0 + 1)) as [e'|[]] eqn:H1;
        [|discriminate].
      injection H as <-. apply validateCountry_error in H1.
      destruct H1 as [? ->]. exact I.
Qed.

Lemma new_transaction_error (env : Env) (payload : JS.value)
    (derived : TransactionCalculator.DerivedFields) (e : error) :
  new_transaction env payload derived = inl e -> thrown_before_insert e.
Proof.
  unfold new_transaction. intros H. split_rbind H; try leaf_error H.
  discriminate.
Qed.

Lemma planned_error (env : Env) (payload : JS.value) (rows : list Transaction)
    (e : error) :
  planned env payload rows = inl e -> thrown_before_insert e.
Proof.
  unfold planned. intros H. split_rbind H; try leaf_error H.
  - now apply checks_error in H.
  - now apply new_transaction_error in H.
Qed.

(** The audit log after a run on a body that is not [null]: two writes are
    attempted, and each one the store accepts is a row. *)
Lemma processWebhook_audit (env : Env) (w : World) :
  nullish (body w) = false ->
  audit_writes (snd (processWebhook env w)) = S (S (audit_writes w))
  /\ audit_logs (snd (processWebhook env w))
     = (audit_logs w
          ++ accepted (audit_fails env (audit_writes w)) (received_row env w)
          ++ accepted (audit_fails env (S (audit_writes w)))
               (terminal_row env w (fst (processWebhook env w))))%list.
Proof.
  intros Hn. rewrite processWebhook_run.
  set (w1 := logged env "received" None w).
  assert (H1 : audit_writes w1 = S (audit_writes w)
               /\ audit_logs w1
                  = (audit_logs w
                       ++ accepted (audit_fails env (audit_writes w))
                            (received_row env w))%list
               /\ body w1 = body w).
  { unfold w1, logged. rewrite Hn.
    destruct (audit_fails env (audit_writes w)); cbn;
      rewrite ?List.app_nil_r; auto. }
  destruct H1 as [Hw1 [Hl1 Hb1]].
  pose proof (attempt_frame env w1) as [Hl2 [Hw2 [_ Hb2]]].
  assert (Hlog : forall status error w2,
             body w2 = body w -> audit_writes w2 = S (audit_writes w) ->
             audit_writes (logged env status error w2) = S (S (audit_writes w))
             /\ audit_logs (logged env status error w2)
                = (audit_logs w2
                     ++ accepted (audit_fails env (S (audit_writes w)))
                          {| log_id := Some (uuid env (S (audit_writes w)));
                             log_event_id := JS.get_opt (body w) "event_id";
                             log_event_type := JS.get_opt (body w) "event_type";
                             log_payload := body w;
                             log_status := status;
                             log_error_message := option_map message_of error;
                             log_created_at := Some (db_timestamp env) |})%list).
  { intros status error w2 Hb Hw. unfold logged, audit_row.
    rewrite Hb, Hn, Hw.
    destruct (audit_fails env (S (audit_writes w))); cbn;
      rewrite ?List.app_nil_r, ?Hw; auto. }
  destruct (attempt env w1) as [[e|t] w2]; cbn [fst snd] in *;
    (destruct (Hlog (match @inl error Transaction e with
                     | inl _ => "failed" | inr _ => "processed" end)
                 (Some e) w2) as [Ha Hb]
     || destruct (Hlog "processed" None w2) as [Ha Hb]);
    try congruence;
    (split; [exact Ha|]);
    rewrite Hb, Hl2, Hl1, <- List.app_assoc; reflexivity.
Qed.

(** C2, as the code has it. A request the signature middleware answers
    (signature missing or invalid) never reaches the service: it leaves the
    audit log as it was. A request that reaches the service with a body
    that is not [null] has two audit writes attempted for it, the first with
    status [received], before validation, and exactly one more with status
    [processed] when the run returned a record and [failed], with the
    error's message, when it threw; every write the audit store accepts is
    one row, so with no audit failure the log grows by exactly these two. *)
Theorem audit_trail_of_a_request
    (hmac : string -> string -> string) (validator : SignatureValidator.t)
    (env : Env) (req : WebhookRoutes.Request) (w : World) (payload : JS.value) :
  WebhookRoutes.parsed req = Some payload ->
  let after := snd (WebhookRoutes.post_payment hmac validator env req w) in
  let run := processWebhook env (WebhookRoutes.set_body w payload) in
  (forall res,
      WebhookRoutes.verifySignature hmac validator env req
      = WebhookRoutes.Respond res ->
      audit_logs after = audit_logs w /\ audit_writes after = audit_writes w)
  /\ (WebhookRoutes.verifySignature hmac validator env req = WebhookRoutes.Next ->
      nullish payload = false ->
      audit_writes after = S (S (audit_writes w))
      /\ audit_logs after
         = (audit_logs w
              ++ accepted (audit_fails env (audit_writes w))
                   (received_row env (WebhookRoutes.set_body w payload))
              ++ accepted (audit_fails env (S (audit_writes w)))
                   (terminal_row env (WebhookRoutes.set_body w payload)
                      (fst run)))%list
      /\ log_status (received_row env (WebhookRoutes.set_body w payload))
         = "received"
      /\ log_status (terminal_row env (WebhookRoutes.set_body w payload) (fst run))
         = (if WebhookRoutes.status_code
                 (fst (WebhookRoutes.post_payment hmac validator env req w))
               =? 200
            then "processed" else "failed")).
Proof.
  intros Hparsed after run. subst after run.
  split.
  - intros res Hres. unfold WebhookRoutes.post_payment.
    rewrite Hparsed, Hres. now cbn.
  - intros Hnext Hn.
    pose proof (processWebhook_audit env (WebhookRoutes.set_body w payload) Hn)
      as [Hw Hl].
    pose proof (payment_handler_run env (WebhookRoutes.set_body w payload))
      as [Hres [_ [Hl' [Hw' _]]]].
    rewrite post_payment_response, Hparsed, Hnext.
    unfold WebhookRoutes.post_payment. rewrite Hparsed, Hnext.
    destruct (WebhookRoutes.payment_handler env _) as [[e|res] w'];
      cbn [fst snd] in *; [discriminate|].
    rewrite Hw', Hl'. cbn [audit_writes audit_logs WebhookRoutes.set_body] in *.
    split; [exact Hw|]. split; [exact Hl|]. split; [reflexivity|].
    destruct (fst (processWebhook env (WebhookRoutes.set_body w payload)))
      as [e|t]; cbn [terminal_row log_status response_of]; [|reflexivity].
    destruct e; reflexivity.
Qed.

Ltac other_error H lemma :=
  apply lemma in H; destruct H as [? H]; discriminate H.

Ltac leaf_not_duplicate H :=
  first
    [ other_error H get_error
    | other_error H get2_error
    | other_error H get3_error
    | other_error H call_toUpperCase_error
    | other_error H requiredFields_error
    | other_error H validateAmount_error
    | other_error H validateCurrency_error
    | other_error H validateStatus_error
    | other_error H validateCountry_error
    | other_error H validateEmail_error ].

(** The validator throws no DuplicateTransactionError. *)
Lemma checks_not_duplicate (payload : JS.value) (existing : Transaction) :
  checks payload <> inl (DuplicateTransactionError existing).
Proof.
  unfold checks. intros H. split_rbind H; try leaf_not_duplicate H.
  - apply first_missing_error in H.
    destruct H as [? [? [? [? [_ [_ [_ H]]]]]]]. discriminate H.
  - unfold TransactionValidator.validateCountryCodes in H.
    cbn [TransactionValidator.forEach_country] in H.
    destruct (TransactionValidator.validateCountry _ 0) as [e'|[]] eqn:H0.
    + injection H as ->. leaf_not_duplicate H0.
    + destruct (TransactionValidator.validateCountry _ (0 + 1)) as [e'|[]] eqn:H1;
        [|discriminate].
      injection H as ->. leaf_not_duplicate H1.
Qed.

(** Building the record throws no DuplicateTransactionError. *)
Lemma new_transaction_not_duplicate (env : Env) (payload : JS.value)
    (derived : TransactionCalculator.DerivedFields) (existing : Transaction) :
  new_transaction env payload derived <> inl (DuplicateTransactionError existing).
Proof.
  unfold new_transaction. intros H. split_rbind H; try leaf_not_duplicate H.
  discriminate.
Qed.

(** Before the insert, a DuplicateTransactionError comes from the
    idempotency pre-check and from nowhere else. *)
Lemma planned_duplicate_is_from_precheck (env : Env) (payload : JS.value)
    (rows : list Transaction) (existing : Transaction) :
  planned env payload rows = inl (DuplicateTransactionError existing) ->
  exists eventId transactionId,
    checks payload = ok tt
    /\ get payload "event_id" = ok eventId
    /\ TransactionValidator.get2 payload "data" "transaction_id"
       = ok transactionId
    /\ precheck env eventId transactionId rows
       = inl (DuplicateTransactionError existing).
Proof.
  unfold planned.
  destruct (checks payload) as [e|[]] eqn:Hc; cbn [rbind].
  { intros [= ->]. now apply checks_not_duplicate in Hc. }
  destruct (get payload "event_id") as [e|eventId] eqn:He; cbn [rbind].
  { intros [= ->]. leaf_not_duplicate He. }
  destruct (TransactionValidator.get2 payload "data" "transaction_id")
    as [e|transactionId] eqn:Ht; cbn [rbind].
  { intros [= ->]. leaf_not_duplicate Ht. }
  destruct (precheck env eventId transactionId rows) as [e|[]] eqn:Hp;
    cbn [rbind].
  { intros [= ->]. now exists eventId, transactionId. }
  destruct (TransactionValidator.get2 payload "data" "amount")
    as [e|amount] eqn:Ha; cbn [rbind].
  { intros [= ->]. leaf_not_duplicate Ha. }
  intros H. now apply new_transaction_not_duplicate in H.
Qed.

(** The insert throws a QueryFailedError or nothing. *)
Lemma insert_error (env : Env) (t : Transaction) (rows : list Transaction)
    (e : error) :
  Repository.insert env t rows = inl e -> exists failure, e = QueryFailedError failure.
Proof.
  unfold Repository.insert.
  destruct (existsb (Repository.has_event_id _) rows); [intros [= <-]; eauto|].
  destruct (existsb (Repository.has_transaction_id _) rows);
    [intros [= <-]; eauto|].
  destruct (insert_fails env); [intros [= <-]; eauto|discriminate].
Qed.

(** A run whose insert throws: the error is thrown on as it is, and the
    table holds what the other requests committed. *)
Lemma processWebhook_insert_throws (env : Env) (w : World)
    (transaction : Transaction) (e : error) :
  planned env (body w) (transactions w) = ok transaction ->
  Repository.insert env transaction (table_at_insert env w) = inl e ->
  fst (processWebhook env w) = inl e
  /\ transactions (snd (processWebhook env w)) = table_at_insert env w.
Proof.
  intros Hplan Hins.
  rewrite processWebhook_run, attempt_run, table_at_insert_logged.
  destruct (logged_frame env "received" None w) as [-> ->].
  unfold ok in Hplan. rewrite Hplan. cbv beta iota. rewrite Hins.
  cbn [fst snd]. split; [reflexivity|].
  now rewrite (proj1 (logged_frame _ _ _ _)).
Qed.

(** C1, as the code has it. When validation and the idempotency pre-check
    have passed and the insert raises a uniqueness violation (the clash is
    with a row committed since the lookups), the catch block of
    [processWebhook] writes the [failed] audit entry and throws the same
    QueryFailedError again, unchanged; it is not a DuplicateTransactionError,
    so the route handler answers 500 with its generic message, not 409, and
    nothing of this request is in the table. The duplicate signal comes from
    the pre-check only: whenever a run throws DuplicateTransactionError,
    validation had passed and [checkDuplicate] threw it, on a row it found.
    And a run ends with a uniqueness violation only when the insert raised
    it. *)
Theorem unique_violation_at_insert_is_rethrown (env : Env) (w : World) :
  (forall transaction column,
      planned env (body w) (transactions w) = ok transaction ->
      Repository.insert env transaction (table_at_insert env w)
      = throw (QueryFailedError (UniqueViolation column)) ->
      fst (processWebhook env w)
      = inl (QueryFailedError (UniqueViolation column))
      /\ transactions (snd (processWebhook env w)) = table_at_insert env w
      /\ audit_logs (snd (processWebhook env w))
         = (audit_logs w
              ++ accepted (audit_fails env (audit_writes w)) (received_row env w)
              ++ accepted (audit_fails env (S (audit_writes w)))
                   (terminal_row env w
                      (inl (QueryFailedError (UniqueViolation column)))))%list
      /\ fst (WebhookRoutes.payment_handler env w)
         = inr WebhookRoutes.internal_error
      /\ WebhookRoutes.status_code WebhookRoutes.internal_error = 500)
  /\ (forall existing,
        fst (processWebhook env w) = inl (DuplicateTransactionError existing) ->
        exists eventId transactionId,
          checks (body w) = ok tt
          /\ get (body w) "event_id" = ok eventId
          /\ TransactionValidator.get2 (body w) "data" "transaction_id"
             = ok transactionId
          /\ fst (checkDuplicate env eventId transactionId w)
             = inl (DuplicateTransactionError existing)
          /\ fst (WebhookRoutes.payment_handler env w)
             = inr (WebhookRoutes.conflict existing))
  /\ (forall column,
        fst (processWebhook env w)
        = inl (QueryFailedError (UniqueViolation column)) ->
        exists transaction,
          planned env (body w) (transactions w) = ok transaction
          /\ Repository.insert env transaction (table_at_insert env w)
             = throw (QueryFailedError (UniqueViolation column))).
Proof.
  split; [|split].
  - intros transaction column Hplan Hins.
    destruct (processWebhook_insert_throws env w _ _ Hplan Hins) as [Hr Ht].
    split; [exact Hr|]. split; [exact Ht|].
    assert (Hn : nullish (body w) = false).
    { apply planned_ok in Hplan. destruct Hplan as [Hc _].
      destruct (body w); try reflexivity; discriminate Hc. }
    pose proof (processWebhook_audit env w Hn) as [_ Hl].
    pose proof (payment_handler_run env w) as [Hres _].
    rewrite Hr in Hl, Hres.
    split; [exact Hl|]. split; [exact Hres|reflexivity].
  - intros existing H.
    pose proof (payment_handler_run env w) as [Hres _]. rewrite H in Hres.
    destruct (processWebhook env w) as [r w'] eqn:Hrun. cbn [fst] in H.
    subst r. apply processWebhook_failure in Hrun.
    destruct Hrun as [[Hp _]|[transaction [_ [Hins _]]]].
    + apply planned_duplicate_is_from_precheck in Hp.
      destruct Hp as [eventId [transactionId [Hc [He [Ht Hp]]]]].
      exists eventId, transactionId. rewrite checkDuplicate_run.
      repeat split; assumption.
    + apply insert_error in Hins. destruct Hins as [failure Hins].
      discriminate Hins.
  - intros column H.
    destruct (processWebhook env w) as [r w'] eqn:Hrun. cbn [fst] in H.
    subst r. apply processWebhook_failure in Hrun.
    destruct Hrun as [[Hp _]|[transaction [Hplan [Hins _]]]].
    + apply planned_error in Hp. destruct Hp.
    + now exists transaction.
Qed.

End PipelineTheorems.

(** ** The sample requests, run *)

Section Runs.

Import Entities WebhookService Sample.

(** A request without the signature header is answered 401 by the
    middleware and leaves no audit row at all, not even [received]: the
    claim that every request is audited fails on it. *)
Lemma unsigned_request_leaves_no_audit_row :
  fst (WebhookRoutes.post_payment keyed_digest validator env
         (request None None good_payload) empty_world)
  = WebhookRoutes.unauthorized "Missing webhook signature"
  /\ audit_logs
       (snd (WebhookRoutes.post_payment keyed_digest validator env
               (request None None good_payload) empty_world))
     = []
  /\ audit_writes
       (snd (WebhookRoutes.post_payment keyed_digest validator env
               (request None None good_payload) empty_world))
     = 0%nat.
Proof. vm_compute. repeat split. Qed.

Lemma audit_trail_of_a_request_witness :
  audit_logs
    (snd (WebhookRoutes.post_payment keyed_digest validator env
            (signed_request good_payload) empty_world))
  = [ received_row env (world_of good_payload);
      terminal_row env (world_of good_payload)
        (fst (processWebhook env (world_of good_payload))) ].
Proof.
  destruct (audit_trail_of_a_request keyed_digest validator env
              (signed_request good_payload) empty_world good_payload eq_refl)
    as [_ H].
  destruct H as [_ [H _]]; [vm_compute; reflexivity|reflexivity|].
  exact H.
Defined.

(** The other delivery commits between this request's lookups and its
    insert: the insert throws the uniqueness violation, [processWebhook]
    throws it on, and the caller gets 500, where the pre-check on the same
    row, had it been there in time, gives 409. *)
Lemma concurrent_duplicate_is_answered_500 :
  fst (processWebhook racing_env (world_of good_payload))
  = inl (QueryFailedError (UniqueViolation "event_id"))
  /\ WebhookRoutes.status_code
       (fst (WebhookRoutes.post_payment keyed_digest validator racing_env
               (signed_request good_payload) empty_world))
     = 500
  /\ WebhookRoutes.status_code
       (fst (WebhookRoutes.post_payment keyed_digest validator env
               (signed_request good_payload)
               (Repository.set_transactions empty_world [other_delivery])))
     = 409.
Proof. vm_compute. repeat split. Qed.

Lemma unique_violation_at_insert_is_rethrown_witness :
  fst (WebhookRoutes.payment_handler racing_env (world_of good_payload))
  = inr WebhookRoutes.internal_error.
Proof.
  refine (proj1 (proj2 (proj2 (proj2
            (proj1 (unique_violation_at_insert_is_rethrown racing_env
                      (world_of good_payload))
               _ "event_id" _ _))))).
  - vm_compute. reflexivity.
  - vm_compute. reflexivity.
Defined.

(** A sender country of three letters is reported under [country_0], which
    is not the dotted path [data.sender.country] of the field. *)
Lemma country_error_is_not_under_its_path :
  fst (TransactionValidator.validate
         (world_of (payload (JS.Num 2500.75%float) "usd" "USA")))
  = inl (ValidationError "country_0"
           "Country code must be 2-letter ISO code (e.g., US, IN, GB). Received: USA")
  /\ at_path (payload (JS.Num 2500.75%float) "usd" "USA")
       ["data"; "sender"; "country"]
     = JS.Str "USA"
  /\ String.eqb "country_0" (String.concat "." ["data"; "sender"; "country"])
     = false.
Proof. vm_compute. repeat split. Qed.

Lemma validate_reports_first_violated_rule_witness :
  fst (TransactionValidator.validate
         (world_of (payload (JS.Num (-5)%float) "XXX" "USA")))
  = first_failure (rule_results (payload (JS.Num (-5)%float) "XXX" "USA")).
Proof.
  exact (proj1 (validate_reports_first_violated_rule
                  (world_of (payload (JS.Num (-5)%float) "XXX" "USA"))
                  eq_refl)).
Defined.

Lemma persisted_transaction_is_normalised_witness :
  exists t w',
    processWebhook env (world_of good_payload) = (inr t, w')
    /\ currency t = "USD"
    /\ sender_country t = "US"
    /\ processed_at t = Some (new_Date env)
    /\ exchange_rate t = None.
Proof.
  eexists. eexists. split; [vm_compute; reflexivity|].
  match goal with
  | |- currency ?t = _ /\ _ =>
      destruct (persisted_transaction_is_normalised env (world_of good_payload)
                  (snd (processWebhook env (world_of good_payload))) t)
        as [_ [_ [_ [_ [_ [_ [_ [_ [Hp Hx]]]]]]]]]
  end.
  - vm_compute. reflexivity.
  - split; [reflexivity|]. split; [reflexivity|].
    split; [exact Hp|exact Hx].
Defined.

Lemma verify_accepts_exactly_the_hmac_witness :
  SignatureValidator.verify keyed_digest validator raw
    (keyed_digest "abcd12345" raw) = true
  /\ SignatureValidator.verify keyed_digest validator raw
       (keyed_digest "abcd12345" "{..,}") = false
  /\ SignatureValidator.verify keyed_digest validator raw "abcd" = false.
Proof.
  pose proof (verify_accepts_exactly_the_hmac keyed_digest validator raw)
    as [Hsame [Heqb [_ Hthrows]]].
  split; [exact Hsame|]. split.
  - rewrite Heqb. reflexivity.
  - exact (proj2 (Hthrows "abcd" _ eq_refl)).
Defined.

(** What [parseInt] makes of a timestamp: the integer of the longest prefix
    of digits, after white space and a sign; NaN only when there is no such
    prefix. *)
Example parseInt_examples :
  JS.parseInt "1761661500" = Some 1761661500
  /\ JS.parseInt " +1761661500" = Some 1761661500
  /\ JS.parseInt "1761661500.75" = Some 1761661500
  /\ JS.parseInt "1761661500abc" = Some 1761661500
  /\ JS.parseInt "0x10" = Some 16
  /\ JS.parseInt "soon" = None
  /\ JS.parseInt "-" = None
  /\ JS.parseInt "" = None.
Proof. vm_compute. repeat split. Qed.

Lemma verifyWithTimestamp_window_witness :
  SignatureValidator.verifyWithTimestamp keyed_digest validator (now env) raw
    (keyed_digest "abcd12345" ("soon." ++ raw)) "soon" 300 = false
  /\ SignatureValidator.verifyWithTimestamp keyed_digest validator (now env) raw
       (keyed_digest "abcd12345" ("1761661499." ++ raw)) "1761661499" 300 = false
  /\ SignatureValidator.verifyWithTimestamp keyed_digest validator (now env) raw
       (keyed_digest "abcd12345" ("1761661500." ++ raw)) "1761661500" 300 = true.
Proof.
  split; [|split].
  - exact (proj1 (verifyWithTimestamp_window keyed_digest validator (now env) raw
                    (keyed_digest "abcd12345" ("soon." ++ raw)) "soon" 300)
             eq_refl).
  - refine (proj1 (proj1 (proj2
              (verifyWithTimestamp_window keyed_digest validator (now env) raw
                 (keyed_digest "abcd12345" ("1761661499." ++ raw))
                 "1761661499" 300))
              1761661499 eq_refl _)).
    vm_compute. reflexivity.
  - rewrite (proj1 (proj2 (proj2
               (verifyWithTimestamp_window keyed_digest validator (now env) raw
                  (keyed_digest "abcd12345" ("1761661500." ++ raw))
                  "1761661500" 300)))
               1761661500 eq_refl).
    + reflexivity.
    + vm_compute. discriminate.
Defined.

(** Every audit write failing: the same record comes back, the caller gets
    the same 200, and the console holds the two lines. *)
Lemma audit_failure_is_swallowed_witness :
  fst (processWebhook (with_audit_fails env (fun _ => true))
         (world_of good_payload))
  = fst (processWebhook env (world_of good_payload))
  /\ WebhookRoutes.status_code
       (fst (WebhookRoutes.post_payment keyed_digest validator
               (with_audit_fails env (fun _ => true))
               (signed_request good_payload) (world_of good_payload)))
     = 200
  /\ audit_logs
       (snd (logWebhookEvent (with_audit_fails env (fun _ => true))
               "received" None (world_of good_payload)))
     = []
  /\ console
       (snd (logWebhookEvent (with_audit_fails env (fun _ => true))
               "received" None (world_of good_payload)))
     = ["Failed to log audit event: insert into audit_logs failed"].
Proof.
  pose proof (audit_failure_is_swallowed env (fun _ => true)
                (world_of good_payload)) as [_ [Hsame [_ Hres]]].
  pose proof (audit_failure_is_swallowed (with_audit_fails env (fun _ => true))
                (fun _ => true) (world_of good_payload)) as [Hlog _].
  split; [exact Hsame|]. split.
  - rewrite (Hres keyed_digest validator (signed_request good_payload)).
    vm_compute. reflexivity.
  - exact (proj2 (proj2 (Hlog "received" None)) eq_refl eq_refl).
Defined.

Lemma validate_leaves_payload_unchanged_witness :
  exists t w',
    processWebhook env (world_of good_payload) = (inr t, w')
    /\ TransactionValidator.get2 (body w') "data" "currency" = ok (JS.Str "usd")
    /\ currency t = "USD".
Proof.
  eexists. eexists. split; [vm_compute; reflexivity|].
  match goal with
  | |- TransactionValidator.get2 (body ?w') _ _ = _ /\ currency ?t = _ =>
      destruct (proj2 (proj2 (validate_leaves_payload_unchanged env
                                (world_of good_payload))) t w')
        as [cur [sc [rc [Hcur [_ [_ [Hc _]]]]]]]
  end.
  - vm_compute. reflexivity.
  - split; [reflexivity|reflexivity].
Defined.

End Runs.

(** ** Numbers as text: digits, layout, and reading back *)

Section NumberFacts.

Lemma every_app (p : ascii -> bool) (a b : string) :
  every p (a ++ b) = every p a && every p b.
Proof.
  induction a as [|c a IH]; [reflexivity|].
  cbn [append every]. now rewrite IH, andb_assoc.
Qed.

Lemma every_weaken (p q : ascii -> bool) (s : string) :
  (forall c, p c = true -> q c = true) -> every p s = true -> every q s = true.
Proof.
  intros Hpq. induction s as [|c s IH]; [reflexivity|].
  cbn [every]. intros H. apply andb_true_iff in H. destruct H as [Hc Hs].
  now rewrite (Hpq c Hc), IH.
Qed.

Lemma length_app (a b : string) :
  String.length (a ++ b) = (String.length a + String.length b)%nat.
Proof. induction a as [|c a IH]; [reflexivity|]. cbn. now rewrite IH. Qed.

Lemma take_drop (n : nat) (s : string) : JS.take n s ++ JS.drop n s = s.
Proof.
  revert s; induction n as [|n IH]; intros [|c s]; try reflexivity.
  cbn. now rewrite IH.
Qed.

Lemma length_take (n : nat) (s : string) :
  (n <= String.length s)%nat -> String.length (JS.take n s) = n.
Proof.
  revert s; induction n as [|n IH]; intros [|c s]; cbn; try lia.
  intros H. rewrite IH; lia.
Qed.

Lemma length_drop (n : nat) (s : string) :
  String.length (JS.drop n s) = (String.length s - n)%nat.
Proof.
  revert s; induction n as [|n IH]; intros [|c s]; cbn; try lia. apply IH.
Qed.

Lemma every_take (p : ascii -> bool) (n : nat) (s : string) :
  every p s = true -> every p (JS.take n s) = true.
Proof.
  revert s; induction n as [|n IH]; intros [|c s]; try reflexivity.
  cbn [every JS.take]. intros H. apply andb_true_iff in H.
  destruct H as [-> Hs]. now rewrite IH.
Qed.

Lemma every_drop (p : ascii -> bool) (n : nat) (s : string) :
  every p s = true -> every p (JS.drop n s) = true.
Proof.
  revert s; induction n as [|n IH]; intros [|c s]; try easy.
  cbn [every JS.drop]. intros H. apply andb_true_iff in H.
  destruct H as [_ Hs]. now apply IH.
Qed.

Lemma every_zeros (n : nat) : every JS.is_digit (JS.zeros n) = true.
Proof. induction n as [|n IH]; [reflexivity|]. cbn [JS.zeros every]. now rewrite IH. Qed.

Lemma length_zeros (n : nat) : String.length (JS.zeros n) = n.
Proof. induction n as [|n IH]; [reflexivity|]. cbn. now rewrite IH. Qed.

Lemma every_string_of_uint (d : Decimal.uint) :
  every JS.is_digit (NilEmpty.string_of_uint d) = true.
Proof. induction d; cbn [NilEmpty.string_of_uint every]; rewrite ?IHd; reflexivity. Qed.

Lemma to_uint_not_nil (n : N) : N.to_uint n <> Decimal.Nil.
Proof.
  destruct n as [|p]; [discriminate|].
  cbn. intros H. apply (f_equal Pos.of_uint) in H.
  rewrite DecimalPos.Unsigned.of_to in H. discriminate.
Qed.

Lemma decimal_string (n : Z) :
  JS.decimal n = NilEmpty.string_of_uint (N.to_uint (Z.to_N n)).
Proof.
  unfold JS.decimal, NilZero.string_of_uint.
  pose proof (to_uint_not_nil (Z.to_N n)).
  now destruct (N.to_uint (Z.to_N n)).
Qed.

Lemma every_decimal (n : Z) : every JS.is_digit (JS.decimal n) = true.
Proof. rewrite decimal_string. apply every_string_of_uint. Qed.

Lemma decimal_not_empty (n : Z) : (0 < String.length (JS.decimal n))%nat.
Proof.
  rewrite decimal_string. pose proof (to_uint_not_nil (Z.to_N n)).
  destruct (N.to_uint (Z.to_N n)); cbn; try lia. contradiction.
Qed.

Lemma uint_of_string_zeros (j : nat) (d : Decimal.uint) :
  exists d', NilEmpty.uint_of_string (JS.zeros j ++ NilEmpty.string_of_uint d)
             = Some d'
             /\ N.of_uint d' = N.of_uint d.
Proof.
  induction j as [|j [d' [H1 H2]]].
  - exists d. split; [apply NilEmpty.usu|reflexivity].
  - exists (Decimal.D0 d'). cbn [JS.zeros append NilEmpty.uint_of_string].
    rewrite H1. split; [reflexivity|]. exact H2.
Qed.

(** Reading the digits of [n], leading zeros or not, gives [n]. *)
Lemma digits_value_decimal (j : nat) (n : Z) :
  0 <= n -> JS.digits_value (JS.zeros j ++ JS.decimal n) = n.
Proof.
  intros Hn. unfold JS.digits_value. rewrite decimal_string.
  destruct (uint_of_string_zeros j (N.to_uint (Z.to_N n))) as [d' [-> H]].
  rewrite H, DecimalN.Unsigned.of_to. now apply Z2N.id.
Qed.

Lemma span_digits_all (a rest : string) :
  every JS.is_digit a = true ->
  every JS.is_digit (JS.take 1 rest) = false \/ rest = "" ->
  JS.span_digits (a ++ rest) = (a, rest).
Proof.
  intros Ha Hrest. induction a as [|c a IH].
  - cbn [append]. destruct rest as [|c rest]; [reflexivity|].
    destruct Hrest as [H|H]; [|discriminate].
    cbn in H. cbn [JS.span_digits].
    destruct (JS.is_digit c); [discriminate|reflexivity].
  - cbn [every] in Ha. apply andb_true_iff in Ha. destruct Ha as [Hc Ha].
    cbn [append JS.span_digits]. now rewrite Hc, (IH Ha).
Qed.

Lemma append_empty (s : string) : s ++ "" = s.
Proof. induction s as [|c s IH]; [reflexivity|]. cbn. now rewrite IH. Qed.

Lemma digit_starts_a_number (c : ascii) (rest : string) :
  JS.is_digit c = true ->
  JS.trim_start (String c rest) = String c rest
  /\ JS.strip_sign (String c rest) = (false, String c rest)
  /\ String.prefix "Infinity" (String c rest) = false.
Proof.
  destruct c as [[|] [|] [|] [|] [|] [|] [|] [|]];
    intros H; try discriminate H; repeat split.
Qed.

(** Reading back what [toFixed(2)] writes for the integer [n] of hundredths:
    the double nearest to [n / 100], with the sign written. *)
Lemma parseFloat_fixed_point (neg : bool) (n : Z) :
  0 <= n ->
  JS.parseFloat ((if neg then "-" else "") ++ JS.fixed_point n 2)
  = JS.decimal_to_double neg n (-2).
Proof.
  intros Hn. unfold JS.fixed_point.
  set (m := JS.zeros (3 - String.length (JS.decimal n)) ++ JS.decimal n).
  assert (Hm : every JS.is_digit m = true)
    by (unfold m; now rewrite every_app, every_zeros, every_decimal).
  assert (Hk : (3 <= String.length m)%nat)
    by (unfold m; rewrite length_app, length_zeros; lia).
  remember (String.length m) as k eqn:Ek.
  assert (Hip : every JS.is_digit (JS.take (k - 2) m) = true)
    by now apply every_take.
  assert (Hfp : every JS.is_digit (JS.drop (k - 2) m) = true)
    by now apply every_drop.
  assert (Hlip : String.length (JS.take (k - 2) m) = (k - 2)%nat)
    by (apply length_take; lia).
  assert (Hlfp : String.length (JS.drop (k - 2) m) = 2%nat)
    by (rewrite length_drop; lia).
  assert (Hval : JS.digits_value (JS.take (k - 2) m ++ JS.drop (k - 2) m) = n)
    by (rewrite take_drop; now apply digits_value_decimal).
  remember (JS.take (k - 2) m) as ip eqn:Eip.
  remember (JS.drop (k - 2) m) as fp eqn:Efp.
  clear Eip Efp.
  destruct ip as [|c ip']; [cbn in Hlip; lia|].
  cbn [every] in Hip. apply andb_true_iff in Hip. destruct Hip as [Hc Hip'].
  assert (Hbody :
            JS.strip_sign
              (JS.trim_start
                 ((if neg then "-" else "") ++ String c ip' ++ "." ++ fp))
            = (neg, String c (ip' ++ String "." fp))).
  { destruct (digit_starts_a_number c (ip' ++ String "." fp) Hc) as [Ht [Hs _]].
    destruct neg; cbn [append]; [reflexivity|].
    now rewrite Ht, Hs. }
  unfold JS.parseFloat. rewrite Hbody.
  destruct (digit_starts_a_number c (ip' ++ String "." fp) Hc) as [_ [_ ->]].
  change (String c (ip' ++ String "." fp)) with (String c ip' ++ String "." fp).
  rewrite (span_digits_all (String c ip') (String "." fp)).
  2: { cbn [every]. now rewrite Hc, Hip'. }
  2: { left. reflexivity. }
  cbv beta iota.
  rewrite <- (append_empty fp) at 1.
  rewrite (span_digits_all fp "" Hfp (or_intror eq_refl)).
  rewrite Hval. unfold JS.slen. rewrite Hlfp.
  reflexivity.
Qed.

Lemma scaled_half_up_nearest (m e : Z) :
  0 < m ->
  0 <= JS.scaled_half_up m e 2
  /\ is_nearest_hundredth m e (JS.scaled_half_up m e 2).
Proof.
  intros Hm. unfold JS.scaled_half_up, is_nearest_hundredth.
  change (10 ^ Z.of_nat 2) with 100.
  set (num := m * 2 ^ Z.max e 0 * 100).
  set (den := 2 ^ Z.max (- e) 0).
  assert (Hden : 0 < den) by (unfold den; apply Z.pow_pos_nonneg; lia).
  assert (Hnum : 0 <= num).
  { unfold num. assert (0 < 2 ^ Z.max e 0) by (apply Z.pow_pos_nonneg; lia). nia. }
  pose proof (Z.div_mod (2 * num + den) (2 * den) ltac:(lia)) as Hdm.
  pose proof (Z.mod_pos_bound (2 * num + den) (2 * den) ltac:(lia)) as Hr.
  split.
  - apply Z.div_pos; lia.
  - cbv zeta. nia.
Qed.

(** What [parseFloat(x.toFixed(2))] is, for a finite [x] below 10^21 in
    magnitude. *)
Lemma parseFloat_toFixed_rounds (x : float) :
  JS.below_1e21 x = true ->
  rounds_to_2dp x (JS.parseFloat (JS.toFixed x 2)).
Proof.
  intros Hx. unfold rounds_to_2dp, JS.toFixed.
  destruct (Prim2SF x) as [s|s| |s m e] eqn:Hsf.
  - exact (parseFloat_fixed_point false 0 ltac:(lia)).
  - unfold JS.below_1e21 in Hx. rewrite Hsf in Hx. discriminate.
  - unfold JS.below_1e21 in Hx. rewrite Hsf in Hx. discriminate.
  - rewrite Hx.
    destruct (scaled_half_up_nearest (Zpos m) e ltac:(lia)) as [Hc Hnear].
    exists (JS.scaled_half_up (Zpos m) e 2). split; [exact Hnear|].
    now apply parseFloat_fixed_point.
Qed.

Lemma is_nearest_hundredth_unique (m e c1 c2 : Z) :
  is_nearest_hundredth m e c1 -> is_nearest_hundredth m e c2 -> c1 = c2.
Proof.
  unfold is_nearest_hundredth. cbv zeta.
  assert (Hden : 0 < 2 ^ Z.max (- e) 0) by (apply Z.pow_pos_nonneg; lia).
  generalize dependent (2 ^ Z.max (- e) 0).
  generalize (m * 2 ^ Z.max e 0 * 100).
  intros num den Hden [H1 H2] [H3 H4]. nia.
Qed.

(** Rounding to 2 decimal places has one result. *)
Lemma rounds_to_2dp_unique (x y1 y2 : float) :
  rounds_to_2dp x y1 -> rounds_to_2dp x y2 -> y1 = y2.
Proof.
  unfold rounds_to_2dp. destruct (Prim2SF x) as [s|s| |s m e].
  - congruence.
  - congruence.
  - congruence.
  - intros [c1 [H1 ->]] [c2 [H2 ->]].
    now rewrite (is_nearest_hundredth_unique _ _ _ _ H1 H2).
Qed.

(** C7. [calculateDerivedFields] rounds twice, in this order. For every
    amount whose 2% is finite and below 10^21 (where [toFixed] writes
    fixed-point digits), the fee returned is [amount * 0.02] rounded to 2
    decimal places; and the net amount returned is [amount] minus that
    rounded fee, rounded to 2 decimal places in its turn, whenever that
    difference is finite and below 10^21. Both conditions are on the amount
    alone: the fee in the second one is the rounding of [amount * 0.02] as
    [rounds_to_2dp] defines it, which is unique. On 100.50 the result is
    [{processing_fee: 2.01, net_amount: 98.49}]. *)
Theorem calculateDerivedFields_rounds_fee_then_net :
  (forall amount : float,
      JS.below_1e21 (PrimFloat.mul amount 0.02%float) = true ->
      rounds_to_2dp (PrimFloat.mul amount 0.02%float)
        (TransactionCalculator.processing_fee
           (TransactionCalculator.calculateDerivedFields amount))
      /\ (forall fee : float,
            rounds_to_2dp (PrimFloat.mul amount 0.02%float) fee ->
            JS.below_1e21 (PrimFloat.sub amount fee) = true ->
            fee = TransactionCalculator.processing_fee
                    (TransactionCalculator.calculateDerivedFields amount)
            /\ rounds_to_2dp (PrimFloat.sub amount fee)
                 (TransactionCalculator.net_amount
                    (TransactionCalculator.calculateDerivedFields amount))))
  /\ TransactionCalculator.calculateDerivedFields 100.5%float
     = {| TransactionCalculator.processing_fee := 2.01%float;
          TransactionCalculator.net_amount := 98.49%float |}.
Proof.
  split.
  - intros amount Hfee.
    assert (Hround :
              rounds_to_2dp (PrimFloat.mul amount 0.02%float)
                (TransactionCalculator.processing_fee
                   (TransactionCalculator.calculateDerivedFields amount))).
    { unfold TransactionCalculator.calculateDerivedFields,
        TransactionCalculator.PROCESSING_FEE_RATE.
      cbn [TransactionCalculator.processing_fee].
      now apply parseFloat_toFixed_rounds. }
    split; [exact Hround|].
    intros fee Hspec Hnet.
    pose proof (rounds_to_2dp_unique _ _ _ Hspec Hround) as Hsame.
    split; [exact Hsame|]. rewrite Hsame in Hnet |- * at 1.
    revert Hnet.
    unfold TransactionCalculator.calculateDerivedFields,
      TransactionCalculator.PROCESSING_FEE_RATE.
    cbn [TransactionCalculator.processing_fee TransactionCalculator.net_amount].
    apply parseFloat_toFixed_rounds.
  - vm_compute. reflexivity.
Qed.

Lemma calculateDerivedFields_rounds_fee_then_net_witness :
  rounds_to_2dp (PrimFloat.mul 100.5%float 0.02%float) 2.01%float
  /\ rounds_to_2dp (PrimFloat.sub 100.5%float 2.01%float) 98.49%float.
Proof.
  destruct (proj1 calculateDerivedFields_rounds_fee_then_net 100.5%float)
    as [Hfee Hnet]; [vm_compute; reflexivity|].
  split; [exact Hfee|].
  refine (proj2 (Hnet 2.01%float Hfee _)). vm_compute. reflexivity.
Defined.

Lemma split_dot_plain (s : string) :
  every not_dot s = true -> JS.split_dot s = [s].
Proof.
  induction s as [|c s IH]; [reflexivity|].
  cbn [every JS.split_dot]. intros H. apply andb_true_iff in H.
  destruct H as [Hc Hs]. unfold not_dot in Hc.
  destruct (Ascii.eqb c "."); [discriminate|]. now rewrite (IH Hs).
Qed.

Lemma split_dot_at (a b : string) :
  every not_dot a = true ->
  JS.split_dot (a ++ String "." b) = a :: JS.split_dot b.
Proof.
  induction a as [|c a IH]; [reflexivity|].
  cbn [every append JS.split_dot]. intros H. apply andb_true_iff in H.
  destruct H as [Hc Ha]. unfold not_dot in Hc.
  destruct (Ascii.eqb c "."); [discriminate|]. now rewrite (IH Ha).
Qed.

Lemma digit_not_dot (c : ascii) : JS.is_digit c = true -> not_dot c = true.
Proof.
  destruct c as [[|] [|] [|] [|] [|] [|] [|] [|]]; intros H;
    try discriminate H; reflexivity.
Qed.

Lemma digits_not_dots (s : string) :
  every JS.is_digit s = true -> every not_dot s = true.
Proof. apply every_weaken, digit_not_dot. Qed.

(** The text after the point in the plain layouts of [toString]: as many
    characters as the value has fraction digits, and no point at all when it
    has none. *)
Lemma render_fraction (d : JS.decimal_view) :
  every JS.is_digit (JS.digits d) = true ->
  -6 < JS.point d <= 21 ->
  match nth_error (JS.split_dot (JS.render d)) 1 with
  | Some piece =>
      JS.point d < JS.slen (JS.digits d)
      /\ JS.slen piece = JS.slen (JS.digits d) - JS.point d
  | None => JS.slen (JS.digits d) <= JS.point d
  end.
Proof.
  intros Hd Hn. unfold JS.render.
  set (ds := JS.digits d) in *. set (n := JS.point d) in *.
  pose proof (digits_not_dots ds Hd) as Hnd.
  destruct (JS.slen ds <=? n) eqn:Hkn.
  - apply Z.leb_le in Hkn.
    replace (n <=? 21) with true by (symmetry; apply Z.leb_le; lia).
    cbn [andb].
    rewrite split_dot_plain; [exact Hkn|].
    rewrite every_app, Hnd. cbn [andb].
    apply digits_not_dots, every_zeros.
  - apply Z.leb_gt in Hkn. cbn [andb].
    destruct (0 <? n) eqn:Hpos.
    + replace (n <=? 21) with true by (symmetry; apply Z.leb_le; lia).
      cbn [andb].
      change (JS.take (Z.to_nat n) ds ++ "." ++ JS.drop (Z.to_nat n) ds)
        with (JS.take (Z.to_nat n) ds ++ String "." (JS.drop (Z.to_nat n) ds)).
      rewrite split_dot_at by (apply every_take; exact Hnd).
      rewrite split_dot_plain by (apply every_drop; exact Hnd).
      cbn [nth_error]. split; [exact Hkn|].
      unfold JS.slen in *. rewrite length_drop.
      apply Z.ltb_lt in Hpos. lia.
    + apply Z.ltb_ge in Hpos. cbn [andb].
      replace (-6 <? n) with true by (symmetry; apply Z.ltb_lt; lia).
      replace (n <=? 0) with true by (symmetry; apply Z.leb_le; lia).
      cbn [andb].
      change ("0." ++ JS.zeros (Z.to_nat (- n)) ++ ds)
        with ("0" ++ String "." (JS.zeros (Z.to_nat (- n)) ++ ds)).
      rewrite split_dot_at by reflexivity.
      rewrite split_dot_plain.
      2: { rewrite every_app, Hnd. cbn [andb].
           rewrite andb_true_r. apply digits_not_dots, every_zeros. }
      cbn [nth_error]. split; [exact Hkn|].
      unfold JS.slen in *. rewrite length_app, length_zeros. lia.
Qed.

Lemma view_digits (m e : Z) :
  every JS.is_digit (JS.digits (JS.view_of m e)) = true.
Proof.
  unfold JS.view_of.
  destruct (JS.shortest_digits _ _ _ _ _) as [c p].
  destruct (JS.strip_zeros _ _ _) as [c' p'].
  apply every_decimal.
Qed.

(** [isNaN(x)] and [x <= 0], read off the class of the double. *)
Lemma isNaN_class (x : float) :
  JS.isNaN x = match Prim2SF x with S754_nan => true | _ => false end.
Proof.
  unfold JS.isNaN, PrimFloat.is_nan. rewrite FloatAxioms.eqb_spec.
  unfold SFeqb. destruct (Prim2SF x) as [s|s| |s m e]; cbn [SFcompare negb].
  - reflexivity.
  - now destruct s.
  - reflexivity.
  - destruct s; rewrite Z.compare_refl, Pos.compare_cont_refl; reflexivity.
Qed.

Lemma leb_zero_class (x : float) :
  PrimFloat.leb x 0%float
  = match Prim2SF x with
    | S754_nan => false
    | S754_zero _ => true
    | S754_infinity s => s
    | S754_finite s _ _ => s
    end.
Proof.
  rewrite FloatAxioms.leb_spec.
  change (Prim2SF 0%float) with (S754_zero false).
  unfold SFleb. destruct (Prim2SF x) as [s|s| |s m e]; cbn [SFcompare];
    try reflexivity; now destruct s.
Qed.

Lemma too_many_decimals_plain (x : float) (m : positive) (e : Z) :
  Prim2SF x = S754_finite false m e ->
  -6 < JS.point (JS.view_of (Zpos m) e) <= 21 ->
  TransactionValidator.too_many_decimals x
  = (2 <? fraction_digits (JS.view_of (Zpos m) e)).
Proof.
  intros Hx Hn. unfold TransactionValidator.too_many_decimals, JS.Number_toString.
  rewrite Hx. cbn [append].
  pose proof (render_fraction _ (view_digits (Zpos m) e) Hn) as H.
  unfold fraction_digits.
  destruct (nth_error _ 1) as [piece|].
  - destruct H as [Hlt Hlen]. rewrite Z.max_r by lia. rewrite <- Hlen.
    unfold JS.slen.
    destruct (2 <? String.length piece)%nat eqn:E.
    + apply Nat.ltb_lt in E. symmetry. apply Z.ltb_lt. lia.
    + apply Nat.ltb_ge in E. symmetry. apply Z.ltb_ge. lia.
  - rewrite Z.max_l by lia. reflexivity.
Qed.

(** C4, as the code has it. [validateAmount] rejects, under the field
    [amount], whatever is not a number, NaN, zero and every negative number
    (minus infinity included). It has no test for finiteness: plus infinity
    is accepted. A positive finite amount that [toString] prints in plain
    decimal notation (from 0.000001 up to, not including, 1e21) is accepted
    exactly when it has at most 2 fraction digits. *)
Theorem validateAmount_accepts (amount : JS.value) :
  (forall e,
      TransactionValidator.validateAmount amount = inl e ->
      exists message, e = ValidationError "amount" message)
  /\ (String.eqb (JS.typeof amount) "number" = false ->
      TransactionValidator.validateAmount amount
      = throw (ValidationError "amount" "Amount must be a valid number"))
  /\ (forall x,
        amount = JS.Num x ->
        match Prim2SF x with
        | S754_nan =>
            TransactionValidator.validateAmount amount
            = throw (ValidationError "amount" "Amount must be a valid number")
        | S754_zero _ | S754_infinity true | S754_finite true _ _ =>
            TransactionValidator.validateAmount amount
            = throw (ValidationError "amount" "Amount must be a positive number")
        | S754_infinity false =>
            TransactionValidator.validateAmount amount = ok tt
        | S754_finite false m e =>
            let d := JS.view_of (Zpos m) e in
            -6 < JS.point d <= 21 ->
            (TransactionValidator.validateAmount amount = ok tt
             <-> fraction_digits d <= 2)
        end).
Proof.
  split; [|split].
  - intros e. apply validateAmount_error.
  - destruct amount; cbn; try reflexivity. discriminate.
  - intros x ->. unfold TransactionValidator.validateAmount.
    rewrite isNaN_class, leb_zero_class.
    destruct (Prim2SF x) as [s|[|]| |[|] m e] eqn:Hx; try reflexivity.
    + unfold TransactionValidator.too_many_decimals, JS.Number_toString.
      rewrite Hx. reflexivity.
    + intros Hn.
      rewrite (too_many_decimals_plain x m e Hx Hn).
      destruct (2 <? _) eqn:E.
      * apply Z.ltb_lt in E. split; [discriminate|lia].
      * apply Z.ltb_ge in E. split; [intros _; exact E|reflexivity].
Qed.

End NumberFacts.

(** ** Amounts, run *)

Section AmountRuns.

Import Sample.

(** Plus infinity, which [JSON.parse] reads from a literal such as [1e999],
    is not finite and passes [validateAmount], and [validate] with it. *)
Lemma infinite_amount_is_accepted :
  TransactionValidator.validateAmount (JS.Num infinity) = ok tt
  /\ PrimFloat.is_infinity infinity = true
  /\ JS.parseFloat "1e999" = infinity
  /\ fst (TransactionValidator.validate
            (world_of (payload (JS.Num infinity) "usd" "us")))
     = ok tt.
Proof. vm_compute. repeat split. Qed.

Lemma validateAmount_accepts_witness :
  TransactionValidator.validateAmount (JS.Num 100.5%float) = ok tt
  /\ TransactionValidator.validateAmount (JS.Num 10.005%float)
     <> ok tt.
Proof.
  split.
  - pose proof (proj2 (proj2 (validateAmount_accepts (JS.Num 100.5%float)))
                  100.5%float eq_refl) as H.
    let v := eval vm_compute in (Prim2SF 100.5%float) in
    change (Prim2SF 100.5%float) with v in H.
    cbv iota zeta in H.
    apply H; [split|]; vm_compute; easy.
  - pose proof (proj2 (proj2 (validateAmount_accepts (JS.Num 10.005%float)))
                  10.005%float eq_refl) as H.
    let v := eval vm_compute in (Prim2SF 10.005%float) in
    change (Prim2SF 10.005%float) with v in H.
    cbv iota zeta in H.
    match type of H with
    | ?P -> _ => assert (Hn : P) by (split; vm_compute; easy)
    end.
    intros Hok. pose proof (proj1 (H Hn) Hok) as Hfrac.
    revert Hfrac. clear. vm_compute. intros Hfrac. apply Hfrac. reflexivity.
Defined.

(** The amounts the spec names, and two more. *)
Example validateAmount_examples :
  TransactionValidator.validateAmount (JS.Num 10.005%float)
  = throw (ValidationError "amount" "Amount cannot have more than 2 decimal places")
  /\ TransactionValidator.validateAmount (JS.Num nan)
     = throw (ValidationError "amount" "Amount must be a valid number")
  /\ TransactionValidator.validateAmount (JS.Num 0%float)
     = throw (ValidationError "amount" "Amount must be a positive number")
  /\ TransactionValidator.validateAmount (JS.Num (-5)%float)
     = throw (ValidationError "amount" "Amount must be a positive number")
  /\ TransactionValidator.validateAmount (JS.Num neg_infinity)
     = throw (ValidationError "amount" "Amount must be a positive number")
  /\ TransactionValidator.validateAmount (JS.Str "12.50")
     = throw (ValidationError "amount" "Amount must be a valid number")
  /\ TransactionValidator.validateAmount (JS.Num 2500.75%float) = ok tt.
Proof. vm_compute. repeat split. Qed.

(** Below 0.000001 [toString] switches to exponent notation, and the test on
    the text after the point no longer counts fraction digits: 1e-7 has
    seven and is accepted, 1.5e-7 is rejected for its text [5e-7]. *)
Example validateAmount_exponent_notation :
  JS.Number_toString 1e-7%float = "1e-7"
  /\ TransactionValidator.validateAmount (JS.Num 1e-7%float) = ok tt
  /\ JS.Number_toString 1.5e-7%float = "1.5e-7"
  /\ TransactionValidator.validateAmount (JS.Num 1.5e-7%float)
     = throw (ValidationError "amount" "Amount cannot have more than 2 decimal places").
Proof. vm_compute. repeat split. Qed.

End AmountRuns.

(** ** Regular expressions: the matcher against what a pattern denotes *)

Section RegexFacts.

Import TransactionValidator.

Lemma append_is_empty (a b : string) : a ++ b = "" -> a = "" /\ b = "".
Proof. destruct a; [now cbn|discriminate]. Qed.

Lemma append_assoc (a b c : string) : (a ++ b) ++ c = a ++ b ++ c.
Proof. induction a as [|x a IH]; [reflexivity|]. cbn. now rewrite IH. Qed.

Lemma matches_void_inv (s : string) : matches JS.Void s -> False.
Proof. intros H. remember JS.Void as r. destruct H; discriminate. Qed.

Lemma matches_eps_inv (s : string) : matches JS.Eps s -> s = "".
Proof. intros H. remember JS.Eps as r. destruct H; try discriminate. reflexivity. Qed.

Lemma matches_class_inv (p : ascii -> bool) (s : string) :
  matches (JS.Class p) s -> exists c, s = String c "" /\ p c = true.
Proof.
  intros H. remember (JS.Class p) as r eqn:E. destruct H; try discriminate.
  injection E as ->. eauto.
Qed.

Lemma matches_cat_inv (r1 r2 : JS.regex) (s : string) :
  matches (JS.Cat r1 r2) s ->
  exists s1 s2, s = s1 ++ s2 /\ matches r1 s1 /\ matches r2 s2.
Proof.
  intros H. remember (JS.Cat r1 r2) as r eqn:E. destruct H; try discriminate.
  injection E as -> ->. eauto.
Qed.

Lemma matches_alt_inv (r1 r2 : JS.regex) (s : string) :
  matches (JS.Alt r1 r2) s -> matches r1 s \/ matches r2 s.
Proof.
  intros H. remember (JS.Alt r1 r2) as r eqn:E. destruct H; try discriminate;
    injection E as -> ->; auto.
Qed.

Lemma nullable_matches (r : JS.regex) :
  JS.nullable r = true <-> matches r "".
Proof.
  induction r as [| |p|r1 IH1 r2 IH2|r1 IH1 r2 IH2|r IH]; cbn [JS.nullable].
  - split; [discriminate|]. intros H. now apply matches_void_inv in H.
  - split; [constructor|reflexivity].
  - split; [discriminate|]. intros H. apply matches_class_inv in H.
    destruct H as [c [H _]]. discriminate.
  - rewrite andb_true_iff, IH1, IH2. split.
    + intros [H1 H2]. exact (matches_cat _ _ "" "" H1 H2).
    + intros H. apply matches_cat_inv in H.
      destruct H as [s1 [s2 [E [H1 H2]]]]. symmetry in E.
      apply append_is_empty in E. destruct E as [-> ->]. now split.
  - rewrite orb_true_iff, IH1, IH2. split.
    + intros [H|H]; [now apply matches_alt_l|now apply matches_alt_r].
    + apply matches_alt_inv.
  - split; [constructor|reflexivity].
Qed.

(** A match of [Star r] on a string that starts with [c] starts with a match
    of [r] that starts with [c]. *)
Lemma star_unfold (r : JS.regex) (c : ascii) (s : string) :
  matches (JS.Star r) (String c s) ->
  exists s1 s2,
    s = s1 ++ s2 /\ matches r (String c s1) /\ matches (JS.Star r) s2.
Proof.
  intros H. remember (JS.Star r) as r' eqn:Er.
  remember (String c s) as cs eqn:Et.
  revert s Et. induction H as [| | | | | |r0 s1 s2 H1 _ H2 IH2];
    intros t Et; try discriminate.
  injection Er as ->. destruct s1 as [|c1 s1].
  - cbn in Et. now apply IH2.
  - cbn in Et. injection Et as -> <-. now exists s1, s2.
Qed.

Lemma deriv_matches (r : JS.regex) :
  forall (c : ascii) (s : string),
    matches (JS.deriv c r) s <-> matches r (String c s).
Proof.
  induction r as [| |p|r1 IH1 r2 IH2|r1 IH1 r2 IH2|r IH]; intros c s;
    cbn [JS.deriv].
  - split; intros H; now apply matches_void_inv in H.
  - split; intros H; [now apply matches_void_inv in H|].
    apply matches_eps_inv in H. discriminate.
  - destruct (p c) eqn:Hp; split; intros H.
    + apply matches_eps_inv in H. subst s. now constructor.
    + apply matches_class_inv in H. destruct H as [c' [E _]].
      injection E as _ ->. constructor.
    + now apply matches_void_inv in H.
    + apply matches_class_inv in H. destruct H as [c' [E Hc]].
      injection E as <- _. congruence.
  - assert (Hcat : matches (JS.Cat (JS.deriv c r1) r2) s
                   -> matches (JS.Cat r1 r2) (String c s)).
    { intros H. apply matches_cat_inv in H.
      destruct H as [s1 [s2 [-> [H1 H2]]]].
      apply IH1 in H1. exact (matches_cat _ _ (String c s1) s2 H1 H2). }
    assert (Hsplit : matches (JS.Cat r1 r2) (String c s)
                     -> matches (JS.Cat (JS.deriv c r1) r2) s
                        \/ (matches r1 "" /\ matches r2 (String c s))).
    { intros H. apply matches_cat_inv in H.
      destruct H as [s1 [s2 [E [H1 H2]]]].
      destruct s1 as [|c1 s1].
      - right. cbn in E. subst s2. now split.
      - left. cbn in E. injection E as <- ->.
        apply IH1 in H1. now constructor. }
    destruct (JS.nullable r1) eqn:Hn; split; intros H.
    + apply matches_alt_inv in H. destruct H as [H|H]; [now apply Hcat|].
      apply IH2 in H.
      exact (matches_cat _ _ "" (String c s)
               (proj1 (nullable_matches r1) Hn) H).
    + destruct (Hsplit H) as [Hl|[_ Hr]];
        [now apply matches_alt_l|apply matches_alt_r; now apply IH2].
    + now apply Hcat.
    + destruct (Hsplit H) as [Hl|[Hr _]]; [exact Hl|].
      apply nullable_matches in Hr. congruence.
  - split; intros H; apply matches_alt_inv in H; destruct H as [H|H].
    + apply matches_alt_l. now apply IH1.
    + apply matches_alt_r. now apply IH2.
    + apply matches_alt_l. now apply IH1.
    + apply matches_alt_r. now apply IH2.
  - split; intros H.
    + apply matches_cat_inv in H. destruct H as [s1 [s2 [-> [H1 H2]]]].
      apply IH in H1. exact (matches_star_cons _ (String c s1) s2 H1 H2).
    + apply star_unfold in H. destruct H as [s1 [s2 [-> [H1 H2]]]].
      apply IH in H1. now constructor.
Qed.

(** The matcher decides the language of the pattern. *)
Lemma test_matches (r : JS.regex) (s : string) :
  JS.test r s = true <-> matches r s.
Proof.
  revert r; induction s as [|c s IH]; intros r; cbn [JS.test].
  - apply nullable_matches.
  - rewrite IH. apply deriv_matches.
Qed.

Lemma matches_star_class (p : ascii -> bool) (s : string) :
  matches (JS.Star (JS.Class p)) s <-> every p s = true.
Proof.
  split.
  - intros H. remember (JS.Star (JS.Class p)) as r eqn:Er.
    induction H as [| | | | | |r0 s1 s2 H1 _ H2 IH2]; try discriminate.
    + reflexivity.
    + injection Er as ->. apply matches_class_inv in H1.
      destruct H1 as [c [-> Hc]]. cbn [append every]. rewrite Hc.
      now apply IH2.
  - induction s as [|c s IH]; [constructor|].
    cbn [every]. intros H. apply andb_true_iff in H. destruct H as [Hc Hs].
    exact (matches_star_cons _ (String c "") s (matches_class p c Hc) (IH Hs)).
Qed.

Lemma matches_plus_class (p : ascii -> bool) (s : string) :
  matches (JS.Plus (JS.Class p)) s <-> s <> "" /\ every p s = true.
Proof.
  unfold JS.Plus. split.
  - intros H. apply matches_cat_inv in H.
    destruct H as [s1 [s2 [-> [H1 H2]]]].
    apply matches_class_inv in H1. destruct H1 as [c [-> Hc]].
    apply matches_star_class in H2.
    cbn [append every]. split; [discriminate|]. now rewrite Hc.
  - intros [Hne H]. destruct s as [|c s]; [contradiction|].
    cbn [every] in H. apply andb_true_iff in H. destruct H as [Hc Hs].
    apply (matches_cat _ _ (String c "") s); [now constructor|].
    now apply matches_star_class.
Qed.

Lemma matches_chr (c : ascii) (s : string) :
  matches (JS.Chr c) s <-> s = String c "".
Proof.
  unfold JS.Chr. split.
  - intros H. apply matches_class_inv in H. destruct H as [c' [-> Hc]].
    apply Ascii.eqb_eq in Hc. now subst.
  - intros ->. constructor. apply Ascii.eqb_refl.
Qed.

End RegexFacts.

(** ** The validator: what the two patterns let through *)

Section ValidatorShapes.

Import TransactionValidator.

Lemma is_upper_upper_char (c : ascii) :
  JS.is_upper (JS.upper_char c) = is_letter c.
Proof. destruct c as [[|] [|] [|] [|] [|] [|] [|] [|]]; reflexivity. Qed.

Lemma matches_cat_iff (r1 r2 : JS.regex) (s : string) :
  matches (JS.Cat r1 r2) s
  <-> exists s1 s2, s = s1 ++ s2 /\ matches r1 s1 /\ matches r2 s2.
Proof.
  split; [apply matches_cat_inv|].
  intros [s1 [s2 [-> [H1 H2]]]]. now constructor.
Qed.

Lemma matches_iso2 (s : string) :
  matches iso2Regex s
  <-> exists x y,
        s = String x (String y "")
        /\ JS.is_upper x = true /\ JS.is_upper y = true.
Proof.
  unfold iso2Regex. rewrite matches_cat_iff. split.
  - intros [s1 [s2 [-> [H1 H2]]]].
    apply matches_class_inv in H1. destruct H1 as [x [-> Hx]].
    apply matches_class_inv in H2. destruct H2 as [y [-> Hy]].
    now exists x, y.
  - intros [x [y [-> [Hx Hy]]]].
    exists (String x ""), (String y "").
    repeat split; now constructor.
Qed.

Lemma iso2_of_upper_case (s : string) :
  JS.test iso2Regex (JS.toUpperCase s) = true
  <-> is_country_code (JS.Str s).
Proof.
  rewrite test_matches, matches_iso2. unfold is_country_code. split.
  - intros [x [y [E [Hx Hy]]]].
    destruct s as [|a [|b [|c s]]]; try discriminate E.
    cbn in E. injection E as <- <-. exists a, b.
    now rewrite <- !is_upper_upper_char.
  - intros [a [b [[= ->] [Ha Hb]]]].
    exists (JS.upper_char a), (JS.upper_char b).
    now rewrite !is_upper_upper_char.
Qed.

Lemma validateCountry_accepts (country : JS.value) (index : Z) :
  validateCountry country index = ok tt <-> is_country_code country.
Proof.
  destruct country as [| |b|x|s|props|items];
    try (split; [discriminate|intros [a [b' [H _]]]; discriminate H]).
  rewrite <- iso2_of_upper_case. unfold validateCountry.
  destruct s as [|c s].
  - split; discriminate.
  - cbn [JS.truthy String.eqb negb].
    destruct (JS.test iso2Regex _); split; (reflexivity || discriminate).
Qed.

(** X2. [validateCountryCodes] lets a list of countries through exactly
    when every one of them is a string of two letters, capital or small
    (for strings of ASCII characters): the codes are upper-cased before the
    pattern [^[A-Z]{2}$] is tried, so [us] passes as [US] does, while a code
    of one or three letters, or with a digit, is refused. *)
Theorem validateCountryCodes_accepts_two_letters (countries : list JS.value) :
  (forall s, In (JS.Str s) countries -> every is_ascii s = true) ->
  validateCountryCodes countries = ok tt
  <-> Forall is_country_code countries.
Proof.
  intros _. unfold validateCountryCodes. generalize 0 as index.
  induction countries as [|country rest IH]; intros index;
    cbn [forEach_country].
  - split; [constructor|reflexivity].
  - pose proof (validateCountry_accepts country index) as Hc.
    destruct (validateCountry country index) as [e|[]].
    + split; [discriminate|]. intros H. inversion H as [|? ? H1 H2]; subst.
      apply Hc in H1. discriminate H1.
    + rewrite IH. split.
      * intros H. constructor; [now apply Hc|exact H].
      * intros H. now inversion H.
Qed.

Lemma validateCountryCodes_accepts_two_letters_witness :
  validateCountryCodes [JS.Str "us"; JS.Str "IN"] = ok tt
  <-> Forall is_country_code [JS.Str "us"; JS.Str "IN"].
Proof.
  apply (validateCountryCodes_accepts_two_letters [JS.Str "us"; JS.Str "IN"]).
  intros s [[= <-]|[[= <-]|[]]]; reflexivity.
Defined.

Lemma matches_word (s : string) :
  matches (JS.Plus (JS.Class not_space_or_at)) s <-> is_word s.
Proof. apply matches_plus_class. Qed.

Lemma matches_email (s : string) : matches emailRegex s <-> is_email s.
Proof.
  unfold emailRegex, is_email. rewrite matches_cat_iff. split.
  - intros [local [s1 [-> [Hl H]]]].
    apply matches_cat_inv in H. destruct H as [at_ [s2 [-> [Ha H]]]].
    apply matches_chr in Ha. subst at_.
    apply matches_cat_inv in H. destruct H as [domain [s3 [-> [Hd H]]]].
    apply matches_cat_inv in H. destruct H as [dot [tld [-> [Hp Ht]]]].
    apply matches_chr in Hp. subst dot.
    exists local, domain, tld.
    rewrite matches_word in Hl, Hd, Ht.
    split; [reflexivity|]. split; [exact Hl|]. split; [exact Hd|exact Ht].
  - intros [local [domain [tld [-> [Hl [Hd Ht]]]]]].
    rewrite <- matches_word in Hl, Hd, Ht.
    exists local, ("@" ++ domain ++ "." ++ tld). split; [reflexivity|].
    split; [exact Hl|].
    apply (matches_cat _ _ "@" (domain ++ "." ++ tld));
      [now apply matches_chr|].
    apply (matches_cat _ _ domain ("." ++ tld)); [exact Hd|].
    apply (matches_cat _ _ "." tld); [now apply matches_chr|exact Ht].
Qed.

(** X1. [validateEmail] lets a value through exactly when it is a string
    of the shape [local@domain.tld] (for strings of ASCII characters), each
    of the three parts being non-empty and free of white space and of [@];
    the parts may hold further dots. Anything else is refused: a value that
    is not a string, the empty string, an address without [@] or with two,
    one with no dot after the [@], one with a blank in it. *)
Theorem validateEmail_accepts_local_at_domain_dot_tld
    (email : JS.value) (fieldName : string) :
  (forall s, email = JS.Str s -> every is_ascii s = true) ->
  validateEmail email fieldName = ok tt
  <-> exists s, email = JS.Str s /\ is_email s.
Proof.
  intros _.
  destruct email as [| |b|x|s|props|items];
    try (split; [discriminate|intros [s' [H _]]; discriminate H]).
  unfold validateEmail. destruct s as [|c s].
  - split; [discriminate|]. intros [s' [[= <-] [l [d [t [E [[Hl _] _]]]]]]].
    destruct l; [now destruct Hl|discriminate E].
  - cbn [JS.truthy String.eqb negb].
    pose proof (test_matches emailRegex (String c s)) as Ht.
    rewrite matches_email in Ht.
    destruct (JS.test emailRegex _); cbn [negb].
    + split; [|reflexivity]. intros _. exists (String c s).
      split; [reflexivity|]. now apply Ht.
    + split; [discriminate|]. intros [s' [[= <-] He]].
      apply Ht in He. discriminate He.
Qed.

Lemma validateEmail_accepts_local_at_domain_dot_tld_witness :
  validateEmail (JS.Str "a.b@mail.example.com") "sender.email" = ok tt
  <-> exists s, JS.Str "a.b@mail.example.com" = JS.Str s /\ is_email s.
Proof.
  apply (validateEmail_accepts_local_at_domain_dot_tld
           (JS.Str "a.b@mail.example.com") "sender.email").
  intros s [= <-]. reflexivity.
Defined.

End ValidatorShapes.

(** ** Idempotency: the lookups, redelivery, and what the tables keep *)

Section IdempotencyFacts.

Import Entities WebhookService.

Lemma find_existsb {A} (f : A -> bool) (l : list A) :
  find f l = None <-> existsb f l = false.
Proof.
  induction l as [|x l IH]; cbn; [tauto|].
  destruct (f x); cbn; [split; discriminate|exact IH].
Qed.

Lemma existsb_false {A} (f : A -> bool) (l : list A) :
  existsb f l = false <-> forall x, In x l -> f x = false.
Proof.
  induction l as [|y l IH]; cbn.
  - split; [intros _ x []|reflexivity].
  - rewrite orb_false_iff, IH. split.
    + intros [Hy Hl] x [<-|Hx]; auto.
    + intros H. split; [apply H; now left|]. intros x Hx. apply H. now right.
Qed.


(** X3. [checkDuplicate] writes nothing. When its lookups succeed, it
    returns exactly when no stored row has the event id and none has the
    transaction id; otherwise it throws a DuplicateTransactionError that
    carries a stored row with one of the two, and the row with the event id
    whenever there is one, the lookup by event id coming first. *)
Theorem checkDuplicate_reports_a_stored_row (env : Env)
    (eventId transactionId : JS.value) (w : World) :
  lookup_fails env = false ->
  let run := checkDuplicate env eventId transactionId w in
  snd run = w
  /\ (fst run = ok tt
      <-> forall row,
            In row (transactions w) ->
            Repository.has_event_id eventId row = false
            /\ Repository.has_transaction_id transactionId row = false)
  /\ (forall e, fst run = inl e ->
        exists existing,
          e = DuplicateTransactionError existing
          /\ In existing (transactions w)
          /\ (Repository.has_event_id eventId existing = true
              \/ Repository.has_transaction_id transactionId existing = true)
          /\ (existsb (Repository.has_event_id eventId) (transactions w) = true
              -> Repository.has_event_id eventId existing = true)).
Proof.
  intros Hlookup run. subst run. rewrite checkDuplicate_run. cbn [fst snd].
  split; [reflexivity|]. unfold precheck. rewrite Hlookup.
  destruct (find (Repository.has_event_id eventId) (transactions w))
    as [byEvent|] eqn:He.
  - apply find_some in He. destruct He as [Hin Hhas]. split.
    + split; [discriminate|]. intros H. destruct (H _ Hin) as [H1 _]. congruence.
    + intros e [= <-]. exists byEvent. auto.
  - apply find_existsb in He.
    destruct (find (Repository.has_transaction_id transactionId) (transactions w))
      as [byTxn|] eqn:Ht.
    + apply find_some in Ht. destruct Ht as [Hin Hhas]. split.
      * split; [discriminate|]. intros H. destruct (H _ Hin) as [_ H2]. congruence.
      * intros e [= <-]. exists byTxn. repeat split; auto. congruence.
    + apply find_existsb in Ht. split; [|discriminate].
      split; [|reflexivity]. intros _ row Hin.
      split; [exact (proj1 (existsb_false _ _) He row Hin)
             |exact (proj1 (existsb_false _ _) Ht row Hin)].
Qed.

Lemma checkDuplicate_reports_a_stored_row_witness :
  exists existing,
    fst (checkDuplicate Sample.env (JS.Str "evt_8f7d6e5c4b3a2")
           (JS.Str "txn_new")
           (Repository.set_transactions Sample.empty_world
              [Sample.other_delivery]))
    = inl (DuplicateTransactionError existing)
    /\ In existing [Sample.other_delivery].
Proof.
  destruct (proj2 (proj2
              (checkDuplicate_reports_a_stored_row Sample.env
                 (JS.Str "evt_8f7d6e5c4b3a2") (JS.Str "txn_new")
                 (Repository.set_transactions Sample.empty_world
                    [Sample.other_delivery]) eq_refl))
              (DuplicateTransactionError Sample.other_delivery) eq_refl)
    as [existing [E [Hin _]]].
  exists existing. split; [|exact Hin]. rewrite <- E. reflexivity.
Defined.

(** A validated payload is an object whose [data] is an object: the reads
    the service makes after [validate] do not throw. *)
Lemma checks_reads (payload : JS.value) :
  checks payload = ok tt ->
  nullish payload = false
  /\ get payload "event_id" = ok (JS.get_opt payload "event_id")
  /\ exists data,
       get payload "data" = ok data
       /\ nullish data = false
       /\ forall k, TransactionValidator.get2 payload "data" k
                    = ok (JS.get_opt data k).
Proof.
  intros H. apply checks_ok in H.
  destruct H as [entries [amount [c [st [sc [rc [se [re H]]]]]]]].
  destruct H as [_ [_ [Ha _]]].
  unfold TransactionValidator.get2 in *.
  assert (Hn : nullish payload = false).
  { destruct payload; try reflexivity; discriminate Ha. }
  split; [exact Hn|]. split; [now apply get_not_nullish|].
  destruct (get payload "data") as [e|data]; [discriminate Ha|].
  assert (Hd : nullish data = false).
  { destruct data; try reflexivity; discriminate Ha. }
  exists data. split; [reflexivity|]. split; [exact Hd|].
  intros k. now apply get_not_nullish.
Qed.


(** A run that stops before the insert throws what stopped it and leaves
    the table as it was. *)
Lemma processWebhook_stopped (env : Env) (w : World) (e : error) :
  planned env (body w) (transactions w) = inl e ->
  fst (processWebhook env w) = inl e
  /\ transactions (snd (processWebhook env w)) = transactions w
  /\ fst (WebhookRoutes.payment_handler env w) = inr (response_for e).
Proof.
  intros Hp.
  assert (H : fst (processWebhook env w) = inl e
              /\ transactions (snd (processWebhook env w)) = transactions w).
  { rewrite processWebhook_run, attempt_run.
    destruct (logged_frame env "received" None w) as [-> ->]. rewrite Hp.
    cbn [fst snd]. split; [reflexivity|].
    now rewrite !(proj1 (logged_frame _ _ _ _)). }
  destruct H as [H1 H2]. split; [exact H1|]. split; [exact H2|].
  rewrite (proj1 (payment_handler_run env w)), H1. reflexivity.
Qed.






Lemma keys_unique_nil : keys_unique [].
Proof. intros before row after E. destruct before; discriminate E. Qed.

Lemma keys_unique_snoc (rows : list Transaction) (row : Transaction) :
  keys_unique rows ->
  existsb (Repository.has_event_id (event_id row)) rows = false ->
  existsb (Repository.has_transaction_id (transaction_id row)) rows = false ->
  keys_unique (rows ++ [row]).
Proof.
  intros Hu He Ht before r after E.
  destruct after as [|x after] using rev_ind.
  - apply app_inj_tail in E. destruct E as [<- <-]. now split.
  - clear IHafter.
    change (before ++ r :: after ++ [x])%list
      with (before ++ (r :: after) ++ [x])%list in E.
    rewrite List.app_assoc in E. apply app_inj_tail in E.
    destruct E as [E _]. exact (Hu _ _ _ E).
Qed.

Lemma insert_keeps_unique (env : Env) (t row : Transaction)
    (rows : list Transaction) :
  keys_unique rows ->
  Repository.insert env t rows = ok row ->
  keys_unique (rows ++ [row]).
Proof.
  intros Hu Hins. apply insert_fields in Hins.
  destruct Hins as [_ [_ [_ [He [Hx [_ [_ [_ [_ [H1 H2]]]]]]]]]].
  apply keys_unique_snoc; [exact Hu|now rewrite He|now rewrite Hx].
Qed.

Lemma commit_all_keeps_unique (env : Env) (others rows : list Transaction) :
  keys_unique rows -> keys_unique (Repository.commit_all env others rows).
Proof.
  revert rows. induction others as [|t rest IH]; intros rows Hu; [exact Hu|].
  cbn [Repository.commit_all].
  destruct (Repository.insert env t rows) as [e|row] eqn:Hins;
    [now apply IH|].
  apply IH. eapply insert_keeps_unique; eauto.
Qed.

Lemma commit_all_extends (env : Env) (others rows : list Transaction) :
  exists added,
    Repository.commit_all env others rows = (rows ++ added)%list
    /\ (List.length added <= List.length others)%nat.
Proof.
  revert rows. induction others as [|t rest IH]; intros rows.
  - exists []. now rewrite List.app_nil_r.
  - cbn [Repository.commit_all].
    destruct (Repository.insert env t rows) as [e|row].
    + destruct (IH rows) as [added [-> Hlen]]. exists added.
      split; [reflexivity|]. cbn [List.length]. lia.
    + destruct (IH (rows ++ [row])%list) as [added [-> Hlen]].
      exists (row :: added). rewrite <- List.app_assoc.
      split; [reflexivity|]. cbn [List.length]. lia.
Qed.

(** The table a run leaves, by its result. *)
Lemma processWebhook_table (env : Env) (w : World) :
  match fst (processWebhook env w) with
  | inr t =>
      exists transaction,
        Repository.insert env transaction (table_at_insert env w) = ok t
        /\ transactions (snd (processWebhook env w))
           = (table_at_insert env w ++ [t])%list
  | inl e =>
      transactions (snd (processWebhook env w)) = transactions w
      \/ transactions (snd (processWebhook env w)) = table_at_insert env w
  end.
Proof.
  destruct (processWebhook env w) as [[e|t] w'] eqn:H; cbn [fst snd].
  - apply processWebhook_failure in H.
    destruct H as [[_ H]|[transaction [_ [_ H]]]]; auto.
  - apply processWebhook_success in H.
    destruct H as [transaction [_ [Hins [H _]]]]. eauto.
Qed.

(** The tables a request leaves: those of the run when the request gets to
    the service, and the ones it found otherwise. *)
Lemma post_payment_tables
    (hmac : string -> string -> string) (validator : SignatureValidator.t)
    (env : Env) (req : WebhookRoutes.Request) (w : World) :
  let after := snd (WebhookRoutes.post_payment hmac validator env req w) in
  match WebhookRoutes.parsed req,
        WebhookRoutes.verifySignature hmac validator env req with
  | Some payload, WebhookRoutes.Next =>
      transactions after
      = transactions (snd (processWebhook env (WebhookRoutes.set_body w payload)))
      /\ audit_logs after
         = audit_logs (snd (processWebhook env (WebhookRoutes.set_body w payload)))
  | _, _ => transactions after = transactions w /\ audit_logs after = audit_logs w
  end.
Proof.
  unfold WebhookRoutes.post_payment.
  destruct (WebhookRoutes.parsed req) as [payload|]; [|now cbn].
  destruct (WebhookRoutes.verifySignature _ _ _ _); [now cbn|].
  pose proof (payment_handler_run env (WebhookRoutes.set_body w payload))
    as [_ [Ht [Hl _]]].
  destruct (WebhookRoutes.payment_handler _ _) as [[e|res] w'];
    cbn [snd] in *; now split.
Qed.

Lemma processWebhook_keeps_unique (env : Env) (w : World) :
  keys_unique (transactions w) ->
  keys_unique (transactions (snd (processWebhook env w))).
Proof.
  intros Hu. pose proof (processWebhook_table env w) as H.
  assert (Hc : keys_unique (table_at_insert env w))
    by now apply commit_all_keeps_unique.
  destruct (fst (processWebhook env w)) as [e|t].
  - destruct H as [->| ->]; assumption.
  - destruct H as [transaction [Hins ->]]. eapply insert_keeps_unique; eauto.
Qed.

(** X6. No two stored transactions share an [event_id] or a
    [transaction_id]: a table that has the property keeps it through every
    request, whatever the request's outcome and whatever other requests
    commit meanwhile. Every row is written by the insert behind [save], which
    the two UNIQUE columns of the entity guard. *)
Theorem stored_keys_stay_unique
    (hmac : string -> string -> string) (validator : SignatureValidator.t)
    (env : Env) (req : WebhookRoutes.Request) (w : World) :
  keys_unique (transactions w) ->
  keys_unique (transactions (snd (processWebhook env w)))
  /\ keys_unique
       (transactions (snd (WebhookRoutes.post_payment hmac validator env req w))).
Proof.
  intros Hu. split; [now apply processWebhook_keeps_unique|].
  pose proof (post_payment_tables hmac validator env req w) as H.
  cbv zeta in H.
  destruct (WebhookRoutes.parsed req) as [payload|];
    [|destruct H as [-> _]; exact Hu].
  destruct (WebhookRoutes.verifySignature _ _ _ _);
    destruct H as [-> _]; [exact Hu|].
  now apply processWebhook_keeps_unique.
Qed.

Lemma stored_keys_stay_unique_witness :
  keys_unique
    (transactions
       (snd (WebhookRoutes.post_payment Sample.keyed_digest Sample.validator
               Sample.racing_env (Sample.signed_request Sample.good_payload)
               Sample.empty_world))).
Proof.
  exact (proj2 (stored_keys_stay_unique Sample.keyed_digest Sample.validator
                  Sample.racing_env (Sample.signed_request Sample.good_payload)
                  Sample.empty_world keys_unique_nil)).
Defined.

Lemma logged_appends (env : Env) (status : string) (error : option error)
    (w : World) :
  exists rows,
    audit_logs (logged env status error w) = (audit_logs w ++ rows)%list
    /\ (List.length rows <= 1)%nat.
Proof.
  unfold logged. destruct (nullish (body w)).
  - exists []. cbn. rewrite List.app_nil_r. auto.
  - destruct (audit_fails env (audit_writes w)).
    + exists []. cbn. rewrite List.app_nil_r. auto.
    + eexists [_]. cbn. auto.
Qed.

Lemma processWebhook_appends (env : Env) (w : World) :
  (exists added,
      transactions (snd (processWebhook env w)) = (transactions w ++ added)%list
      /\ (List.length added <= List.length (concurrent env) + 1)%nat)
  /\ (exists logs,
        audit_logs (snd (processWebhook env w)) = (audit_logs w ++ logs)%list
        /\ (List.length logs <= 2)%nat).
Proof.
  split.
  - pose proof (processWebhook_table env w) as H.
    destruct (commit_all_extends env (concurrent env) (transactions w))
      as [others [Hc Hlen]].
    fold (table_at_insert env w) in Hc.
    destruct (fst (processWebhook env w)) as [e|t].
    + destruct H as [->| ->].
      * exists []. rewrite List.app_nil_r. split; [reflexivity|cbn; lia].
      * exists others. split; [exact Hc|lia].
    + destruct H as [transaction [_ ->]]. exists (others ++ [t])%list.
      rewrite Hc, <- List.app_assoc. split; [reflexivity|].
      rewrite List.length_app. cbn. lia.
  - rewrite processWebhook_run.
    destruct (logged_appends env "received" None w) as [r1 [H1 L1]].
    pose proof (attempt_frame env (logged env "received" None w)) as [Ha _].
    destruct (attempt env _) as [[e|t] w2]; cbn [snd] in *.
    + destruct (logged_appends env "failed" (Some e) w2) as [r2 [H2 L2]].
      exists (r1 ++ r2)%list. rewrite H2, Ha, H1, <- List.app_assoc.
      split; [reflexivity|]. rewrite List.length_app. lia.
    + destruct (logged_appends env "processed" None w2) as [r2 [H2 L2]].
      exists (r1 ++ r2)%list. rewrite H2, Ha, H1, <- List.app_assoc.
      split; [reflexivity|]. rewrite List.length_app. lia.
Qed.

(** X7. Both tables only grow: whatever a request is and however it ends,
    the transactions and the audit rows that were stored before it are
    still there after it, unchanged and in place. The request adds at most
    two audit rows, and the transactions added are those other requests
    committed meanwhile and at most one of its own. *)
Theorem stored_rows_are_never_changed
    (hmac : string -> string -> string) (validator : SignatureValidator.t)
    (env : Env) (req : WebhookRoutes.Request) (w : World) :
  let after := snd (WebhookRoutes.post_payment hmac validator env req w) in
  (exists added,
      transactions after = (transactions w ++ added)%list
      /\ (List.length added <= List.length (concurrent env) + 1)%nat)
  /\ (exists logs,
        audit_logs after = (audit_logs w ++ logs)%list
        /\ (List.length logs <= 2)%nat).
Proof.
  pose proof (post_payment_tables hmac validator env req w) as H.
  cbv zeta in *.
  assert (Hsame :
            forall after : World,
              transactions after = transactions w ->
              audit_logs after = audit_logs w ->
              (exists added,
                  transactions after = (transactions w ++ added)%list
                  /\ (List.length added <= List.length (concurrent env) + 1)%nat)
              /\ (exists logs,
                    audit_logs after = (audit_logs w ++ logs)%list
                    /\ (List.length logs <= 2)%nat)).
  { intros after -> ->. split; exists []; rewrite List.app_nil_r;
      (split; [reflexivity|cbn; lia]). }
  destruct (WebhookRoutes.parsed req) as [payload|];
    [|destruct H; now apply Hsame].
  destruct (WebhookRoutes.verifySignature _ _ _ _);
    [destruct H; now apply Hsame|].
  destruct H as [-> ->].
  exact (processWebhook_appends env (WebhookRoutes.set_body w payload)).
Qed.

End IdempotencyFacts.

(** ** The signature middleware and the signature generator *)

Section MiddlewareFacts.

Import SignatureValidator WebhookRoutes.

Variable hmac_sha256_hex : string -> string -> string.

Variable signatureValidator : SignatureValidator.t.

Lemma answer_of_verify (sig expected : string) :
  sig <> "" ->
  (if negb (String.eqb sig expected)
   then Respond (unauthorized "Invalid webhook signature")
   else Next) = Next
  <-> exists signature,
        Some sig = Some signature /\ signature <> "" /\ signature = expected.
Proof.
  intros Hne. destruct (String.eqb sig expected) eqn:E; cbn [negb].
  - apply String.eqb_eq in E. split; [|reflexivity]. intros _. now exists sig.
  - apply String.eqb_neq in E. split; [discriminate|].
    intros [s [[= <-] [_ H]]]. contradiction.
Qed.

(** X8. The middleware lets a request through in two cases only. With no
    timestamp header, or an empty one, the signature has to be the HMAC of
    the raw body, and the time plays no part. With a timestamp header, the
    timestamp has to parse to a time no more than 300 seconds from now and
    the signature has to be the HMAC of [<timestamp>.<raw body>]. Every
    request it answers itself gets 401, with [Missing webhook signature]
    when the signature header is absent or empty and [Invalid webhook
    signature] otherwise. *)
Theorem verifySignature_lets_through (env : Env) (req : Request) :
  (verifySignature hmac_sha256_hex signatureValidator env req = Next
   <-> exists signature,
         x_webhook_signature req = Some signature
         /\ signature <> ""
         /\ match x_webhook_timestamp req with
            | Some (String c rest as timestamp) =>
                exists payloadTime,
                  JS.parseInt timestamp = Some payloadTime
                  /\ Z.abs (now env / 1000 - payloadTime) <= 300
                  /\ signature
                     = hmac_sha256_hex (secret signatureValidator)
                         (timestamp ++ "." ++ rawBody req)
            | _ =>
                signature
                = hmac_sha256_hex (secret signatureValidator) (rawBody req)
            end)
  /\ (forall res,
        verifySignature hmac_sha256_hex signatureValidator env req = Respond res ->
        status_code res = 401
        /\ res = unauthorized
                   (match x_webhook_signature req with
                    | Some (String _ _) => "Invalid webhook signature"
                    | _ => "Missing webhook signature"
                    end)).
Proof.
  unfold verifySignature.
  destruct (x_webhook_signature req) as [[|c signature]|].
  - cbn [String.eqb]. split.
    + split; [discriminate|]. intros [s [[= <-] [H _]]]. now destruct H.
    + intros res [= <-]. now split.
  - cbn [String.eqb].
    remember (String c signature) as sig eqn:Hsig.
    assert (Hne : sig <> "") by (subst sig; discriminate).
    cbv iota.
    split; [clear Hsig c signature|subst sig].
    + destruct (x_webhook_timestamp req) as [[|d timestamp]|];
        cbn [String.eqb].
      * rewrite verify_is_eqb. now apply answer_of_verify.
      * unfold verifyWithTimestamp, DEFAULT_TOLERANCE.
        destruct (JS.parseInt (String d timestamp)) as [payloadTime|].
        -- destruct (300 <? Z.abs (now env / 1000 - payloadTime)) eqn:Hfar.
           ++ cbn [negb]. split; [discriminate|].
              intros [s [_ [_ [t [[= <-] [Hnear _]]]]]].
              apply Z.ltb_lt in Hfar. lia.
           ++ apply Z.ltb_ge in Hfar. rewrite verify_is_eqb.
              rewrite (answer_of_verify _ _ Hne). split.
              ** intros [s [[= <-] [_ H]]]. exists sig.
                 split; [reflexivity|]. split; [exact Hne|].
                 exists payloadTime. auto.
              ** intros [s [[= <-] [_ [t [_ [_ H]]]]]]. exists sig. auto.
        -- cbn [negb]. split; [discriminate|].
           intros [s [_ [_ [t [H _]]]]]. discriminate H.
      * rewrite verify_is_eqb. now apply answer_of_verify.
    + intros res H.
      destruct (negb _); [|discriminate]. injection H as <-. now split.
  - split.
    + split; [discriminate|]. intros [s [H _]]. discriminate H.
    + intros res [= <-]. now split.
Qed.

End MiddlewareFacts.

Section GeneratorFacts.

Import SignatureValidator WebhookRoutes.

Variable hmac_sha256_hex : string -> string -> string.

Lemma digit_is_not_x (c : ascii) :
  JS.is_digit c = true -> Ascii.eqb c "x" || Ascii.eqb c "X" = false.
Proof.
  destruct c as [[|] [|] [|] [|] [|] [|] [|] [|]];
    intros H; try discriminate H; reflexivity.
Qed.

(** [parseInt] on a string of digits reads all of them. *)
Lemma parseInt_digits (s : string) :
  s <> "" -> every JS.is_digit s = true ->
  JS.parseInt s = Some (JS.digits_value s).
Proof.
  destruct s as [|c s]; [contradiction|]. intros _ H.
  pose proof H as Hall.
  cbn [every] in H. apply andb_true_iff in H. destruct H as [Hc Hs].
  unfold JS.parseInt.
  destruct (digit_starts_a_number c s Hc) as [-> [-> _]].
  pose proof (span_digits_all (String c s) "" Hall (or_intror eq_refl)) as Hspan.
  rewrite append_empty in Hspan. rewrite Hspan. cbn [String.eqb].
  destruct s as [|x rest].
  - destruct c as [[|] [|] [|] [|] [|] [|] [|] [|]]; reflexivity.
  - cbn [every] in Hs. apply andb_true_iff in Hs. destruct Hs as [Hx _].
    pose proof (digit_is_not_x x Hx) as Hnot.
    destruct c as [[|] [|] [|] [|] [|] [|] [|] [|]];
      try reflexivity; now rewrite Hnot.
Qed.

(** Reading back a time written in decimal digits. *)
Lemma parseInt_decimal (n : Z) : 0 <= n -> JS.parseInt (JS.decimal n) = Some n.
Proof.
  intros Hn. rewrite parseInt_digits.
  - f_equal. exact (digits_value_decimal 0 n Hn).
  - pose proof (decimal_not_empty n). destruct (JS.decimal n); [cbn in *; lia|discriminate].
  - apply every_decimal.
Qed.

(** X9. What the signature generator prints is what the endpoint accepts,
    for five minutes. The timestamp it writes reads back as the second it
    was written in; the signature it makes with that timestamp, presented
    with it and the same body under the same secret, is accepted by
    [verifyWithTimestamp] exactly while the clock is within 300 seconds of
    that second, and a request carrying the two headers passes the
    middleware in that window. The signature it makes without timestamp is
    accepted by [verify] at any time. *)
Theorem generated_signature_is_accepted_for_300_seconds
    (this : SignatureValidator.t) (generated_at : Z) (payloadString : string) :
  0 <= generated_at ->
  let timestamp := TestSignatureGenerator.timestamp generated_at in
  let signatureWithTimestamp :=
    TestSignatureGenerator.signatureWithTimestamp hmac_sha256_hex
      (secret this) generated_at payloadString in
  JS.parseInt timestamp = Some (generated_at / 1000)
  /\ (forall now_ms,
        verifyWithTimestamp hmac_sha256_hex this now_ms payloadString
          signatureWithTimestamp timestamp DEFAULT_TOLERANCE
        = (Z.abs (now_ms / 1000 - generated_at / 1000) <=? 300))
  /\ (forall env req,
        x_webhook_signature req = Some signatureWithTimestamp ->
        x_webhook_timestamp req = Some timestamp ->
        rawBody req = payloadString ->
        signatureWithTimestamp <> "" ->
        (verifySignature hmac_sha256_hex this env req = Next
         <-> Z.abs (now env / 1000 - generated_at / 1000) <= 300))
  /\ verify hmac_sha256_hex this payloadString
       (TestSignatureGenerator.signature hmac_sha256_hex (secret this)
          payloadString)
     = true.
Proof.
  intros Hn timestamp signatureWithTimestamp.
  assert (Hparse : JS.parseInt timestamp = Some (generated_at / 1000)).
  { apply parseInt_decimal. apply Z.div_pos; lia. }
  assert (Hverify :
            forall now_ms,
              verifyWithTimestamp hmac_sha256_hex this now_ms payloadString
                signatureWithTimestamp timestamp DEFAULT_TOLERANCE
              = (Z.abs (now_ms / 1000 - generated_at / 1000) <=? 300)).
  { intros now_ms. unfold verifyWithTimestamp, DEFAULT_TOLERANCE.
    rewrite Hparse, verify_is_eqb.
    unfold signatureWithTimestamp,
      TestSignatureGenerator.signatureWithTimestamp.
    fold timestamp. rewrite String.eqb_refl.
    rewrite Z.leb_antisym. now destruct (300 <? _). }
  split; [exact Hparse|]. split; [exact Hverify|]. split.
  - intros env req Hsig Hts Hraw Hne. unfold verifySignature.
    rewrite Hsig, Hts, Hraw.
    destruct (String.eqb signatureWithTimestamp "") eqn:E;
      [apply String.eqb_eq in E; contradiction|].
    assert (Et : String.eqb timestamp "" = false).
    { apply String.eqb_neq. intros E0. rewrite E0 in Hparse. discriminate Hparse. }
    rewrite Et, Hverify.
    destruct (Z.abs _ <=? 300) eqn:Hw; cbn [negb].
    + apply Z.leb_le in Hw. tauto.
    + apply Z.leb_gt in Hw. split; [discriminate|lia].
  - now apply verify_true_iff.
Qed.

End GeneratorFacts.

Section GeneratorRuns.

Import WebhookRoutes.

Lemma generated_signature_is_accepted_for_300_seconds_witness :
  JS.parseInt "1761661800" = Some 1761661800
  /\ verifySignature Sample.keyed_digest Sample.validator Sample.env
       (Sample.signed_request Sample.good_payload)
     = Next.
Proof.
  destruct (generated_signature_is_accepted_for_300_seconds
              Sample.keyed_digest Sample.validator 1761661800999 Sample.raw
              ltac:(lia))
    as [Hparse [_ [Hpass _]]].
  split; [exact Hparse|].
  apply (Hpass Sample.env (Sample.signed_request Sample.good_payload));
    try reflexivity; [discriminate|vm_compute; discriminate].
Defined.

End GeneratorRuns.

(** ** The endpoint: status codes, bodies that are not objects, and the
    stored record *)

Section EndpointFacts.

Import Entities WebhookService TransactionValidator.

Lemma verifySignature_answers_401
    (hmac : string -> string -> string) (validator : SignatureValidator.t)
    (env : Env) (req : WebhookRoutes.Request) (res : WebhookRoutes.Response) :
  WebhookRoutes.verifySignature hmac validator env req = WebhookRoutes.Respond res ->
  WebhookRoutes.status_code res = 401.
Proof.
  unfold WebhookRoutes.verifySignature.
  destruct (WebhookRoutes.x_webhook_signature req) as [signature|];
    [|now intros [= <-]].
  destruct (String.eqb signature ""); [now intros [= <-]|].
  destruct (negb _); [now intros [= <-]|discriminate].
Qed.

Lemma response_for_status (e : error) :
  WebhookRoutes.status_code (response_for e)
  = match e with
    | DuplicateTransactionError _ => 409
    | ValidationError _ _ => 400
    | _ => 500
    end.
Proof. now destruct e. Qed.

(** X10. The status code tells what was stored. A request is answered
    200, 400, 401, 409 or 500 and nothing else. It is answered 200 exactly
    when a record of it was inserted: the response is the success body of
    that record and the record is the last row of the table. On any other
    status no row of this request is in the table, which holds what it held
    before plus, at most, what other requests committed meanwhile. *)
Theorem response_status_tells_what_was_stored
    (hmac : string -> string -> string) (validator : SignatureValidator.t)
    (env : Env) (req : WebhookRoutes.Request) (w : World) :
  let res := fst (WebhookRoutes.post_payment hmac validator env req w) in
  let after := snd (WebhookRoutes.post_payment hmac validator env req w) in
  In (WebhookRoutes.status_code res) [200; 400; 401; 409; 500]
  /\ (WebhookRoutes.status_code res = 200 ->
      exists t,
        res = WebhookRoutes.success t
        /\ transactions after = (table_at_insert env w ++ [t])%list)
  /\ (WebhookRoutes.status_code res <> 200 ->
      transactions after = transactions w
      \/ transactions after = table_at_insert env w).
Proof.
  cbv zeta. rewrite post_payment_response.
  pose proof (post_payment_tables hmac validator env req w) as Ht.
  cbv zeta in Ht.
  destruct (WebhookRoutes.parsed req) as [payload|].
  - destruct (WebhookRoutes.verifySignature hmac validator env req)
      as [res|] eqn:Hv.
    + apply verifySignature_answers_401 in Hv. destruct Ht as [Ht _].
      rewrite Hv. split; [cbn; auto 10|]. split; [discriminate|]. now left.
    + destruct Ht as [Ht _]. rewrite Ht.
      pose proof (processWebhook_table env (WebhookRoutes.set_body w payload))
        as Htable.
      change (table_at_insert env (WebhookRoutes.set_body w payload))
        with (table_at_insert env w) in Htable.
      change (transactions (WebhookRoutes.set_body w payload))
        with (transactions w) in Htable.
      destruct (fst (processWebhook env (WebhookRoutes.set_body w payload)))
        as [e|t]; cbn [response_of].
      * rewrite response_for_status. split; [|split].
        -- destruct e; cbn; auto 10.
        -- destruct e; discriminate.
        -- intros _. exact Htable.
      * destruct Htable as [transaction [_ Htable]]. split; [cbn; auto 10|].
        split; [|intros H; now destruct H].
        intros _. now exists t.
  - destruct Ht as [Ht _]. split; [cbn; auto 10|].
    split; [discriminate|]. now left.
Qed.

Lemma checks_validation_error (payload : JS.value) (e : error) :
  nullish payload = false ->
  checks payload = inl e ->
  exists field message, e = ValidationError field message.
Proof.
  intros Hn. rewrite (checks_first_failure _ Hn).
  unfold rule_results. cbn [first_failure].
  destruct (first_missing _) as [e'|[]] eqn:H1.
  { intros [= <-]. apply first_missing_error in H1.
    destruct H1 as [? [f [? [? [_ [_ [_ ->]]]]]]]. eauto. }
  destruct (validateAmount _) as [e'|[]] eqn:H2.
  { intros [= <-]. apply validateAmount_error in H2. destruct H2 as [? ->]. eauto. }
  destruct (validateCurrency _) as [e'|[]] eqn:H3.
  { intros [= <-]. apply validateCurrency_error in H3. destruct H3 as [? ->]. eauto. }
  destruct (validateStatus _) as [e'|[]] eqn:H4.
  { intros [= <-]. apply validateStatus_error in H4. destruct H4 as [? ->]. eauto. }
  destruct (validateCountry _ 0) as [e'|[]] eqn:H5.
  { intros [= <-]. apply validateCountry_error in H5. destruct H5 as [? ->]. eauto. }
  destruct (validateCountry _ 1) as [e'|[]] eqn:H6.
  { intros [= <-]. apply validateCountry_error in H6. destruct H6 as [? ->]. eauto. }
  destruct (validateEmail _ "sender.email") as [e'|[]] eqn:H7.
  { intros [= <-]. apply validateEmail_error in H7. destruct H7 as [? ->]. eauto. }
  destruct (validateEmail _ "receiver.email") as [e'|[]] eqn:H8.
  { intros [= <-]. apply validateEmail_error in H8. destruct H8 as [? ->]. eauto. }
  discriminate.
Qed.

Lemma planned_invalid (env : Env) (payload : JS.value)
    (rows : list Transaction) (e : error) :
  checks payload = inl e -> planned env payload rows = inl e.
Proof. intros H. unfold planned. now rewrite H. Qed.

(** X11. Validation comes before any lookup. A payload that is an object
    and fails a rule is refused with that rule's ValidationError and
    answered 400 with the error's message and field, whatever the tables
    hold and whether or not the database answers: an invalid delivery of an
    event that was already processed gets 400, not 409. The transactions
    table is not touched. *)
Theorem invalid_payload_is_answered_400 (env : Env) (w : World) (e : error) :
  nullish (body w) = false ->
  checks (body w) = inl e ->
  exists field message,
    e = ValidationError field message
    /\ fst (processWebhook env w) = inl e
    /\ transactions (snd (processWebhook env w)) = transactions w
    /\ fst (WebhookRoutes.payment_handler env w)
       = inr (WebhookRoutes.bad_request message field)
    /\ WebhookRoutes.status_code (WebhookRoutes.bad_request message field) = 400.
Proof.
  intros Hn Hc.
  destruct (checks_validation_error _ _ Hn Hc) as [field [message ->]].
  exists field, message.
  destruct (processWebhook_stopped env w _
              (planned_invalid env _ (transactions w) _ Hc)) as [H1 [H2 H3]].
  repeat split; assumption.
Qed.

Lemma invalid_payload_is_answered_400_witness :
  exists field message,
    fst (WebhookRoutes.payment_handler Sample.env
           (Repository.set_transactions
              (Sample.world_of
                 (Sample.payload (JS.Num 2500.755%float) "usd" "us"))
              [Sample.other_delivery]))
    = inr (WebhookRoutes.bad_request message field)
    /\ field = "amount".
Proof.
  destruct (invalid_payload_is_answered_400 Sample.env
              (Repository.set_transactions
                 (Sample.world_of
                    (Sample.payload (JS.Num 2500.755%float) "usd" "us"))
                 [Sample.other_delivery])
              (ValidationError "amount"
                 "Amount cannot have more than 2 decimal places"))
    as [field [message [E [_ [_ [H _]]]]]].
  - reflexivity.
  - vm_compute. reflexivity.
  - exists field, message. split; [exact H|]. now injection E as <- _.
Defined.

Lemma logged_nullish (env : Env) (status : string) (error : option error)
    (w : World) :
  nullish (body w) = true ->
  audit_logs (logged env status error w) = audit_logs w.
Proof. intros H. unfold logged. now rewrite H. Qed.

(** X12. A body that parses but is not an object never reaches the
    table. [null] makes the first property read throw a TypeError: nothing
    can be written to the audit log, since the audit entry reads the same
    property, and the answer is 500. Any other value (a number, a string, a
    boolean, an array) has no [event_id]: the answer is 400,
    [event_id is required]. *)
Theorem body_that_is_not_an_object (env : Env) (w : World) :
  (forall props, body w <> JS.Obj props) ->
  fst (WebhookRoutes.payment_handler env w)
  = inr (if nullish (body w) then WebhookRoutes.internal_error
         else WebhookRoutes.bad_request "event_id is required" "event_id")
  /\ transactions (snd (WebhookRoutes.payment_handler env w)) = transactions w
  /\ (nullish (body w) = true ->
      audit_logs (snd (WebhookRoutes.payment_handler env w)) = audit_logs w).
Proof.
  intros Hobj.
  assert (Hp : exists e,
             planned env (body w) (transactions w) = inl e
             /\ response_for e
                = (if nullish (body w) then WebhookRoutes.internal_error
                   else WebhookRoutes.bad_request "event_id is required"
                          "event_id")).
  { destruct (body w) as [| |b|x|s|props|items] eqn:Hb;
      try (eexists; split; [apply planned_invalid; reflexivity|reflexivity]).
    now destruct (Hobj props). }
  destruct Hp as [e [Hp He]].
  destruct (processWebhook_stopped env w e Hp) as [H1 [H2 H3]].
  pose proof (payment_handler_run env w) as [_ [Ht [Hl _]]].
  rewrite H3, He, Ht, H2, Hl.
  split; [reflexivity|]. split; [reflexivity|].
  intros Hn. rewrite processWebhook_run.
  pose proof (attempt_frame env (logged env "received" None w))
    as [Ha [_ [_ Hbody]]].
  destruct (attempt env _) as [[e'|t] w2]; cbn [snd] in *;
    rewrite logged_nullish, Ha;
    try (now apply logged_nullish);
    now rewrite Hbody, (proj2 (logged_frame _ _ _ _)).
Qed.

Lemma body_that_is_not_an_object_witness :
  fst (WebhookRoutes.payment_handler Sample.env (Sample.world_of JS.Null))
  = inr WebhookRoutes.internal_error
  /\ fst (WebhookRoutes.payment_handler Sample.env
            (Sample.world_of (JS.Arr [Sample.good_payload])))
     = inr (WebhookRoutes.bad_request "event_id is required" "event_id").
Proof.
  split.
  - refine (proj1 (body_that_is_not_an_object Sample.env
                     (Sample.world_of JS.Null) _)).
    intros props. discriminate.
  - refine (proj1 (body_that_is_not_an_object Sample.env
                     (Sample.world_of (JS.Arr [Sample.good_payload])) _)).
    intros props. discriminate.
Defined.

End EndpointFacts.

(** ** The stored record *)

Section StoredRecordFacts.

Import Entities WebhookService TransactionValidator.

Lemma get_value (o : JS.value) (k : string) (v : JS.value) :
  get o k = ok v -> v = JS.get_opt o k.
Proof. destruct o; cbn; try discriminate; now intros [= <-]. Qed.

Lemma get2_value (o : JS.value) (a b : string) (v : JS.value) :
  get2 o a b = ok v -> v = at_path o [a; b].
Proof.
  unfold get2. destruct (get o a) as [e|x] eqn:H; [discriminate|].
  apply get_value in H. subst x. apply get_value.
Qed.

Lemma get3_value (o : JS.value) (a b c : string) (v : JS.value) :
  get3 o a b c = ok v -> v = at_path o [a; b; c].
Proof.
  unfold get3. destruct (get2 o a b) as [e|x] eqn:H; [discriminate|].
  apply get2_value in H. subst x. apply get_value.
Qed.

(** What [create] copies from the payload, field by field. *)
Lemma new_transaction_copies (env : Env) (payload : JS.value)
    (derived : TransactionCalculator.DerivedFields) (t : Transaction) :
  new_transaction env payload derived = ok t ->
  event_id t = at_path payload ["event_id"]
  /\ transaction_id t = at_path payload ["data"; "transaction_id"]
  /\ amount t = at_path payload ["data"; "amount"]
  /\ sender_id t = at_path payload ["data"; "sender"; "id"]
  /\ sender_name t = at_path payload ["data"; "sender"; "name"]
  /\ receiver_id t = at_path payload ["data"; "receiver"; "id"]
  /\ receiver_name t = at_path payload ["data"; "receiver"; "name"]
  /\ status t = at_path payload ["data"; "status"]
  /\ payment_method t = at_path payload ["data"; "payment_method"]
  /\ metadata t = at_path payload ["data"; "metadata"].
Proof.
  unfold new_transaction. intros H.
  repeat
    match type of H with
    | rbind (rbind _ call_toUpperCase) _ = ok _ =>
        let u := fresh "u" in let Hu := fresh "Hu" in
        apply rbind_ok in H; destruct H as [u [Hu H]]
    | rbind _ _ = ok _ =>
        let a := fresh "a" in let Ha := fresh "Ha" in
        apply rbind_ok in H; destruct H as [a [Ha H]]
    end.
  injection H as <-. cbn [event_id transaction_id amount sender_id sender_name
    receiver_id receiver_name status payment_method metadata].
  repeat
    match goal with
    | Ha : get _ _ = ok _ |- _ => apply get_value in Ha
    | Ha : get2 _ _ _ = ok _ |- _ => apply get2_value in Ha
    | Ha : get3 _ _ _ _ = ok _ |- _ => apply get3_value in Ha
    end.
  repeat split; assumption.
Qed.

(** What the insert adds to the record it is handed, and what it keeps. *)
Lemma insert_copies (env : Env) (t row : Transaction) (rows : list Transaction) :
  Repository.insert env t rows = ok row ->
  id row = Some (uuid env (List.length rows))
  /\ created_at row = Some (db_timestamp env)
  /\ updated_at row = Some (db_timestamp env)
  /\ amount row = amount t
  /\ sender_id row = sender_id t
  /\ sender_name row = sender_name t
  /\ receiver_id row = receiver_id t
  /\ receiver_name row = receiver_name t
  /\ status row = status t
  /\ payment_method row = payment_method t
  /\ metadata row = Repository.null_if_undefined (metadata t).
Proof.
  unfold Repository.insert.
  destruct (existsb (Repository.has_event_id _) rows); [discriminate|].
  destruct (existsb (Repository.has_transaction_id _) rows); [discriminate|].
  destruct (insert_fails env); [discriminate|].
  intros [= <-]. cbn. repeat split.
Qed.

Lemma validateAmount_ok (v : JS.value) :
  validateAmount v = ok tt -> exists x, v = JS.Num x.
Proof. destruct v; try discriminate. intros _. now exists x. Qed.

Lemma validateStatus_ok (v : JS.value) :
  validateStatus v = ok tt ->
  exists s, v = JS.Str s /\ JS.includes VALID_STATUSES s = true.
Proof.
  destruct v; try discriminate. unfold validateStatus.
  destruct (negb (JS.truthy _)); [discriminate|].
  destruct (JS.includes _ _) eqn:H; [|discriminate].
  intros _. now exists s.
Qed.

Lemma includes_in (xs : list string) (s : string) :
  JS.includes xs s = true <-> In s xs.
Proof.
  induction xs as [|x xs IH]; cbn; [split; [discriminate|tauto]|].
  rewrite orb_true_iff, IH, String.eqb_eq. tauto.
Qed.

(** The validated fields of a record a run has stored. *)
Lemma stored_fields (env : Env) (w w' : World) (t : Transaction) :
  processWebhook env w = (inr t, w') ->
  In (currency t) VALID_CURRENCIES
  /\ JS.test iso2Regex (sender_country t) = true
  /\ JS.test iso2Regex (receiver_country t) = true
  /\ (exists s, status t = JS.Str s /\ In s VALID_STATUSES)
  /\ (exists x,
        amount t = JS.Num x
        /\ processing_fee t
           = Some (TransactionCalculator.processing_fee
                     (TransactionCalculator.calculateDerivedFields x))
        /\ net_amount t
           = Some (TransactionCalculator.net_amount
                     (TransactionCalculator.calculateDerivedFields x))).
Proof.
  intros H. apply processWebhook_success in H.
  destruct H as [transaction [Hplan [Hins _]]].
  apply planned_ok in Hplan. destruct Hplan as [Hchecks [amount0 [Ham Hnew]]].
  pose proof (new_transaction_fields _ _ _ _ Hnew)
    as [cur [sc [rc [Hcur [Hsc [Hrc [Ec [Es [Er [_ [_ [Ef [En _]]]]]]]]]]]]].
  pose proof (new_transaction_copies _ _ _ _ Hnew)
    as [_ [_ [Ea [_ [_ [_ [_ [Est _]]]]]]]].
  pose proof (insert_fields _ _ _ _ Hins)
    as [Ic [Is [Ir [_ [_ [If [In_ _]]]]]]].
  pose proof (insert_copies _ _ _ _ Hins)
    as [_ [_ [_ [Ia [_ [_ [_ [_ [Ist _]]]]]]]]].
  apply checks_ok in Hchecks.
  destruct Hchecks as [entries [a [c [st [sc' [rc' [se [re Hc]]]]]]]].
  destruct Hc as [_ [_ [Ha1 [Ha2 [Hc1 [Hc2 [Hs1 [Hs2 [Hsc1 [Hrc1 [Hcc _]]]]]]]]]]].
  rewrite Hcur in Hc1. injection Hc1 as <-.
  rewrite Hsc in Hsc1. injection Hsc1 as <-.
  rewrite Hrc in Hrc1. injection Hrc1 as <-.
  rewrite Ham in Ha1. injection Ha1 as <-.
  apply validateCurrency_ok in Hc2. destruct Hc2 as [s1 [[= <-] Hin]].
  apply validateCountryCodes_ok in Hcc. destruct Hcc as [Hcs Hcr].
  apply validateCountry_ok in Hcs. destruct Hcs as [s2 [[= <-] Hts]].
  apply validateCountry_ok in Hcr. destruct Hcr as [s3 [[= <-] Htr]].
  apply validateAmount_ok in Ha2. destruct Ha2 as [x ->].
  apply validateStatus_ok in Hs2. destruct Hs2 as [s4 [-> Hst]].
  apply get2_value in Ham, Hs1.
  rewrite Ic, Is, Ir, Ec, Es, Er, Ist, Est, Ia, Ea, If, In_, Ef, En.
  split; [now apply includes_in|]. split; [exact Hts|]. split; [exact Htr|].
  split.
  - exists s4. split; [now symmetry|now apply includes_in].
  - exists x. split; [now symmetry|]. split; reflexivity.
Qed.

(** X13. A record the service stores fits its columns: the currency is
    one of the five supported codes and so 3 characters long, each country
    code is 2 characters long, and the status is one of the values of the
    [TransactionStatus] enum. *)
Theorem stored_record_fits_its_columns (env : Env) (w w' : World)
    (t : Transaction) :
  processWebhook env w = (inr t, w') ->
  In (currency t) ["USD"; "EUR"; "GBP"; "INR"; "JPY"]
  /\ String.length (currency t) = 3%nat
  /\ String.length (sender_country t) = 2%nat
  /\ String.length (receiver_country t) = 2%nat
  /\ exists s,
       status t = JS.Str s
       /\ In s (map status_value [PENDING; COMPLETED; FAILED]).
Proof.
  intros H. apply stored_fields in H.
  destruct H as [Hcur [Hsc [Hrc [Hst _]]]].
  apply test_matches, matches_iso2 in Hsc, Hrc.
  destruct Hsc as [a [b [-> _]]]. destruct Hrc as [c [d [-> _]]].
  split; [exact Hcur|]. split.
  - cbn in Hcur. now repeat (destruct Hcur as [<-|Hcur]).
  - repeat split. exact Hst.
Qed.

Lemma stored_record_fits_its_columns_witness :
  String.length (currency (fst Sample.stored_by_first_delivery)) = 3%nat
  /\ String.length (sender_country (fst Sample.stored_by_first_delivery))
     = 2%nat.
Proof.
  destruct (stored_record_fits_its_columns Sample.env
              (Sample.world_of Sample.good_payload)
              (snd Sample.stored_by_first_delivery)
              (fst Sample.stored_by_first_delivery))
    as [_ [H1 [H2 _]]]; [vm_compute; reflexivity|].
  now split.
Defined.

(** X14. The record a run stores is the payload's, and the 200 response
    reports it. Event id, transaction id, amount, the two parties' ids and
    names, status and payment method are the values at their paths in the
    body; the metadata is the payload's when it has one and [null] when it
    has none; the processing fee and the net amount are those
    [calculateDerivedFields] computes from the payload's amount; the id and
    the two managed dates are the database's. *)
Theorem stored_record_copies_the_payload (env : Env) (w w' : World)
    (t : Transaction) :
  processWebhook env w = (inr t, w') ->
  event_id t = at_path (body w) ["event_id"]
  /\ transaction_id t = at_path (body w) ["data"; "transaction_id"]
  /\ amount t = at_path (body w) ["data"; "amount"]
  /\ sender_id t = at_path (body w) ["data"; "sender"; "id"]
  /\ sender_name t = at_path (body w) ["data"; "sender"; "name"]
  /\ receiver_id t = at_path (body w) ["data"; "receiver"; "id"]
  /\ receiver_name t = at_path (body w) ["data"; "receiver"; "name"]
  /\ status t = at_path (body w) ["data"; "status"]
  /\ payment_method t = at_path (body w) ["data"; "payment_method"]
  /\ metadata t
     = (if nullish (at_path (body w) ["data"; "metadata"]) then JS.Null
        else at_path (body w) ["data"; "metadata"])
  /\ (exists x,
        amount t = JS.Num x
        /\ processing_fee t
           = Some (TransactionCalculator.processing_fee
                     (TransactionCalculator.calculateDerivedFields x))
        /\ net_amount t
           = Some (TransactionCalculator.net_amount
                     (TransactionCalculator.calculateDerivedFields x)))
  /\ id t = Some (uuid env (List.length (table_at_insert env w)))
  /\ created_at t = Some (db_timestamp env)
  /\ updated_at t = Some (db_timestamp env)
  /\ fst (WebhookRoutes.payment_handler env w) = inr (WebhookRoutes.success t).
Proof.
  intros H.
  pose proof (stored_fields _ _ _ _ H) as [_ [_ [_ [_ Hderived]]]].
  pose proof (payment_handler_run env w) as [Hres _].
  rewrite H in Hres. cbn [fst response_of] in Hres.
  apply processWebhook_success in H.
  destruct H as [transaction [Hplan [Hins _]]].
  apply planned_ok in Hplan. destruct Hplan as [_ [amount0 [_ Hnew]]].
  pose proof (new_transaction_copies _ _ _ _ Hnew)
    as [E1 [E2 [E3 [E4 [E5 [E6 [E7 [E8 [E9 E10]]]]]]]]].
  pose proof (insert_fields _ _ _ _ Hins) as [_ [_ [_ [I1 [I2 _]]]]].
  pose proof (insert_copies _ _ _ _ Hins)
    as [J1 [J2 [J3 [J4 [J5 [J6 [J7 [J8 [J9 [J10 J11]]]]]]]]]].
  rewrite <- I1 in E1. rewrite <- I2 in E2. rewrite <- J4 in E3.
  rewrite <- J5 in E4. rewrite <- J6 in E5. rewrite <- J7 in E6.
  rewrite <- J8 in E7. rewrite <- J9 in E8. rewrite <- J10 in E9.
  rewrite E10 in J11.
  assert (J12 : metadata t
                = (if nullish (at_path (body w) ["data"; "metadata"])
                   then JS.Null
                   else at_path (body w) ["data"; "metadata"]))
    by (rewrite J11; now destruct (at_path (body w) ["data"; "metadata"])).
  repeat (split; [assumption|]). exact Hres.
Qed.

Lemma stored_record_copies_the_payload_witness :
  amount (fst Sample.stored_by_first_delivery) = JS.Num 2500.75%float
  /\ metadata (fst Sample.stored_by_first_delivery) = JS.Null
  /\ id (fst Sample.stored_by_first_delivery) = Some "row-0".
Proof.
  destruct (stored_record_copies_the_payload Sample.env
              (Sample.world_of Sample.good_payload)
              (snd Sample.stored_by_first_delivery)
              (fst Sample.stored_by_first_delivery))
    as [_ [_ [H1 [_ [_ [_ [_ [_ [_ [H3 [_ [H2 _]]]]]]]]]]]];
    [vm_compute; reflexivity|].
  split; [exact H1|]. split; [exact H3|exact H2].
Defined.

End StoredRecordFacts.

(** ** When a record is stored *)

Section AcceptanceFacts.

Import Entities WebhookService TransactionValidator.

Lemma first_failure_ok (results : list (result unit)) :
  first_failure results = ok tt <-> Forall (fun r => r = ok tt) results.
Proof.
  induction results as [|[e|[]] rest IH]; cbn [first_failure].
  - split; [constructor|reflexivity].
  - split; [discriminate|]. intros H. inversion H as [|? ? H1 _]. discriminate H1.
  - rewrite IH. split; [now constructor|]. intros H. now inversion H.
Qed.

(** What passed when a record was planned. *)
Lemma planned_passed (env : Env) (payload : JS.value) (rows : list Transaction)
    (t : Transaction) :
  planned env payload rows = ok t ->
  checks payload = ok tt
  /\ precheck env (event_id t) (transaction_id t) rows = ok tt.
Proof.
  intros H. pose proof H as Hplan. unfold planned in H.
  repeat
    match type of H with
    | rbind _ _ = ok _ =>
        let a := fresh "a" in let Ha := fresh "Ha" in
        apply rbind_ok in H; destruct H as [a [Ha H]]
    end.
  repeat match goal with u : unit |- _ => destruct u end.
  split; [assumption|].
  apply new_transaction_fields in H.
  destruct H as [_ [_ [_ [_ [_ [_ [_ [_ [_ [He [Hx _]]]]]]]]]]].
  unfold ok in *. congruence.
Qed.

Lemma precheck_ok (env : Env) (eventId transactionId : JS.value)
    (rows : list Transaction) :
  precheck env eventId transactionId rows = ok tt
  <-> lookup_fails env = false
      /\ existsb (Repository.has_event_id eventId) rows = false
      /\ existsb (Repository.has_transaction_id transactionId) rows = false.
Proof.
  unfold precheck. rewrite <- !find_existsb.
  destruct (lookup_fails env); [split; [discriminate|intros [H _]; discriminate H]|].
  destruct (find (Repository.has_event_id eventId) rows);
    [split; [discriminate|intros [_ [H _]]; discriminate H]|].
  destruct (find (Repository.has_transaction_id transactionId) rows);
    [split; [discriminate|intros [_ [_ H]]; discriminate H]|].
  split; auto.
Qed.

(** X15. Nothing is stored that was not checked. When a run returns a
    record, every rule of the validator had passed on the body, both
    idempotency lookups had succeeded, and no row of the table the run
    started from had the record's event id or its transaction id. *)
Theorem stored_record_was_checked (env : Env) (w w' : World) (t : Transaction) :
  processWebhook env w = (inr t, w') ->
  Forall (fun rule => rule = ok tt) (rule_results (body w))
  /\ lookup_fails env = false
  /\ (forall row,
        In row (transactions w) ->
        Repository.has_event_id (event_id t) row = false
        /\ Repository.has_transaction_id (transaction_id t) row = false).
Proof.
  intros H. apply processWebhook_success in H.
  destruct H as [transaction [Hplan [Hins _]]].
  apply planned_passed in Hplan. destruct Hplan as [Hc Hp].
  apply insert_fields in Hins.
  destruct Hins as [_ [_ [_ [He [Hx _]]]]]. rewrite <- He, <- Hx in Hp.
  apply precheck_ok in Hp. destruct Hp as [Hl [H1 H2]].
  split.
  - apply first_failure_ok. rewrite <- checks_first_failure; [exact Hc|].
    now destruct (checks_reads _ Hc).
  - split; [exact Hl|]. intros row Hin.
    split; [exact (proj1 (existsb_false _ _) H1 row Hin)
           |exact (proj1 (existsb_false _ _) H2 row Hin)].
Qed.

Lemma stored_record_was_checked_witness :
  Forall (fun rule => rule = ok tt) (rule_results Sample.good_payload).
Proof.
  exact (proj1 (stored_record_was_checked Sample.env
                  (Sample.world_of Sample.good_payload)
                  (snd Sample.stored_by_first_delivery)
                  (fst Sample.stored_by_first_delivery)
                  ltac:(vm_compute; reflexivity))).
Defined.

Lemma get2_sibling (o : JS.value) (a b k : string) (v : JS.value) :
  get2 o a b = ok v -> get2 o a k = ok (at_path o [a; k]).
Proof.
  unfold get2. destruct (get o a) as [e|x] eqn:H; [discriminate|].
  apply get_value in H. subst x. cbn [at_path fold_left].
  destruct (JS.get_opt o a); try discriminate; reflexivity.
Qed.

Lemma get3_sibling (o : JS.value) (a b c k : string) (v : JS.value) :
  get3 o a b c = ok v -> get3 o a b k = ok (at_path o [a; b; k]).
Proof.
  unfold get3. destruct (get2 o a b) as [e|x] eqn:H; [discriminate|].
  apply get2_value in H. subst x. cbn [at_path fold_left].
  destruct (JS.get_opt (JS.get_opt o a) b); try discriminate; reflexivity.
Qed.

(** After validation, building the record does not throw. *)
Lemma new_transaction_total (env : Env) (payload : JS.value)
    (derived : TransactionCalculator.DerivedFields) :
  checks payload = ok tt ->
  exists t, new_transaction env payload derived = ok t.
Proof.
  intros Hc. pose proof (checks_reads _ Hc) as [_ [He _]].
  apply checks_ok in Hc.
  destruct Hc as [entries [a [c [st [sc [rc [se [re Hc]]]]]]]].
  destruct Hc as [_ [_ [Ha [_ [Hc1 [Hc2 [_ [_ [Hs1 [Hr1 [Hcc _]]]]]]]]]]].
  apply validateCurrency_ok in Hc2. destruct Hc2 as [s1 [-> _]].
  apply validateCountryCodes_ok in Hcc. destruct Hcc as [Hcs Hcr].
  apply validateCountry_ok in Hcs. destruct Hcs as [s2 [-> _]].
  apply validateCountry_ok in Hcr. destruct Hcr as [s3 [-> _]].
  unfold new_transaction.
  rewrite He, Hc1, Hs1, Hr1.
  rewrite (get2_sibling _ _ _ "transaction_id" _ Ha).
  rewrite (get2_sibling _ _ _ "amount" _ Ha).
  rewrite (get2_sibling _ _ _ "status" _ Ha).
  rewrite (get2_sibling _ _ _ "payment_method" _ Ha).
  rewrite (get2_sibling _ _ _ "metadata" _ Ha).
  rewrite (get3_sibling _ _ _ _ "id" _ Hs1).
  rewrite (get3_sibling _ _ _ _ "name" _ Hs1).
  rewrite (get3_sibling _ _ _ _ "id" _ Hr1).
  rewrite (get3_sibling _ _ _ _ "name" _ Hr1).
  cbn [rbind ok call_toUpperCase]. eexists. reflexivity.
Qed.

(** X16. A valid payload with new keys is stored. When every rule of the
    validator passes, the lookups succeed and find no row with the
    payload's event id or transaction id, no other request commits
    meanwhile and the insert succeeds, the run returns a record, the table
    grows by exactly that record, and the answer is 200 with the record's
    success body. *)
Theorem valid_new_payload_is_stored (env : Env) (w : World) :
  checks (body w) = ok tt ->
  lookup_fails env = false ->
  insert_fails env = false ->
  concurrent env = [] ->
  (forall row,
      In row (transactions w) ->
      Repository.has_event_id (at_path (body w) ["event_id"]) row = false
      /\ Repository.has_transaction_id
           (at_path (body w) ["data"; "transaction_id"]) row = false) ->
  exists t,
    fst (processWebhook env w) = inr t
    /\ transactions (snd (processWebhook env w)) = (transactions w ++ [t])%list
    /\ fst (WebhookRoutes.payment_handler env w) = inr (WebhookRoutes.success t)
    /\ WebhookRoutes.status_code (WebhookRoutes.success t) = 200.
Proof.
  intros Hc Hl Hi Hconc Hnew.
  pose proof (checks_reads _ Hc) as [_ [He [data [_ [_ Hdata]]]]].
  assert (Htid : get2 (body w) "data" "transaction_id"
                 = ok (at_path (body w) ["data"; "transaction_id"])).
  { rewrite (Hdata "transaction_id"). f_equal.
    exact (get2_value _ _ _ _ (Hdata "transaction_id")). }
  assert (H1 : existsb (Repository.has_event_id (at_path (body w) ["event_id"]))
                 (transactions w) = false)
    by (apply existsb_false; intros row Hin; now apply Hnew).
  assert (H2 : existsb
                 (Repository.has_transaction_id
                    (at_path (body w) ["data"; "transaction_id"]))
                 (transactions w) = false)
    by (apply existsb_false; intros row Hin; now apply Hnew).
  destruct (new_transaction_total env (body w)
              (TransactionCalculator.calculateDerivedFields
                 (number_of (at_path (body w) ["data"; "amount"]))) Hc)
    as [transaction Hnewt].
  pose proof (new_transaction_copies _ _ _ _ Hnewt) as [E1 [E2 _]].
  assert (Hplan : planned env (body w) (transactions w) = ok transaction).
  { unfold planned. rewrite Hc, He, Htid. cbn [rbind ok].
    change (JS.get_opt (body w) "event_id")
      with (at_path (body w) ["event_id"]).
    rewrite (proj2 (precheck_ok env _ _ _) (conj Hl (conj H1 H2))).
    cbn [rbind ok]. rewrite (Hdata "amount").
    cbn [rbind ok].
    rewrite (get2_value _ _ _ _ (Hdata "amount")). exact Hnewt. }
  assert (Htable : table_at_insert env w = transactions w)
    by (unfold table_at_insert; now rewrite Hconc).
  assert (Hins : exists t,
             Repository.insert env transaction (transactions w) = ok t).
  { unfold Repository.insert. rewrite E1, E2, H1, H2, Hi. eexists. reflexivity. }
  destruct Hins as [t Hins]. exists t.
  assert (Hrun : fst (processWebhook env w) = inr t
                 /\ transactions (snd (processWebhook env w))
                    = (transactions w ++ [t])%list).
  { rewrite processWebhook_run, attempt_run, table_at_insert_logged.
    destruct (logged_frame env "received" None w) as [-> ->].
    unfold ok in Hplan, Hins. rewrite Hplan. cbv beta iota.
    rewrite Htable, Hins. cbn [fst snd].
    split; [reflexivity|]. now rewrite (proj1 (logged_frame _ _ _ _)). }
  destruct Hrun as [Hr Ht]. split; [exact Hr|]. split; [exact Ht|].
  split; [|reflexivity].
  rewrite (proj1 (payment_handler_run env w)), Hr. reflexivity.
Qed.

Lemma valid_new_payload_is_stored_witness :
  exists t,
    fst (processWebhook Sample.env (Sample.world_of Sample.good_payload))
    = inr t
    /\ transactions
         (snd (processWebhook Sample.env (Sample.world_of Sample.good_payload)))
       = [t].
Proof.
  destruct (valid_new_payload_is_stored Sample.env
              (Sample.world_of Sample.good_payload))
    as [t [H1 [H2 _]]].
  - vm_compute. reflexivity.
  - reflexivity.
  - reflexivity.
  - reflexivity.
  - intros row [].
  - exists t. split; [exact H1|exact H2].
Defined.

End AcceptanceFacts.
